(** * The embedded blob of builtins: a model of
      [src/snapshot/embedded/embedded-data.cc]

    The file packs the instruction streams of all builtins into one code
    buffer and one metadata buffer ([EmbeddedData::FromIsolate]), fixes the
    code targets of the copies ([FinalizeEmbeddedCodeTargets]), maps a pc back
    to its builtin ([InstructionStream::TryLookupCode]) and re-hosts the blob
    in freshly allocated pages
    ([InstructionStream::CreateOffHeapInstructionStream] and
    [FreeOffHeapInstructionStream]).

    Conventions of the model.
    - [uint32_t] values are integers in [Z], every operation that can wrap is
      followed by [wrap32]; addresses are integers in [Z].
    - A buffer is a [list byte]; [memcpy] into a buffer is defined only inside
      its bounds (an out-of-bounds copy is undefined behaviour in the source
      and ends the run in the outcome [Undefined]).
    - The process state touched by the file (arrays obtained from [new],
      regions of the page allocator, the lines printed on stderr, the write
      barriers recorded) is the record [World], threaded through a state and
      error monad.
    - [CHECK] failures, [UNREACHABLE] and allocation failures end the run in
      [Fatal]. [DCHECK]s are compiled out of release builds: the model is the
      release build, and the [DCHECK]s the properties below rely on are proved
      to hold instead. *)

From Stdlib Require Import ZArith String Ascii Lia.
From Stdlib Require Import Floats.SpecFloat.
From stdpp Require Import base list gmap sorting pretty.

Local Open Scope Z_scope.

(** ** Machine integers and byte buffers *)

Definition byte := Z.

Definition wrap32 (z : Z) : Z := z mod 2 ^ 32.

(** [memcpy(&v, ...)] of an integer of [n] bytes, little-endian. *)
Fixpoint encode_le (n : nat) (z : Z) : list byte :=
  match n with
  | O => []
  | S n' => (z mod 256) :: encode_le n' (z / 256)
  end.

Fixpoint decode_le (bs : list byte) : Z :=
  match bs with
  | [] => 0
  | b :: bs' => b + 256 * decode_le bs'
  end.

(** [std::memcpy(dst + off, src, length src)], defined inside [dst] only. *)
Definition memcpy (dst : list byte) (off : nat) (src : list byte)
  : option (list byte) :=
  if decide (off + length src ≤ length dst)%nat
  then Some (take off dst ++ src ++ drop (off + length src)%nat dst)
  else None.

(** Reading [n] bytes at [buf + off], defined inside [buf] only. *)
Definition read_bytes (buf : list byte) (off n : nat) : option (list byte) :=
  if decide (off + n ≤ length buf)%nat
  then Some (take n (drop off buf))
  else None.

(** [for (int i = lo; i < lo + n; i++) s = body(i, s);] *)
Fixpoint for_loop {S : Type} (body : nat → S → S) (lo n : nat) (s : S) : S :=
  match n with
  | O => s
  | Datatypes.S n' => for_loop body (Datatypes.S lo) n' (body lo s)
  end.

(** ** Code objects, builtins and the isolate *)

(** [Builtins::Kind]. *)
Inductive Kind := CPP | TFC | TFH | TFJ | TFS | BCH | ASM.

Definition Register := Z.

(** The part of a [CallInterfaceDescriptor] that line 143-150 read:
    [ContextRegister()] and the register parameters
    ([GetRegisterParameterCount()], [GetRegisterParameter(i)]). *)
Record CallInterfaceDescriptor := {
  ContextRegister : Register;
  RegisterParameters : list Register;
}.

(** [RelocInfo::Mode]. Modelled from the spec: the record kinds; the
    enumeration is declared in reloc-info.h, which is not part of the sources.
    The two kinds this file names and some of the others. *)
Inductive RelocMode :=
  | CODE_TARGET
  | RELATIVE_CODE_TARGET
  | FULL_EMBEDDED_OBJECT
  | RUNTIME_ENTRY
  | EXTERNAL_REFERENCE
  | INTERNAL_REFERENCE
  | OFF_HEAP_TARGET.

Definition mode_number (m : RelocMode) : Z :=
  match m with
  | CODE_TARGET => 0
  | RELATIVE_CODE_TARGET => 1
  | FULL_EMBEDDED_OBJECT => 2
  | RUNTIME_ENTRY => 3
  | EXTERNAL_REFERENCE => 4
  | INTERNAL_REFERENCE => 5
  | OFF_HEAP_TARGET => 6
  end.

(** [RelocInfo::ModeMask(mode)]: [1 << mode]. *)
Definition ModeMask (m : RelocMode) : Z := Z.shiftl 1 (mode_number m).

(** One record of a code object's relocation info: its kind, the offset of the
    patched slot in the instruction stream, and the target address that
    [rinfo->target_address()] reads from the on-heap instructions. *)
Record RelocEntry := {
  entry_rmode : RelocMode;
  entry_pc_offset : nat;
  entry_target_address : Z;
}.

(** A [Code] object of the heap. [IsIsolateIndependent] is the verdict of
    [code.IsIsolateIndependent(isolate)]; [builtin_index] is -1 for code that
    is no builtin. *)
Record Code := {
  builtin_index : Z;
  IsIsolateIndependent : bool;
  raw_instruction_start : Z;
  instructions : list byte;
  relocation_info : list RelocEntry;
}.

Definition raw_instruction_size (code : Code) : Z :=
  Z.of_nat (length (instructions code)).

(** The class [Builtins]: the table of the isolate ([builtin(i)]) and the
    static tables [builtin_count], [name], [KindOf] and [CallableFor] (of the
    latter, the descriptor of the callable). *)
Record Builtins := {
  builtin_count : nat;
  builtin : nat → Code;
  name : nat → string;
  KindOf : Z → Kind;
  CallableFor : Z → CallInterfaceDescriptor;
}.

Record Isolate := {
  builtins : Builtins;
  HashIsolateForEmbeddedBlob : Z;
  (* Code::GetCodeFromTargetAddress: the code object of the heap whose
     instructions start at the address *)
  GetCodeFromTargetAddress : Z → Code;
  embedded_blob_code : Z;
  embedded_blob_code_size : Z;
}.

(** ** The build configuration

    Constants, helpers and external primitives that the file uses and other
    files declare. *)
Record Config := {
  kCodeAlignment : Z;
  (* EmbeddedData::PadAndAlign, of embedded-data.h *)
  PadAndAlign : Z → Z;
  (* EmbeddedData::RawCodeOffset(): the size of the header of the code region *)
  RawCodeOffset : nat;
  kSizetSize : nat;
  kOffHeapTrampolineRegister : Register;
  (* the byte ZapCode fills with *)
  kZapByte : byte;
  (* what an array obtained from new holds before it is written *)
  indeterminate : byte;
  (* the #if of line 166: the target emits direct builtin-to-builtin jumps *)
  direct_code_targets : bool;
  (* Assembler::set_target_address_at: the bytes stored at pc for a target *)
  set_target_address_at : RelocMode → Z → Z → list byte;
  (* Builtins::IsIsolateIndependentBuiltin *)
  IsIsolateIndependentBuiltin : Code → bool;
  (* Checksum of snapshot-utils.h, over two payloads *)
  Checksum : list byte → list byte → Z;
  (* PageAllocator::AllocatePageSize *)
  AllocatePageSize : Z;
  (* AlignedAddress *)
  AlignedAddress : Z → Z → Z;
  (* Heap::GetRandomMmapAddr, by the number of earlier calls *)
  GetRandomMmapAddr : nat → Z;
}.

(** ** The process state *)

(** [PageAllocator::Permission]. *)
Inductive Permission :=
  kNoAccess | kRead | kReadWrite | kReadWriteExecute | kReadExecute.

Record Region := {
  region_size : Z;
  region_permission : Permission;
  region_bytes : list byte;
}.

(** The calls made to the page allocator, in order. *)
Inductive PageCall :=
  | CallAllocatePages (hint size alignment : Z) (access : Permission)
  | CallSetPermissions (address size : Z) (access : Permission)
  | CallFreePages (address size : Z).

Record World := {
  (* live arrays obtained from new uint8_t[n]: base address and size *)
  new_arrays : gmap Z nat;
  (* regions held from the page allocator, by base address *)
  pages : gmap Z Region;
  page_calls : list PageCall;
  stderr : list string;
  (* slots for which a write barrier was recorded *)
  write_barriers : list Z;
  (* number of calls of GetRandomMmapAddr so far *)
  mmap_random_calls : nat;
}.

(** What the platform answers: the address [new] returns ([None]: out of
    memory), the address [AllocatePages] returns ([None]: a null pointer), and
    whether [SetPermissions] and [FreePages] succeed. *)
Record Platform := {
  operator_new : gmap Z nat → nat → option Z;
  allocate_pages : gmap Z Region → Z → Z → Z → Permission → option Z;
  set_permissions : gmap Z Region → Z → Z → Permission → bool;
  free_pages : gmap Z Region → Z → Z → bool;
}.

(** ** Outcomes and the state and error monad *)

Inductive Outcome (A : Type) :=
  | Ok (a : A) (w : World)
  | Fatal (msg : string) (w : World)
  | Undefined.
Arguments Ok {A} a w.
Arguments Fatal {A} msg w.
Arguments Undefined {A}.

Definition M (A : Type) : Type := World → Outcome A.

Definition ret {A} (a : A) : M A := fun w => Ok a w.

Definition bind {A B} (m : M A) (k : A → M B) : M B :=
  fun w =>
    match m w with
    | Ok a w' => k a w'
    | Fatal msg w' => Fatal msg w'
    | Undefined => Undefined
    end.

Notation "'let*' x ':=' m 'in' k" := (bind m (fun x => k))
  (at level 10, x name, m at level 100, k at level 200, only parsing).
Notation "'let*' ' p ':=' m 'in' k" := (bind m (fun x => let 'p := x in k))
  (at level 10, p pattern, m at level 100, k at level 200, only parsing).
Notation "'run' m 'in' k" := (bind m (fun _ => k))
  (at level 10, m at level 100, k at level 200, only parsing).

(** [CHECK(cond)] and [CHECK_WITH_MSG(cond, msg)]. *)
Definition CHECK (cond : bool) (msg : string) : M unit :=
  fun w => if cond then Ok tt w else Fatal msg w.

(** A step that is defined only when the option is. *)
Definition defined {A} (o : option A) : M A :=
  fun w => match o with Some a => Ok a w | None => Undefined end.

(** Updates of single fields of the world. *)
Definition with_new_arrays (f : gmap Z nat → gmap Z nat) (w : World) : World :=
  {| new_arrays := f (new_arrays w); pages := pages w;
     page_calls := page_calls w; stderr := stderr w;
     write_barriers := write_barriers w;
     mmap_random_calls := mmap_random_calls w |}.

Definition with_pages (f : gmap Z Region → gmap Z Region) (w : World) : World :=
  {| new_arrays := new_arrays w; pages := f (pages w);
     page_calls := page_calls w; stderr := stderr w;
     write_barriers := write_barriers w;
     mmap_random_calls := mmap_random_calls w |}.

Definition with_page_call (c : PageCall) (w : World) : World :=
  {| new_arrays := new_arrays w; pages := pages w;
     page_calls := page_calls w ++ [c]; stderr := stderr w;
     write_barriers := write_barriers w;
     mmap_random_calls := mmap_random_calls w |}.

Definition with_stderr (lines : list string) (w : World) : World :=
  {| new_arrays := new_arrays w; pages := pages w;
     page_calls := page_calls w; stderr := lines;
     write_barriers := write_barriers w;
     mmap_random_calls := mmap_random_calls w |}.

Definition with_write_barrier (slot : Z) (w : World) : World :=
  {| new_arrays := new_arrays w; pages := pages w;
     page_calls := page_calls w; stderr := stderr w;
     write_barriers := write_barriers w ++ [slot];
     mmap_random_calls := mmap_random_calls w |}.

Definition with_mmap_random_call (w : World) : World :=
  {| new_arrays := new_arrays w; pages := pages w;
     page_calls := page_calls w; stderr := stderr w;
     write_barriers := write_barriers w;
     mmap_random_calls := S (mmap_random_calls w) |}.

(** ** The blob *)

(** [struct Metadata]: two [uint32_t]. *)
Record Metadata := {
  instructions_offset : Z;
  instructions_length : Z;
}.

Definition sizeof_Metadata : nat := 8.

Definition encode_Metadata (m : Metadata) : list byte :=
  encode_le 4 (instructions_offset m) ++ encode_le 4 (instructions_length m).

Definition decode_Metadata (bs : list byte) : Metadata :=
  {| instructions_offset := decode_le (take 4 bs);
     instructions_length := decode_le (drop 4 bs) |}.

(** [metadata.data()]: the bytes of the vector. *)
Definition encode_table (table : list Metadata) : list byte :=
  mbind encode_Metadata table.

(** [EmbeddedData]: the two buffers, each with its address. [code_size_] and
    [metadata_size_] are the lengths of the buffers. *)
Record EmbeddedData := {
  code_ : Z;
  code_bytes : list byte;
  metadata_ : Z;
  metadata_bytes : list byte;
}.

Definition code_size (d : EmbeddedData) : Z := Z.of_nat (length (code_bytes d)).
Definition metadata_size (d : EmbeddedData) : Z :=
  Z.of_nat (length (metadata_bytes d)).

Definition with_code_bytes (bs : list byte) (d : EmbeddedData) : EmbeddedData :=
  {| code_ := code_ d; code_bytes := bs;
     metadata_ := metadata_ d; metadata_bytes := metadata_bytes d |}.

Definition with_metadata_bytes (bs : list byte) (d : EmbeddedData)
  : EmbeddedData :=
  {| code_ := code_ d; code_bytes := code_bytes d;
     metadata_ := metadata_ d; metadata_bytes := bs |}.

Inductive WriteBarrierMode := SKIP_WRITE_BARRIER | UPDATE_WRITE_BARRIER.

(** A [RelocInfo] the iterator over the on-heap code yields. *)
Record RelocInfo := {
  rmode : RelocMode;
  pc : Z;
  target_address : Z;
}.

(** A [RelocInfo] the iterator over the copy in the blob yields. *)
Record OffHeapRelocInfo := {
  off_heap_rmode : RelocMode;
  off_heap_pc : Z;
}.

(** The result of [TryLookupCode]: [isolate->builtins()->builtin(mid)], the
    null [Code()], the [UNREACHABLE()] after the loop, a read outside the
    metadata table, and the loop of the model running out of steps. *)
Inductive Lookup :=
  | LookupBuiltin (mid : Z)
  | LookupNull
  | LookupUnreachable
  | LookupUndefined
  | LookupOutOfFuel.

(** The state of the first loop of [FromIsolate]. *)
Record LayoutState := {
  saw_unsafe_builtin : bool;
  printed : list string;
  metadata : list Metadata;
  raw_code_size : Z;
}.

Definition newline : string := String (ascii_of_nat 10) EmptyString.

Definition not_isolate_independent_line (builtin_name : string) : string :=
  (builtin_name ++ " is not isolate-independent." ++ newline)%string.

Definition aliases_line (builtin_name : string) : string :=
  (builtin_name ++ " aliases the off-heap trampoline register." ++ newline)%string.

Definition unsafe_builtin_message : string :=
  "One or more builtins marked as isolate-independent either contains isolate-dependent code or aliases the off-heap trampoline register. If in doubt, ask jgruber@".

Section Model.
Context (cfg : Config) (os : Platform).

(** *** Layout of the metadata region (section 6 of the specification;
    the accessors are declared in embedded-data.h, the file asserts
    [EmbeddedBlobHashOffset() == 0] and that both hashes have the size of a
    [size_t]) *)
Definition EmbeddedBlobHashOffset : nat := 0.
Definition EmbeddedBlobHashSize : nat := kSizetSize cfg.
(** Modelled from the spec: the generation-context hash follows the blob
    integrity hash; [IsolateHashOffset] is declared in embedded-data.h. *)
Definition IsolateHashOffset : nat :=
  (EmbeddedBlobHashOffset + EmbeddedBlobHashSize)%nat.
Definition IsolateHashSize : nat := kSizetSize cfg.
(** Modelled from the spec: the metadata table follows the two hashes and
    holds one entry for each code unit; [MetadataTableOffset] and
    [MetadataTableSize] are declared in embedded-data.h. *)
Definition MetadataTableOffset : nat :=
  (IsolateHashOffset + IsolateHashSize)%nat.
Definition MetadataTableSize (kTableSize : nat) : nat :=
  (sizeof_Metadata * kTableSize)%nat.

Definition wrap_size_t (z : Z) : Z := z mod 2 ^ (8 * Z.of_nat (kSizetSize cfg)).

Definition encode_size_t (z : Z) : list byte := encode_le (kSizetSize cfg) z.

(** Modelled from the spec: rounding a size up to the next multiple of [m];
    [RoundUp] is declared in macros.h, the result has the type of [x]. *)
Definition RoundUp (x m : Z) : Z := wrap32 ((x + (m - 1)) / m * m).

(** *** Accessors of the blob *)

(** [Metadata()[i]]: entry [i] of the table in the metadata buffer. *)
Definition Metadata_at (d : EmbeddedData) (i : Z) : option Metadata :=
  if decide (0 ≤ i)
  then decode_Metadata <$>
         read_bytes (metadata_bytes d)
           (MetadataTableOffset + sizeof_Metadata * Z.to_nat i) sizeof_Metadata
  else None.

Definition InstructionStartOfBuiltin (d : EmbeddedData) (i : Z) : option Z :=
  (fun m => code_ d + Z.of_nat (RawCodeOffset cfg) + instructions_offset m)
    <$> Metadata_at d i.

Definition InstructionSizeOfBuiltin (d : EmbeddedData) (i : Z) : option Z :=
  instructions_length <$> Metadata_at d i.

(** Modelled from the spec: the padded length of a unit is its length with
    the trailing alignment gap; [PaddedInstructionSizeOfBuiltin] is declared
    in embedded-data.h. *)
Definition PaddedInstructionSizeOfBuiltin (d : EmbeddedData) (i : Z)
  : option Z :=
  PadAndAlign cfg <$> InstructionSizeOfBuiltin d i.

(** Payload 1 is the metadata buffer after the hash field, payload 2 the
    code buffer. *)
Definition CreateEmbeddedBlobHash (d : EmbeddedData) : option Z :=
  if decide (EmbeddedBlobHashSize ≤ length (metadata_bytes d))%nat
  then Some (wrap_size_t
               (Checksum cfg (drop EmbeddedBlobHashSize (metadata_bytes d))
                  (code_bytes d)))
  else None.

(** Modelled from the spec: the stored blob integrity hash is read from its
    field; [EmbeddedBlobHash] is declared in embedded-data.h. *)
Definition EmbeddedBlobHash (d : EmbeddedData) : option Z :=
  decode_le <$>
    read_bytes (metadata_bytes d) EmbeddedBlobHashOffset EmbeddedBlobHashSize.

(** *** InstructionStream::PcIsOffHeap and TryLookupCode *)

Definition PcIsOffHeap (isolate : Isolate) (pc : Z) : bool :=
  let start := embedded_blob_code isolate in
  bool_decide (start ≤ pc) && bool_decide (pc < start + embedded_blob_code_size isolate).

(** The loop [while (l < r)] of lines 35-47. *)
Fixpoint lookup_loop (fuel : nat) (d : EmbeddedData) (address l r : Z)
  : Lookup :=
  if decide (l < r) then
    match fuel with
    | O => LookupOutOfFuel
    | S fuel' =>
        let mid := (l + r) / 2 in
        match InstructionStartOfBuiltin d mid,
              PaddedInstructionSizeOfBuiltin d mid with
        | Some start, Some padded =>
            let end_ := start + padded in
            if decide (address < start) then lookup_loop fuel' d address l mid
            else if decide (address >= end_)
                 then lookup_loop fuel' d address (mid + 1) r
                 else LookupBuiltin mid
        | _, _ => LookupUndefined
        end
    end
  else LookupUnreachable.

(** [d] is the blob [EmbeddedData::FromBlob()] returns. *)
Definition TryLookupCode (isolate : Isolate) (d : EmbeddedData) (address : Z)
  : Lookup :=
  if negb (PcIsOffHeap isolate address) then LookupNull
  else
    match InstructionStartOfBuiltin d 0 with
    | None => LookupUndefined
    | Some start0 =>
        if decide (address < start0) then LookupNull
        else
          let n := builtin_count (builtins isolate) in
          lookup_loop n d address 0 (Z.of_nat n)
    end.

(** *** The safety checks *)

(** The loop of lines 147-150. *)
Fixpoint any_register_parameter_is (k : Register) (regs : list Register)
  : bool :=
  match regs with
  | [] => false
  | reg :: regs' =>
      if bool_decide (reg = k) then true
      else any_register_parameter_is k regs'
  end.

Definition BuiltinAliasesOffHeapTrampolineRegister
    (isolate : Isolate) (code : Code) : bool :=
  match KindOf (builtins isolate) (builtin_index code) with
  | BCH | ASM => false
  | CPP | TFC | TFH | TFJ | TFS =>
      let descriptor := CallableFor (builtins isolate) (builtin_index code) in
      if bool_decide
           (ContextRegister descriptor = kOffHeapTrampolineRegister cfg)
      then true
      else any_register_parameter_is (kOffHeapTrampolineRegister cfg)
             (RegisterParameters descriptor)
  end.

(** *** The first loop of FromIsolate (lines 212-235) *)

Definition layout_step (isolate : Isolate) (i : nat) (s : LayoutState)
  : LayoutState :=
  let code := builtin (builtins isolate) i in
  let s1 :=
    if negb (IsIsolateIndependent code)
    then {| saw_unsafe_builtin := true;
            printed := printed s ++
              [not_isolate_independent_line (name (builtins isolate) i)];
            metadata := metadata s;
            raw_code_size := raw_code_size s |}
    else s in
  let s2 :=
    if BuiltinAliasesOffHeapTrampolineRegister isolate code
    then {| saw_unsafe_builtin := true;
            printed := printed s1 ++
              [aliases_line (name (builtins isolate) i)];
            metadata := metadata s1;
            raw_code_size := raw_code_size s1 |}
    else s1 in
  let length := wrap32 (raw_instruction_size code) in
  {| saw_unsafe_builtin := saw_unsafe_builtin s2;
     printed := printed s2;
     metadata :=
       <[i := {| instructions_offset := raw_code_size s2;
                 instructions_length := length |}]> (metadata s2);
     raw_code_size := wrap32 (raw_code_size s2 + PadAndAlign cfg length) |}.

Definition layout_loop (isolate : Isolate) (printed0 : list string)
  : LayoutState :=
  let kTableSize := builtin_count (builtins isolate) in
  for_loop (layout_step isolate) 0 (builtin_count (builtins isolate))
    {| saw_unsafe_builtin := false;
       printed := printed0;
       metadata :=
         replicate kTableSize
           {| instructions_offset := 0; instructions_length := 0 |};
       raw_code_size := 0 |}.

(** [for (...) s = body(i, s);] with a body that can fail. *)
Fixpoint for_loop_M {S : Type} (body : nat → S → M S) (lo n : nat) (s : S)
  : M S :=
  match n with
  | O => ret s
  | Datatypes.S n' =>
      let* s' := body lo s in for_loop_M body (Datatypes.S lo) n' s'
  end.

(** *** Arrays from new and delete *)

Definition out_of_memory_message : string := "Fatal process out of memory".

(** [new uint8_t[n]]: the address the platform answers, or a fatal failure. *)
Definition new_uint8_array (n : nat) : M Z :=
  fun w =>
    match operator_new os (new_arrays w) n with
    | Some a => Ok a (with_new_arrays (insert a n) w)
    | None => Fatal out_of_memory_message w
    end.

(** [delete[] p]; defined for a live array only. *)
Definition delete_array (p : Z) : M unit :=
  fun w =>
    match new_arrays w !! p with
    | Some _ => Ok tt (with_new_arrays (delete p) w)
    | None => Undefined
    end.

(** Modelled from the spec: the build-time buffers are disposed explicitly;
    [EmbeddedData::Dispose] is declared in embedded-data.h. It deletes the
    code buffer, then the metadata buffer. *)
Definition Dispose (d : EmbeddedData) : M unit :=
  run delete_array (code_ d) in delete_array (metadata_ d).

(** *** The relocation iterators and FinalizeEmbeddedCodeTargets *)

Definition kRelocMask : Z :=
  Z.lor (ModeMask CODE_TARGET) (ModeMask RELATIVE_CODE_TARGET).

Definition mode_in_mask (mode_mask : Z) (m : RelocMode) : bool :=
  negb (Z.land mode_mask (ModeMask m) =? 0).

(** The [RelocInfo] of a record of the on-heap code. *)
Definition on_heap_RelocInfo (code : Code) (e : RelocEntry) : RelocInfo :=
  {| rmode := entry_rmode e;
     pc := raw_instruction_start code + Z.of_nat (entry_pc_offset e);
     target_address := entry_target_address e |}.

(** The [RelocInfo] of a record read against a copy that starts at [start]. *)
Definition off_heap_RelocInfo (start : Z) (e : RelocEntry) : OffHeapRelocInfo :=
  {| off_heap_rmode := entry_rmode e;
     off_heap_pc := start + Z.of_nat (entry_pc_offset e) |}.

(** [RelocIterator(code, mode_mask)]: the records of the on-heap code whose
    kind is in the mask. *)
Definition RelocIterator (code : Code) (mode_mask : Z) : list RelocInfo :=
  on_heap_RelocInfo code
    <$> filter (fun e => mode_in_mask mode_mask (entry_rmode e) = true)
          (relocation_info code).

(** [RelocIterator(blob, code, mode_mask)]: the same relocation info, read
    against the copy of the instructions in the blob. *)
Definition RelocIterator_embedded
    (blob : EmbeddedData) (code : Code) (mode_mask : Z)
  : option (list OffHeapRelocInfo) :=
  (fun start =>
     off_heap_RelocInfo start
       <$> filter (fun e => mode_in_mask mode_mask (entry_rmode e) = true)
             (relocation_info code))
    <$> InstructionStartOfBuiltin blob (builtin_index code).

(** [rinfo->set_target_address(target, mode)] on a record of the blob: the
    bytes of the slot are overwritten; a write barrier is recorded only in
    the mode [UPDATE_WRITE_BARRIER]. *)
Definition set_target_address
    (blob : EmbeddedData) (rinfo : OffHeapRelocInfo) (target : Z)
    (mode : WriteBarrierMode) : M EmbeddedData :=
  let slot := off_heap_pc rinfo - code_ blob in
  let* bytes :=
    defined
      (if decide (0 ≤ slot)
       then memcpy (code_bytes blob) (Z.to_nat slot)
              (set_target_address_at cfg (off_heap_rmode rinfo)
                 (off_heap_pc rinfo) target)
       else None) in
  fun w =>
    Ok (with_code_bytes bytes blob)
       (match mode with
        | SKIP_WRITE_BARRIER => w
        | UPDATE_WRITE_BARRIER => with_write_barrier (off_heap_pc rinfo) w
        end).

Definition target_check_message : string :=
  "Check failed: Builtins::IsIsolateIndependentBuiltin(target)".

(** The loop [while (!on_heap_it.done())] of lines 173-188. Reading
    [off_heap_it.rinfo()] when that iterator is done is undefined. *)
Fixpoint fix_targets (isolate : Isolate) (on_heap_it : list RelocInfo)
    (off_heap_it : list OffHeapRelocInfo) (blob : EmbeddedData)
  : M EmbeddedData :=
  match on_heap_it with
  | [] => ret blob
  | rinfo :: on_heap_rest =>
      match off_heap_it with
      | [] => fun _ => Undefined
      | off_heap_rinfo :: off_heap_rest =>
          let target :=
            GetCodeFromTargetAddress isolate (target_address rinfo) in
          run CHECK (IsIsolateIndependentBuiltin cfg target)
                target_check_message in
          let* start :=
            defined (InstructionStartOfBuiltin blob (builtin_index target)) in
          let* blob' :=
            set_target_address blob off_heap_rinfo start SKIP_WRITE_BARRIER in
          fix_targets isolate on_heap_rest off_heap_rest blob'
      end
  end.

Definition on_heap_done_message : string := "Check failed: on_heap_it.done()".
Definition off_heap_done_message : string :=
  "Check failed: off_heap_it.done()".

Definition finalize_step (isolate : Isolate) (i : nat) (blob : EmbeddedData)
  : M EmbeddedData :=
  let code := builtin (builtins isolate) i in
  let on_heap_it := RelocIterator code kRelocMask in
  let* off_heap_it := defined (RelocIterator_embedded blob code kRelocMask) in
  if direct_code_targets cfg
  then fix_targets isolate on_heap_it off_heap_it blob
  else
    run CHECK (bool_decide (on_heap_it = [])) on_heap_done_message in
    run CHECK (bool_decide (off_heap_it = [])) off_heap_done_message in
    ret blob.

Definition FinalizeEmbeddedCodeTargets (isolate : Isolate) (blob : EmbeddedData)
  : M EmbeddedData :=
  for_loop_M (finalize_step isolate) 0 (builtin_count (builtins isolate)) blob.

(** *** EmbeddedData::FromIsolate *)

(** The loop of lines 267-275: the instructions of every builtin are copied
    to [raw_code_start + offset]. *)
Definition copy_step (isolate : Isolate) (table : list Metadata) (i : nat)
    (blob_code : option (list byte)) : option (list byte) :=
  let code := builtin (builtins isolate) i in
  buffer ← blob_code;
  entry ← table !! i;
  let offset := instructions_offset entry in
  memcpy buffer (RawCodeOffset cfg + Z.to_nat offset) (instructions code).

Definition write_raw_data (isolate : Isolate) (table : list Metadata)
    (blob_code : list byte) : option (list byte) :=
  for_loop (copy_step isolate table) 0 (builtin_count (builtins isolate))
    (Some blob_code).

(** [ZapCode]: the whole buffer is filled with the trap byte. *)
Definition ZapCode (size : nat) : list byte := replicate size (kZapByte cfg).

(** [d.PrintStatistics()] under [FLAG_serialization_statistics] prints to
    stdout, which the world does not record. *)
Definition FromIsolate (isolate : Isolate) : M EmbeddedData :=
  let kTableSize := builtin_count (builtins isolate) in
  let* s :=
    (fun w =>
       let s := layout_loop isolate (stderr w) in
       Ok s (with_stderr (printed s) w)) in
  run CHECK (negb (saw_unsafe_builtin s)) unsafe_builtin_message in
  let blob_code_size :=
    Z.to_nat (wrap32 (Z.of_nat (RawCodeOffset cfg) + raw_code_size s)) in
  let* blob_code := new_uint8_array blob_code_size in
  let blob_metadata_size :=
    Z.to_nat (wrap32 (Z.of_nat MetadataTableOffset
                      + Z.of_nat (MetadataTableSize kTableSize))) in
  let* blob_metadata := new_uint8_array blob_metadata_size in
  let code0 := ZapCode blob_code_size in
  let metadata0 := replicate blob_metadata_size (indeterminate cfg) in
  let hash := wrap_size_t (HashIsolateForEmbeddedBlob isolate) in
  let* metadata1 :=
    defined (memcpy metadata0 IsolateHashOffset (encode_size_t hash)) in
  let* metadata2 :=
    defined (memcpy metadata1 MetadataTableOffset
               (encode_table (metadata s))) in
  let* code1 := defined (write_raw_data isolate (metadata s) code0) in
  let d := {| code_ := blob_code; code_bytes := code1;
              metadata_ := blob_metadata; metadata_bytes := metadata2 |} in
  let* d := FinalizeEmbeddedCodeTargets isolate d in
  let* hash := defined (CreateEmbeddedBlobHash d) in
  let* metadata3 :=
    defined (memcpy (metadata_bytes d) EmbeddedBlobHashOffset
               (encode_size_t hash)) in
  ret (with_metadata_bytes metadata3 d).

(** *** The page allocator *)

Definition AllocatePages (hint size alignment : Z) (access : Permission)
  : M (option Z) :=
  fun w =>
    let w1 := with_page_call (CallAllocatePages hint size alignment access) w in
    match allocate_pages os (pages w) hint size alignment access with
    | Some a =>
        Ok (Some a)
           (with_pages
              (insert a {| region_size := size;
                           region_permission := access;
                           region_bytes := replicate (Z.to_nat size) 0 |})
              w1)
    | None => Ok None w1
    end.

Definition set_region_permission (size : Z) (access : Permission)
    (r : Region) : Region :=
  if decide (region_size r = size)
  then {| region_size := region_size r;
          region_permission := access;
          region_bytes := region_bytes r |}
  else r.

Definition SetPermissions (address size : Z) (access : Permission) : M bool :=
  fun w =>
    let w1 := with_page_call (CallSetPermissions address size access) w in
    if set_permissions os (pages w) address size access
    then Ok true
           (with_pages (alter (set_region_permission size access) address) w1)
    else Ok false w1.

Definition FreePages (address size : Z) : M bool :=
  fun w =>
    let w1 := with_page_call (CallFreePages address size) w in
    if free_pages os (pages w) address size
    then Ok true (with_pages (delete address) w1)
    else Ok false w1.

Definition writable (access : Permission) : bool :=
  match access with
  | kReadWrite | kReadWriteExecute => true
  | _ => false
  end.

(** [std::memcpy(region, src, length src)] into a region of the page
    allocator: defined for a writable region that holds the bytes. *)
Definition memcpy_to_region (address : Z) (src : list byte) : M unit :=
  fun w =>
    match pages w !! address with
    | Some r =>
        if writable (region_permission r)
        then
          match memcpy (region_bytes r) 0 src with
          | Some bytes =>
              Ok tt
                 (with_pages
                    (insert address
                       {| region_size := region_size r;
                          region_permission := region_permission r;
                          region_bytes := bytes |})
                    w)
          | None => Undefined
          end
        else Undefined
    | None => Undefined
    end.

Definition random_mmap_addr : M Z :=
  fun w =>
    Ok (GetRandomMmapAddr cfg (mmap_random_calls w)) (with_mmap_random_call w).

Definition CHECK_NOT_NULL (p : option Z) (msg : string) : M Z :=
  fun w => match p with Some a => Ok a w | None => Fatal msg w end.

(** *** InstructionStream::CreateOffHeapInstructionStream and
    FreeOffHeapInstructionStream *)

(** The result is the values stored through the four out-parameters. *)
Definition CreateOffHeapInstructionStream (isolate : Isolate)
  : M (Z * Z * Z * Z) :=
  let* d := FromIsolate isolate in
  let alignment := wrap32 (AllocatePageSize cfg) in
  let* random_code := random_mmap_addr in
  let requested_allocation_code_address :=
    AlignedAddress cfg random_code alignment in
  let allocation_code_size := RoundUp (code_size d) alignment in
  let* allocated :=
    AllocatePages requested_allocation_code_address allocation_code_size
      alignment kReadWrite in
  let* allocated_code_bytes :=
    CHECK_NOT_NULL allocated "Check failed: (allocated_code_bytes) != nullptr" in
  let* random_metadata := random_mmap_addr in
  let requested_allocation_metadata_address :=
    AlignedAddress cfg random_metadata alignment in
  let allocation_metadata_size := RoundUp (metadata_size d) alignment in
  let* allocated :=
    AllocatePages requested_allocation_metadata_address
      allocation_metadata_size alignment kReadWrite in
  let* allocated_metadata_bytes :=
    CHECK_NOT_NULL allocated
      "Check failed: (allocated_metadata_bytes) != nullptr" in
  run memcpy_to_region allocated_code_bytes (code_bytes d) in
  let* ok :=
    SetPermissions allocated_code_bytes allocation_code_size kReadExecute in
  run CHECK ok "Check failed: SetPermissions(code, kReadExecute)" in
  run memcpy_to_region allocated_metadata_bytes (metadata_bytes d) in
  let* ok :=
    SetPermissions allocated_metadata_bytes allocation_metadata_size kRead in
  run CHECK ok "Check failed: SetPermissions(metadata, kRead)" in
  run Dispose d in
  ret (allocated_code_bytes, code_size d,
       allocated_metadata_bytes, metadata_size d).

Definition FreeOffHeapInstructionStream
    (code code_size metadata metadata_size : Z) : M unit :=
  let page_size := wrap32 (AllocatePageSize cfg) in
  let* ok := FreePages code (RoundUp code_size page_size) in
  run CHECK ok "Check failed: FreePages(code)" in
  let* ok := FreePages metadata (RoundUp metadata_size page_size) in
  CHECK ok "Check failed: FreePages(metadata)".
End Model.

(** ** Machine [int] and [double] *)

(** [static_cast<int>(x)] of an unsigned value: the value modulo 2^32, as a
    signed integer. *)
Definition static_cast_int (z : Z) : Z := (z + 2 ^ 31) mod 2 ^ 32 - 2 ^ 31.

(** [a + b] on [int]; signed overflow is undefined. *)
Definition int_add (a b : Z) : option Z :=
  if decide (- 2 ^ 31 ≤ a + b < 2 ^ 31) then Some (a + b) else None.

(** A [double] is a binary64 number of IEEE 754. *)
Definition double_of_int (n : Z) : spec_float :=
  binary_normalize 53 1024 n 0 false.

Definition double_mul : spec_float → spec_float → spec_float := SFmul 53 1024.

(** The decimal literal [num / den]: the double nearest to the quotient. *)
Definition double_literal (num den : Z) : spec_float :=
  SFdiv 53 1024 (double_of_int num) (double_of_int den).

(** The conversion of a [double] to [int] truncates toward zero and is
    undefined when the result is no [int]. *)
Definition int_of_double (f : spec_float) : option Z :=
  match f with
  | S754_zero _ => Some 0
  | S754_finite sign m e =>
      let magnitude :=
        match e with
        | Z0 => Z.pos m
        | Zpos p => Z.pos m * 2 ^ Z.pos p
        | Zneg p => Z.pos m / 2 ^ Z.pos p
        end in
      let value := if sign then - magnitude else magnitude in
      if decide (- 2 ^ 31 ≤ value < 2 ^ 31) then Some value else None
  | S754_infinity _ | S754_nan => None
  end.

(** [a[i]] and [a[i] = v] on an array of [int], defined inside the array. *)
Definition array_get (a : list Z) (i : Z) : option Z :=
  if decide (0 ≤ i) then a !! Z.to_nat i else None.

Definition array_set (a : list Z) (i v : Z) : option (list Z) :=
  if decide (0 ≤ i < Z.of_nat (length a))
  then Some (<[Z.to_nat i := v]> a) else None.

(** [std::sort(&a[0], &a[n])]. *)
Definition sort_prefix (a : list Z) (n : Z) : option (list Z) :=
  if decide (0 ≤ n ≤ Z.of_nat (length a))
  then Some (merge_sort Z.le (take (Z.to_nat n) a) ++ drop (Z.to_nat n) a)
  else None.

(** ** EmbeddedData::InstructionStartOfBytecodeHandlers and
    InstructionEndOfBytecodeHandlers *)

(** [kFirstBytecodeHandler] is a constant of the class [Builtins]. *)
Definition InstructionStartOfBytecodeHandlers (cfg : Config)
    (kFirstBytecodeHandler : Z) (d : EmbeddedData) : option Z :=
  InstructionStartOfBuiltin cfg d kFirstBytecodeHandler.

Definition InstructionEndOfBytecodeHandlers (cfg : Config) (bs : Builtins)
    (d : EmbeddedData) : option Z :=
  let lastBytecodeHandler := Z.of_nat (builtin_count bs) - 1 in
  start ← InstructionStartOfBuiltin cfg d lastBytecodeHandler;
  size ← InstructionSizeOfBuiltin cfg d lastBytecodeHandler;
  Some (start + size).

(** ** EmbeddedData::PrintStatistics *)

(** The locals of the loop of lines 346-351. *)
Record StatisticsState := {
  embedded_count : Z;
  instruction_size : Z;
  sizes : list Z;
}.

(** An [int] that was not initialised. *)
Definition indeterminate_int (cfg : Config) : Z :=
  static_cast_int (decode_le (replicate 4 (indeterminate cfg))).

Definition statistics_step (cfg : Config) (d : EmbeddedData) (i : nat)
    (state : option StatisticsState) : option StatisticsState :=
  st ← state;
  size ← static_cast_int <$> InstructionSizeOfBuiltin cfg d (Z.of_nat i);
  total ← int_add (instruction_size st) size;
  sizes' ← array_set (sizes st) (embedded_count st) size;
  count ← int_add (embedded_count st) 1;
  Some {| embedded_count := count; instruction_size := total;
          sizes := sizes' |}.

Definition statistics_loop (cfg : Config) (d : EmbeddedData) (kCount n : nat)
  : option StatisticsState :=
  for_loop (statistics_step cfg d) 0 n
    (Some {| embedded_count := 0; instruction_size := 0;
             sizes := replicate kCount (indeterminate_int cfg) |}).

(** [embedded_count * fraction], converted to [int]. *)
Definition percentile_index (embedded_count : Z) (fraction : spec_float)
  : option Z :=
  int_of_double (double_mul (double_of_int embedded_count) fraction).

(** The numbers [PrintStatistics] prints, in the order of its lines. *)
Record Statistics := {
  total_size : Z;
  printed_metadata_size : Z;
  printed_instruction_size : Z;
  padding : Z;
  embedded_builtin_count : Z;
  percentile_50 : Z;
  percentile_75 : Z;
  percentile_90 : Z;
  percentile_99 : Z;
}.

Definition statistics (cfg : Config) (bs : Builtins) (d : EmbeddedData)
  : option Statistics :=
  let kCount := builtin_count bs in
  st ← statistics_loop cfg d kCount kCount;
  sorted ← sort_prefix (sizes st) (embedded_count st);
  k50th ← percentile_index (embedded_count st) (double_literal 5 10);
  k75th ← percentile_index (embedded_count st) (double_literal 75 100);
  k90th ← percentile_index (embedded_count st) (double_literal 90 100);
  k99th ← percentile_index (embedded_count st) (double_literal 99 100);
  size50 ← array_get sorted k50th;
  size75 ← array_get sorted k75th;
  size90 ← array_get sorted k90th;
  size99 ← array_get sorted k99th;
  Some {| total_size := static_cast_int (wrap32 (code_size d + metadata_size d));
          printed_metadata_size := static_cast_int (metadata_size d);
          printed_instruction_size := instruction_size st;
          padding :=
            static_cast_int (wrap32 (code_size d - instruction_size st));
          embedded_builtin_count := embedded_count st;
          percentile_50 := size50;
          percentile_75 := size75;
          percentile_90 := size90;
          percentile_99 := size99 |}.

(** [PrintF(format, value)] with one [%d]. *)
Definition PrintF_d (label : string) (value : Z) : string :=
  (label ++ pretty value ++ newline)%string.

(** The lines written to stdout. *)
Definition PrintStatistics (cfg : Config) (bs : Builtins) (d : EmbeddedData)
  : option (list string) :=
  st ← statistics cfg bs d;
  Some [ ("EmbeddedData:" ++ newline)%string;
         PrintF_d "  Total size:                         " (total_size st);
         PrintF_d "  Metadata size:                      "
           (printed_metadata_size st);
         PrintF_d "  Instruction size:                   "
           (printed_instruction_size st);
         PrintF_d "  Padding:                            " (padding st);
         PrintF_d "  Embedded builtin count:             "
           (embedded_builtin_count st);
         PrintF_d "  Instruction size (50th percentile): " (percentile_50 st);
         PrintF_d "  Instruction size (75th percentile): " (percentile_75 st);
         PrintF_d "  Instruction size (90th percentile): " (percentile_90 st);
         PrintF_d "  Instruction size (99th percentile): " (percentile_99 st);
         newline ].

(** ** Example configurations and isolates *)

(** Modelled from the spec: the length of a unit rounded up to the code
    alignment; [PadAndAlign] is declared in embedded-data.h. *)
Definition PadAndAlign_rounding (alignment size : Z) : Z :=
  RoundUp size alignment.

(** A 64-bit target with direct, pc-relative code targets of four bytes, the
    code alignment of the scenario of the specification and no header. *)
Definition example_cfg : Config :=
  {| kCodeAlignment := 16;
     PadAndAlign := PadAndAlign_rounding 16;
     RawCodeOffset := 0;
     kSizetSize := 8;
     kOffHeapTrampolineRegister := 10;
     kZapByte := 204;
     indeterminate := 0;
     direct_code_targets := true;
     set_target_address_at := fun _ pc target => encode_le 4 (target - (pc + 4));
     IsIsolateIndependentBuiltin :=
       fun target => bool_decide (0 ≤ builtin_index target < 3);
     Checksum := fun payload1 payload2 => foldr Z.add 0 (payload1 ++ payload2);
     AllocatePageSize := 4096;
     AlignedAddress := fun address alignment => address / alignment * alignment;
     GetRandomMmapAddr := fun calls => 139637976727552 + 65536 * Z.of_nat calls |}.

(** The same target without direct code targets. *)
Definition indirect_cfg : Config :=
  {| kCodeAlignment := kCodeAlignment example_cfg;
     PadAndAlign := PadAndAlign example_cfg;
     RawCodeOffset := RawCodeOffset example_cfg;
     kSizetSize := kSizetSize example_cfg;
     kOffHeapTrampolineRegister := kOffHeapTrampolineRegister example_cfg;
     kZapByte := kZapByte example_cfg;
     indeterminate := indeterminate example_cfg;
     direct_code_targets := false;
     set_target_address_at := set_target_address_at example_cfg;
     IsIsolateIndependentBuiltin := IsIsolateIndependentBuiltin example_cfg;
     Checksum := Checksum example_cfg;
     AllocatePageSize := AllocatePageSize example_cfg;
     AlignedAddress := AlignedAddress example_cfg;
     GetRandomMmapAddr := GetRandomMmapAddr example_cfg |}.

(** The first address after every live array. *)
Definition heap_end (live : gmap Z nat) : Z :=
  foldr (fun '(a, n) acc => Z.max acc (a + Z.of_nat n + 1)) 65536
    (map_to_list live).

(** A platform on which [new] answers the address after the live arrays, the
    page allocator the hint it was given when no region is held there, and a
    region is released by its address and size. *)
Definition example_os : Platform :=
  {| operator_new := fun live _ => Some (heap_end live);
     allocate_pages :=
       fun regions hint _ _ _ =>
         match regions !! hint with
         | Some _ => None
         | None => Some hint
         end;
     set_permissions := fun _ _ _ _ => true;
     free_pages :=
       fun regions address size =>
         match regions !! address with
         | Some r => bool_decide (region_size r = size)
         | None => false
         end |}.

Definition empty_world : World :=
  {| new_arrays := ∅; pages := ∅; page_calls := []; stderr := [];
     write_barriers := []; mmap_random_calls := 0 |}.

Definition example_descriptor : CallInterfaceDescriptor :=
  {| ContextRegister := 6; RegisterParameters := [0; 3; 1] |}.

(** A descriptor whose second register parameter is register 10. *)
Definition aliasing_descriptor : CallInterfaceDescriptor :=
  {| ContextRegister := 6; RegisterParameters := [0; 10] |}.

(** Three builtins of 10, 37 and 4 bytes. The second one calls the third
    through a code target at offset 1 of its instructions, the third one
    jumps to the first through a relative code target. *)
Definition scenario_code (i : nat) : Code :=
  match i with
  | O =>
      {| builtin_index := 0; IsIsolateIndependent := true;
         raw_instruction_start := 4096;
         instructions := replicate 10 144;
         relocation_info := [] |}
  | S O =>
      {| builtin_index := 1; IsIsolateIndependent := true;
         raw_instruction_start := 8192;
         instructions := replicate 37 144;
         relocation_info :=
           [ {| entry_rmode := EXTERNAL_REFERENCE; entry_pc_offset := 20;
                entry_target_address := 77777 |};
             {| entry_rmode := CODE_TARGET; entry_pc_offset := 1;
                entry_target_address := 12288 |} ] |}
  | _ =>
      {| builtin_index := 2; IsIsolateIndependent := true;
         raw_instruction_start := 12288;
         instructions := replicate 4 144;
         relocation_info :=
           [ {| entry_rmode := RELATIVE_CODE_TARGET; entry_pc_offset := 0;
                entry_target_address := 4096 |} ] |}
  end.

Definition scenario_names (i : nat) : string :=
  match i with
  | O => "RecordWrite"
  | S O => "ArrayPush"
  | _ => "LdaZeroHandler"
  end.

Definition scenario_builtins (kinds : Z → Kind)
    (callable : Z → CallInterfaceDescriptor) (code : nat → Code) : Builtins :=
  {| builtin_count := 3; builtin := code; name := scenario_names;
     KindOf := kinds; CallableFor := callable |}.

Definition scenario_heap (address : Z) : Code :=
  if decide (address = 4096) then scenario_code 0
  else if decide (address = 8192) then scenario_code 1
  else if decide (address = 12288) then scenario_code 2
  else {| builtin_index := -1; IsIsolateIndependent := false;
          raw_instruction_start := address; instructions := [];
          relocation_info := [] |}.

Definition scenario_kinds (i : Z) : Kind :=
  if decide (i = 0) then ASM else if decide (i = 1) then TFJ else BCH.

Definition isolate_of (bs : Builtins) : Isolate :=
  {| builtins := bs; HashIsolateForEmbeddedBlob := 123456789;
     GetCodeFromTargetAddress := scenario_heap;
     embedded_blob_code := 0; embedded_blob_code_size := 0 |}.

(** The scenario of the specification: lengths 10, 37 and 4, alignment 16. *)
Definition scenario_isolate : Isolate :=
  isolate_of
    (scenario_builtins scenario_kinds (fun _ => example_descriptor) scenario_code).

Definition set_IsIsolateIndependent (b : bool) (code : Code) : Code :=
  {| builtin_index := builtin_index code; IsIsolateIndependent := b;
     raw_instruction_start := raw_instruction_start code;
     instructions := instructions code;
     relocation_info := relocation_info code |}.

(** The scenario with a bytecode handler (builtin 2, of kind BCH) that is not
    isolate-independent. *)
Definition context_dependent_handler_isolate : Isolate :=
  isolate_of
    (scenario_builtins scenario_kinds (fun _ => example_descriptor)
       (fun i => if decide (i = 2%nat)
                 then set_IsIsolateIndependent false (scenario_code i)
                 else scenario_code i)).

(** The scenario with an assembly builtin (builtin 0, of kind ASM) whose
    descriptor names the off-heap trampoline register. *)
Definition aliasing_asm_isolate : Isolate :=
  isolate_of
    (scenario_builtins scenario_kinds
       (fun i => if decide (i = 0) then aliasing_descriptor
                 else example_descriptor)
       scenario_code).

(** The scenario with two unsafe builtins: builtin 0 is not
    isolate-independent, builtin 1 (of kind TFJ) aliases the register. *)
Definition two_unsafe_isolate : Isolate :=
  isolate_of
    (scenario_builtins scenario_kinds
       (fun i => if decide (i = 1) then aliasing_descriptor
                 else example_descriptor)
       (fun i => if decide (i = 0%nat)
                 then set_IsIsolateIndependent false (scenario_code i)
                 else scenario_code i)).

(** The isolate running on a blob. *)
Definition running_on (d : EmbeddedData) (isolate : Isolate) : Isolate :=
  {| builtins := builtins isolate;
     HashIsolateForEmbeddedBlob := HashIsolateForEmbeddedBlob isolate;
     GetCodeFromTargetAddress := GetCodeFromTargetAddress isolate;
     embedded_blob_code := code_ d;
     embedded_blob_code_size := code_size d |}.

(** ** The layout, stated apart from the loop *)

(** The length the first loop stores for builtin [i]. *)
Definition unit_length (isolate : Isolate) (i : nat) : Z :=
  wrap32 (raw_instruction_size (builtin (builtins isolate) i)).

(** The padded lengths of the first [n] builtins, summed without wrapping. *)
Fixpoint padded_total (cfg : Config) (isolate : Isolate) (n : nat) : Z :=
  match n with
  | O => 0
  | S n' => padded_total cfg isolate n' + PadAndAlign cfg (unit_length isolate n')
  end.

(** The value of [raw_code_size] after [n] rounds of the first loop. *)
Fixpoint raw_size_after (cfg : Config) (isolate : Isolate) (n : nat) : Z :=
  match n with
  | O => 0
  | S n' =>
      wrap32 (raw_size_after cfg isolate n'
              + PadAndAlign cfg (unit_length isolate n'))
  end.

(** [PadAndAlign] covers the length of every builtin of the isolate and
    yields multiples of the code alignment. *)
Definition pads_units (cfg : Config) (isolate : Isolate) : Prop :=
  ∀ i, (i < builtin_count (builtins isolate))%nat →
    unit_length isolate i ≤ PadAndAlign cfg (unit_length isolate i) ∧
    (kCodeAlignment cfg | PadAndAlign cfg (unit_length isolate i)).

(** The code region fits the 32-bit size fields. *)
Definition fits_uint32 (cfg : Config) (isolate : Isolate) : Prop :=
  Z.of_nat (RawCodeOffset cfg)
  + padded_total cfg isolate (builtin_count (builtins isolate)) < 2 ^ 32.

(** ** Definitions used to state the properties *)

(** The state in which the first loop of [FromIsolate] starts: a zeroed
    metadata vector, nothing laid out yet. *)
Definition layout_init (isolate : Isolate) (printed0 : list string)
  : LayoutState :=
  {| saw_unsafe_builtin := false;
     printed := printed0;
     metadata :=
       replicate (builtin_count (builtins isolate))
         {| instructions_offset := 0; instructions_length := 0 |};
     raw_code_size := 0 |}.

(** The state of the first loop after its first [n] rounds. *)
Definition layout_upto (cfg : Config) (isolate : Isolate)
    (printed0 : list string) (n : nat) : LayoutState :=
  for_loop (layout_step cfg isolate) 0 n (layout_init isolate printed0).

(** The descriptor names the off-heap trampoline register, as its context
    register or as one of its register parameters. *)
Definition uses_trampoline_register (cfg : Config)
    (descriptor : CallInterfaceDescriptor) : Prop :=
  ContextRegister descriptor = kOffHeapTrampolineRegister cfg ∨
  kOffHeapTrampolineRegister cfg ∈ RegisterParameters descriptor.

(** The kinds for which [BuiltinAliasesOffHeapTrampolineRegister] answers
    [false] without looking at a descriptor. *)
Definition skipped_kind (k : Kind) : Prop := k = BCH ∨ k = ASM.

(** The lines the first loop prints for builtin [i]. *)
Definition unit_report (cfg : Config) (isolate : Isolate) (i : nat)
  : list string :=
  let code := builtin (builtins isolate) i in
  (if IsIsolateIndependent code then []
   else [not_isolate_independent_line (name (builtins isolate) i)])
  ++ (if BuiltinAliasesOffHeapTrampolineRegister cfg isolate code
      then [aliases_line (name (builtins isolate) i)] else []).

(** Two blobs at the same addresses, with the same metadata and code buffers
    of the same size. *)
Definition same_frame (blob blob' : EmbeddedData) : Prop :=
  code_ blob' = code_ blob ∧ metadata_ blob' = metadata_ blob ∧
  metadata_bytes blob' = metadata_bytes blob ∧
  length (code_bytes blob') = length (code_bytes blob).

(** The size of the code buffer, as [FromIsolate] computes it. *)
Definition blob_code_size (cfg : Config) (isolate : Isolate) (w : World)
  : nat :=
  Z.to_nat (wrap32 (Z.of_nat (RawCodeOffset cfg)
                    + raw_code_size (layout_loop cfg isolate (stderr w)))).

(** The size of the metadata buffer. *)
Definition blob_metadata_size (cfg : Config) (isolate : Isolate) : nat :=
  Z.to_nat (wrap32 (Z.of_nat (MetadataTableOffset cfg)
                    + Z.of_nat (MetadataTableSize (builtin_count (builtins isolate))))).

(** The world after the two allocations. *)
Definition world_after_new (cfg : Config) (isolate : Isolate)
    (w : World) (d : EmbeddedData) : World :=
  with_new_arrays (insert (metadata_ d) (blob_metadata_size cfg isolate))
    (with_new_arrays (insert (code_ d) (blob_code_size cfg isolate w))
       (with_stderr (printed (layout_loop cfg isolate (stderr w))) w)).

(** The address at which unit [i] starts when nothing wraps; for [i] the
    number of builtins, the end of the code region. *)
Definition unit_start (cfg : Config) (isolate : Isolate) (d : EmbeddedData)
    (i : nat) : Z :=
  code_ d + Z.of_nat (RawCodeOffset cfg) + padded_total cfg isolate i.

(** A patch: an offset in the code buffer and the bytes written there. *)
Definition Patch : Type := nat * list byte.

(** The patches written one after the other, each a bounds-checked copy. *)
Fixpoint apply_patches (ps : list Patch) (buffer : list byte)
  : option (list byte) :=
  match ps with
  | [] => Some buffer
  | (off, bytes) :: ps' =>
      match memcpy buffer off bytes with
      | Some buffer' => apply_patches ps' buffer'
      | None => None
      end
  end.

(** The byte the patches leave at position [k], when one of them covers it. *)
Fixpoint patched (ps : list Patch) (k : nat) : option byte :=
  match ps with
  | [] => None
  | (off, bytes) :: ps' =>
      match patched ps' k with
      | Some v => Some v
      | None =>
          if decide (off ≤ k < off + length bytes)%nat
          then bytes !! (k - off)%nat else None
      end
  end.

(** Two patches that write to separate ranges of the buffer. *)
Definition disjoint_patches (p q : Patch) : Prop :=
  (p.1 + length p.2 ≤ q.1)%nat ∨ (q.1 + length q.2 ≤ p.1)%nat.

(** No two patches of the list overlap. *)
Definition pairwise_disjoint (ps : list Patch) : Prop :=
  ∀ i j p q, i ≠ j → ps !! i = Some p → ps !! j = Some q → disjoint_patches p q.

(** The records of a code object that the mask of the fixer selects. *)
Definition code_target_entries (code : Code) : list RelocEntry :=
  filter (fun e => mode_in_mask kRelocMask (entry_rmode e) = true)
    (relocation_info code).

(** The patch for one record of the copy that starts at [start]: the slot of
    the record, and the encoding of the instruction start, in the blob, of the
    builtin the on-heap record points to. *)
Definition patch_of (cfg : Config) (isolate : Isolate) (blob : EmbeddedData)
    (start : Z) (e : RelocEntry) : option Patch :=
  let target := GetCodeFromTargetAddress isolate (entry_target_address e) in
  match InstructionStartOfBuiltin cfg blob (builtin_index target) with
  | Some target_start =>
      let pc := start + Z.of_nat (entry_pc_offset e) in
      if decide (0 ≤ pc - code_ blob)
      then Some (Z.to_nat (pc - code_ blob),
                 set_target_address_at cfg (entry_rmode e) pc target_start)
      else None
  | None => None
  end.

(** The patches for the selected records of one unit, in iteration order. *)
Fixpoint entry_patches (cfg : Config) (isolate : Isolate) (blob : EmbeddedData)
    (start : Z) (entries : list RelocEntry) : option (list Patch) :=
  match entries with
  | [] => Some []
  | e :: entries' =>
      match patch_of cfg isolate blob start e,
            entry_patches cfg isolate blob start entries' with
      | Some p, Some ps => Some (p :: ps)
      | _, _ => None
      end
  end.

(** The patches of unit [i]: its copy starts where the blob's metadata says. *)
Definition unit_patches (cfg : Config) (isolate : Isolate) (blob : EmbeddedData)
    (i : nat) : option (list Patch) :=
  let code := builtin (builtins isolate) i in
  match InstructionStartOfBuiltin cfg blob (builtin_index code) with
  | Some start => entry_patches cfg isolate blob start (code_target_entries code)
  | None => None
  end.

(** The patches of the units [lo], ..., [lo + n - 1], in the order of the
    fixer. *)
Fixpoint patches_from (cfg : Config) (isolate : Isolate) (blob : EmbeddedData)
    (lo n : nat) : option (list Patch) :=
  match n with
  | O => Some []
  | S n' =>
      match unit_patches cfg isolate blob lo,
            patches_from cfg isolate blob (S lo) n' with
      | Some ps, Some rest => Some (ps ++ rest)
      | _, _ => None
      end
  end.

(** The patches of the whole fixer run. *)
Definition all_patches (cfg : Config) (isolate : Isolate) (blob : EmbeddedData)
  : option (list Patch) :=
  patches_from cfg isolate blob 0 (builtin_count (builtins isolate)).

(** Every code target of the units [lo], ..., [lo + n - 1] resolves to a
    builtin that passes [IsIsolateIndependentBuiltin]. *)
Definition targets_relocatable (cfg : Config) (isolate : Isolate) (lo n : nat)
  : Prop :=
  ∀ i e, (lo ≤ i < lo + n)%nat →
    e ∈ code_target_entries (builtin (builtins isolate) i) →
    IsIsolateIndependentBuiltin cfg
      (GetCodeFromTargetAddress isolate (entry_target_address e)) = true.

(** The metadata table of the blob has an entry for every builtin. *)
Definition table_covers (cfg : Config) (isolate : Isolate) (blob : EmbeddedData)
  : Prop :=
  ∀ i, (i < builtin_count (builtins isolate))%nat →
    is_Some (InstructionStartOfBuiltin cfg blob
               (builtin_index (builtin (builtins isolate) i))).

(** The blob of the scenario, as built. *)
Definition scenario_blob : EmbeddedData :=
  match FromIsolate example_cfg example_os scenario_isolate empty_world with
  | Ok d _ => d
  | _ => {| code_ := 0; code_bytes := []; metadata_ := 0; metadata_bytes := [] |}
  end.

(** The blob of the scenario with a code buffer of trap bytes only. *)
Definition zapped_scenario_blob : EmbeddedData :=
  with_code_bytes (ZapCode example_cfg 80) scenario_blob.

(** The platform never answers an address at which a region is held. *)
Definition allocates_fresh (os : Platform) : Prop :=
  ∀ regions hint size alignment access a,
    allocate_pages os regions hint size alignment access = Some a →
    regions !! a = None.

(** [new] never answers the address of a live array. *)
Definition new_returns_fresh (os : Platform) : Prop :=
  ∀ live n a, operator_new os live n = Some a → live !! a = None.

(** The region [AllocatePages] hands out. *)
Definition fresh_region (size : Z) : Region :=
  {| region_size := size; region_permission := kReadWrite;
     region_bytes := replicate (Z.to_nat size) 0 |}.

(** The region after the bytes were copied in and the permission was set. *)
Definition hosted_region (size : Z) (access : Permission) (bytes : list byte)
  : Region :=
  {| region_size := size; region_permission := access;
     region_bytes := bytes ++ replicate (Z.to_nat size - length bytes) 0 |}.

(** The page size as the two functions read it. *)
Definition page_size (cfg : Config) : Z := wrap32 (AllocatePageSize cfg).

(** The address requested by the allocation that follows [calls] calls of
    [GetRandomMmapAddr]. *)
Definition requested_address (cfg : Config) (calls : nat) : Z :=
  AlignedAddress cfg (GetRandomMmapAddr cfg calls) (page_size cfg).

(** The calls [CreateOffHeapInstructionStream] makes to the page allocator. *)
Definition create_calls (cfg : Config) (calls : nat)
    (code code_size metadata metadata_size : Z) : list PageCall :=
  [ CallAllocatePages (requested_address cfg calls)
      (RoundUp code_size (page_size cfg)) (page_size cfg) kReadWrite;
    CallAllocatePages (requested_address cfg (S calls))
      (RoundUp metadata_size (page_size cfg)) (page_size cfg) kReadWrite;
    CallSetPermissions code (RoundUp code_size (page_size cfg)) kReadExecute;
    CallSetPermissions metadata (RoundUp metadata_size (page_size cfg)) kRead ].

(** The calls [FreeOffHeapInstructionStream] makes to the page allocator. *)
Definition free_calls (cfg : Config)
    (code code_size metadata metadata_size : Z) : list PageCall :=
  [ CallFreePages code (RoundUp code_size (page_size cfg));
    CallFreePages metadata (RoundUp metadata_size (page_size cfg)) ].

(** ** Definitions used to state the further properties *)

(** The blob at another address: the same bytes, both buffers moved. *)
Definition rehosted (code metadata : Z) (d : EmbeddedData) : EmbeddedData :=
  {| code_ := code; code_bytes := code_bytes d;
     metadata_ := metadata; metadata_bytes := metadata_bytes d |}.

(** An isolate whose recorded code size exceeds the code buffer of the blob
    by [extra] bytes. *)
Definition running_past (extra : Z) (d : EmbeddedData) (isolate : Isolate)
  : Isolate :=
  {| builtins := builtins isolate;
     HashIsolateForEmbeddedBlob := HashIsolateForEmbeddedBlob isolate;
     GetCodeFromTargetAddress := GetCodeFromTargetAddress isolate;
     embedded_blob_code := code_ d;
     embedded_blob_code_size := code_size d + extra |}.

(** The table the first loop of [FromIsolate] computes: for every builtin the
    running total before its round and its length. *)
Definition layout_table (cfg : Config) (isolate : Isolate) : list Metadata :=
  (fun i => {| instructions_offset := raw_size_after cfg isolate i;
               instructions_length := unit_length isolate i |})
    <$> seq 0 (builtin_count (builtins isolate)).

(** The slot of the code target [e] of builtin [i] in the code buffer of the
    blob, with the bytes the fixer writes there. *)
Definition code_target_slot (cfg : Config) (isolate : Isolate)
    (blob : EmbeddedData) (i : nat) (e : RelocEntry) : option Patch :=
  start ← InstructionStartOfBuiltin cfg blob
             (builtin_index (builtin (builtins isolate) i));
  patch_of cfg isolate blob start e.

(** Position [p] of the code buffer lies in the slot of a code target of one
    of the builtins. *)
Definition in_code_target_slot (cfg : Config) (isolate : Isolate)
    (blob : EmbeddedData) (p : nat) : Prop :=
  ∃ i e patch,
    (i < builtin_count (builtins isolate))%nat ∧
    e ∈ code_target_entries (builtin (builtins isolate) i) ∧
    code_target_slot cfg isolate blob i e = Some patch ∧
    (patch.1 ≤ p < patch.1 + length patch.2)%nat.

(** The position in the code buffer at which the second loop of
    [FromIsolate] stores builtin [i]. *)
Definition unit_position (cfg : Config) (isolate : Isolate) (i : nat) : nat :=
  (RawCodeOffset cfg + Z.to_nat (raw_size_after cfg isolate i))%nat.

(** Position [p] of the code buffer lies in the instructions of builtin
    [i]. *)
Definition in_unit (cfg : Config) (isolate : Isolate) (i p : nat) : Prop :=
  (unit_position cfg isolate i ≤ p
   < unit_position cfg isolate i
     + length (instructions (builtin (builtins isolate) i)))%nat.

(** [raw_instruction_size()] returns an [int]. *)
Definition sizes_are_ints (isolate : Isolate) : Prop :=
  ∀ i, (i < builtin_count (builtins isolate))%nat →
    raw_instruction_size (builtin (builtins isolate) i) < 2 ^ 31.

(** What the fixer needs of the code targets. On a target with direct code
    targets: every code target of a builtin points to an isolate-independent
    builtin of the table, and its slot lies in the instructions of the
    builtin, whatever is encoded in it. On the other targets: no builtin has
    a code target. *)
Definition code_targets_fit (cfg : Config) (isolate : Isolate) : Prop :=
  if direct_code_targets cfg then
    ∀ i e, (i < builtin_count (builtins isolate))%nat →
      e ∈ code_target_entries (builtin (builtins isolate) i) →
      let target := GetCodeFromTargetAddress isolate (entry_target_address e) in
      IsIsolateIndependentBuiltin cfg target = true ∧
      0 ≤ builtin_index target < Z.of_nat (builtin_count (builtins isolate)) ∧
      ∀ pc start,
        (entry_pc_offset e
         + length (set_target_address_at cfg (entry_rmode e) pc start)
         ≤ length (instructions (builtin (builtins isolate) i)))%nat
  else
    ∀ i, (i < builtin_count (builtins isolate))%nat →
      code_target_entries (builtin (builtins isolate) i) = [].

(** Every builtin passes the two checks of the first loop. *)
Definition builtins_are_safe (cfg : Config) (isolate : Isolate) : Prop :=
  ∀ i, (i < builtin_count (builtins isolate))%nat →
    IsIsolateIndependent (builtin (builtins isolate) i) = true ∧
    BuiltinAliasesOffHeapTrampolineRegister cfg isolate
      (builtin (builtins isolate) i) = false.

(** The builtin at index [i] of the table has the builtin index [i]. *)
Definition builtins_are_indexed (isolate : Isolate) : Prop :=
  ∀ i, (i < builtin_count (builtins isolate))%nat →
    builtin_index (builtin (builtins isolate) i) = Z.of_nat i.

(** The instruction sizes of the first [n] builtins, summed. *)
Fixpoint instructions_total (isolate : Isolate) (n : nat) : Z :=
  match n with
  | O => 0
  | S n' => instructions_total isolate n' + unit_length isolate n'
  end.

(** The four indexes are the count times 1/2, 3/4, 9/10 and 99/100, rounded
    down. *)
Definition percentile_indexes_round_down (n : Z) : bool :=
  bool_decide (percentile_index n (double_literal 5 10) = Some (n / 2)) &&
  bool_decide (percentile_index n (double_literal 75 100) = Some (3 * n / 4)) &&
  bool_decide (percentile_index n (double_literal 90 100) = Some (9 * n / 10)) &&
  bool_decide (percentile_index n (double_literal 99 100)
               = Some (99 * n / 100)).

Fixpoint all_upto (check : Z → bool) (n : nat) : bool :=
  match n with
  | O => check 0
  | S n' => check (Z.of_nat n) && all_upto check n'
  end.

(** The builtin counts for which the indexes were computed. *)
Definition kMaxCheckedCount : nat := 4096.

(** What the loop of [PrintStatistics] reads for the first [n] builtins:
    their instruction sizes as [int]s. *)
Definition int_sizes (cfg : Config) (d : EmbeddedData) (n : nat)
  : list (option Z) :=
  (fun i => static_cast_int <$> InstructionSizeOfBuiltin cfg d (Z.of_nat i))
    <$> seq 0 n.

Definition int_sum (l : list Z) : Z := foldr Z.add 0 l.

(** * Properties *)

(** ** Loops *)

Lemma for_loop_snoc {S : Type} (body : nat → S → S) (n lo : nat) (s : S) :
  for_loop body lo (Datatypes.S n) s = body (lo + n)%nat (for_loop body lo n s).
Proof.
  revert lo s. induction n as [|n IH]; intros lo s.
  - simpl. by rewrite Nat.add_0_r.
  - change (for_loop body lo (Datatypes.S (Datatypes.S n)) s)
      with (for_loop body (Datatypes.S lo) (Datatypes.S n) (body lo s)).
    rewrite IH. simpl. by rewrite Nat.add_succ_r.
Qed.

(** ** Machine integers *)

Lemma wrap32_range z : 0 ≤ wrap32 z < 2 ^ 32.
Proof. unfold wrap32. apply Z.mod_pos_bound. lia. Qed.

Lemma wrap32_small z : 0 ≤ z < 2 ^ 32 → wrap32 z = z.
Proof. intros H. unfold wrap32. by apply Z.mod_small. Qed.

Lemma unit_length_range isolate i : 0 ≤ unit_length isolate i < 2 ^ 32.
Proof. apply wrap32_range. Qed.

(** ** The first loop of FromIsolate *)

Section Layout.
Context (cfg : Config) (isolate : Isolate).

Let N := builtin_count (builtins isolate).

Lemma layout_loop_upto printed0 :
  layout_loop cfg isolate printed0 = layout_upto cfg isolate printed0 N.
Proof. reflexivity. Qed.

Lemma layout_upto_S printed0 n :
  layout_upto cfg isolate printed0 (S n)
  = layout_step cfg isolate n (layout_upto cfg isolate printed0 n).
Proof. unfold layout_upto. by rewrite for_loop_snoc. Qed.

Lemma layout_step_raw_code_size i s :
  raw_code_size (layout_step cfg isolate i s)
  = wrap32 (raw_code_size s + PadAndAlign cfg (unit_length isolate i)).
Proof.
  unfold layout_step, unit_length.
  destruct (negb _), (BuiltinAliasesOffHeapTrampolineRegister _ _ _);
    reflexivity.
Qed.

Lemma layout_step_metadata i s :
  metadata (layout_step cfg isolate i s)
  = <[i := {| instructions_offset := raw_code_size s;
              instructions_length := unit_length isolate i |}]> (metadata s).
Proof.
  unfold layout_step, unit_length.
  destruct (negb _), (BuiltinAliasesOffHeapTrampolineRegister _ _ _);
    reflexivity.
Qed.

Lemma raw_code_size_upto printed0 n :
  raw_code_size (layout_upto cfg isolate printed0 n) = raw_size_after cfg isolate n.
Proof.
  induction n as [|n IH]; [reflexivity|].
  rewrite layout_upto_S, layout_step_raw_code_size, IH. reflexivity.
Qed.

Lemma length_metadata_upto printed0 n :
  length (metadata (layout_upto cfg isolate printed0 n)) = N.
Proof.
  induction n as [|n IH].
  - apply length_replicate.
  - by rewrite layout_upto_S, layout_step_metadata, length_insert.
Qed.

Lemma metadata_upto_lookup printed0 n i :
  (i < n)%nat → (n ≤ N)%nat →
  metadata (layout_upto cfg isolate printed0 n) !! i
  = Some {| instructions_offset := raw_size_after cfg isolate i;
            instructions_length := unit_length isolate i |}.
Proof.
  induction n as [|n IH]; intros Hi Hn; [lia|].
  rewrite layout_upto_S, layout_step_metadata.
  destruct (decide (i = n)) as [->|Hne].
  - rewrite list_lookup_insert_eq by (rewrite length_metadata_upto; lia).
    by rewrite raw_code_size_upto.
  - rewrite list_lookup_insert_ne by done. apply IH; lia.
Qed.

(** The table after the loop, entry by entry. *)
Lemma metadata_layout_loop printed0 :
  metadata (layout_loop cfg isolate printed0)
  = (fun i => {| instructions_offset := raw_size_after cfg isolate i;
                 instructions_length := unit_length isolate i |})
      <$> seq 0 N.
Proof.
  apply list_eq. intros i. rewrite layout_loop_upto, list_lookup_fmap.
  destruct (decide (i < N)%nat) as [Hi|Hi].
  - rewrite metadata_upto_lookup by lia.
    by rewrite lookup_seq_lt by done.
  - rewrite lookup_seq_ge by lia.
    apply lookup_ge_None. rewrite length_metadata_upto. lia.
Qed.

Lemma raw_code_size_layout_loop printed0 :
  raw_code_size (layout_loop cfg isolate printed0) = raw_size_after cfg isolate N.
Proof. rewrite layout_loop_upto. apply raw_code_size_upto. Qed.

(** Without overflow the running total is the sum of the padded lengths. *)
Lemma padded_step_nonneg i :
  pads_units cfg isolate → (i < N)%nat →
  0 ≤ PadAndAlign cfg (unit_length isolate i).
Proof.
  intros Hpad Hi. pose proof (Hpad i Hi) as [? _].
  pose proof (unit_length_range isolate i). lia.
Qed.

Lemma padded_total_mono n m :
  pads_units cfg isolate → (n ≤ m)%nat → (m ≤ N)%nat →
  0 ≤ padded_total cfg isolate n ≤ padded_total cfg isolate m.
Proof.
  intros Hpad Hnm Hm.
  assert (∀ k, (k ≤ N)%nat → 0 ≤ padded_total cfg isolate k) as Hpos.
  { induction k as [|k IH]; intros Hk; [simpl; lia|].
    simpl. pose proof (padded_step_nonneg k Hpad ltac:(lia)).
    specialize (IH ltac:(lia)). lia. }
  split; [apply Hpos; lia|].
  induction Hnm as [|m Hnm IH]; [lia|].
  simpl. pose proof (padded_step_nonneg m Hpad ltac:(lia)).
  specialize (IH ltac:(lia)). lia.
Qed.

Lemma raw_size_after_no_overflow n :
  pads_units cfg isolate → fits_uint32 cfg isolate → (n ≤ N)%nat →
  raw_size_after cfg isolate n = padded_total cfg isolate n.
Proof.
  intros Hpad Hfit Hn. induction n as [|n IH]; [reflexivity|].
  simpl. rewrite IH by lia. apply wrap32_small.
  pose proof (padded_total_mono (S n) N Hpad Hn ltac:(lia)) as Hm.
  simpl in Hm. unfold fits_uint32 in Hfit. fold N in Hfit. lia.
Qed.
End Layout.

Lemma raw_size_after_ext cfg isolate isolate' n :
  (∀ i, (i < n)%nat → unit_length isolate' i = unit_length isolate i) →
  raw_size_after cfg isolate' n = raw_size_after cfg isolate n.
Proof.
  induction n as [|n IH]; intros Hlen; [reflexivity|].
  simpl. rewrite IH by (intros; apply Hlen; lia).
  by rewrite Hlen by lia.
Qed.

Lemma padded_total_aligned cfg isolate n :
  pads_units cfg isolate → (n ≤ builtin_count (builtins isolate))%nat →
  (kCodeAlignment cfg | padded_total cfg isolate n).
Proof.
  intros Hpad. induction n as [|n IH]; intros Hn.
  - apply Z.divide_0_r.
  - simpl. apply Z.divide_add_r; [apply IH; lia|].
    apply (Hpad n). lia.
Qed.

(** In the scenario the third unit cannot start before offset 53, whatever
    [PadAndAlign] computes, as long as it covers the lengths and aligns. *)
Lemma scenario_third_offset_at_least_53 cfg isolate printed0 m :
  pads_units cfg isolate → fits_uint32 cfg isolate →
  kCodeAlignment cfg = 16 →
  builtin_count (builtins isolate) = 3%nat →
  unit_length isolate 0 = 10 → unit_length isolate 1 = 37 →
  metadata (layout_loop cfg isolate printed0) !! 2%nat = Some m →
  53 ≤ instructions_offset m.
Proof.
  intros Hpad Hfit Halign HN H0 H1 Hm.
  rewrite layout_loop_upto, metadata_upto_lookup in Hm by lia.
  rewrite raw_size_after_no_overflow in Hm by (try done; lia).
  injection Hm as <-. cbn [instructions_offset padded_total]. rewrite H0, H1.
  pose proof (Hpad 0%nat ltac:(lia)) as [? [k Hk]].
  pose proof (Hpad 1%nat ltac:(lia)) as [? _].
  rewrite Halign in *. rewrite H0 in *. rewrite H1 in *. lia.
Qed.

(** C3, as amended. The table the first loop of [FromIsolate] computes
    depends only on the lengths of the builtins and on the configuration.
    When [PadAndAlign] covers every length and yields multiples of the code
    alignment, and the code region fits 32 bits: the table has one entry for
    each builtin, the entry holds the length of the builtin, every offset is a
    multiple of the code alignment, a unit ends at or before the offset of the
    next one, and the total is the offset of the last unit plus its padded
    length. For lengths 10, 37 and 4 and alignment 16 (padding of at most 16
    bytes) the offsets are 0, 16 and 64 and the total is 80. *)
Theorem layout_calculator_offsets
    (cfg : Config) (isolate : Isolate) (printed0 : list string) :
  pads_units cfg isolate → fits_uint32 cfg isolate →
  let s := layout_loop cfg isolate printed0 in
  let N := builtin_count (builtins isolate) in
  (∀ isolate' printed0',
     builtin_count (builtins isolate') = N →
     (∀ i, (i < N)%nat → unit_length isolate' i = unit_length isolate i) →
     metadata (layout_loop cfg isolate' printed0') = metadata s ∧
     raw_code_size (layout_loop cfg isolate' printed0') = raw_code_size s) ∧
  length (metadata s) = N ∧
  (∀ i m, metadata s !! i = Some m →
     instructions_length m = unit_length isolate i ∧
     (kCodeAlignment cfg | instructions_offset m) ∧
     (∀ m', metadata s !! S i = Some m' →
        instructions_offset m + instructions_length m ≤ instructions_offset m') ∧
     (S i = N →
        instructions_offset m + PadAndAlign cfg (instructions_length m)
        = raw_code_size s)) ∧
  (kCodeAlignment cfg = 16 → N = 3%nat →
   unit_length isolate 0 = 10 → unit_length isolate 1 = 37 →
   unit_length isolate 2 = 4 →
   (∀ i, (i < 3)%nat →
      PadAndAlign cfg (unit_length isolate i) ≤ unit_length isolate i + 16) →
   metadata s
   = [ {| instructions_offset := 0; instructions_length := 10 |};
       {| instructions_offset := 16; instructions_length := 37 |};
       {| instructions_offset := 64; instructions_length := 4 |} ] ∧
   raw_code_size s = 80).
Proof.
  intros Hpad Hfit s N. subst s.
  assert (∀ i m, metadata (layout_loop cfg isolate printed0) !! i = Some m →
            (i < N)%nat ∧
            m = {| instructions_offset := padded_total cfg isolate i;
                   instructions_length := unit_length isolate i |}) as Hentry.
  { intros i m Hm.
    assert (i < N)%nat as Hi.
    { apply lookup_lt_Some in Hm.
      by rewrite layout_loop_upto, length_metadata_upto in Hm. }
    split; [done|].
    rewrite layout_loop_upto, metadata_upto_lookup in Hm by (fold N; lia).
    rewrite raw_size_after_no_overflow in Hm by (try done; fold N; lia).
    congruence. }
  split; [|split; [|split]].
  - intros isolate' printed0' HN Hlen.
    rewrite !metadata_layout_loop, !raw_code_size_layout_loop, HN. fold N.
    split; [|by apply raw_size_after_ext].
    apply list_eq. intros i. rewrite !list_lookup_fmap.
    destruct (seq 0 N !! i) as [j|] eqn:Hj; [|done].
    apply lookup_seq in Hj as [-> Hi]. simpl.
    rewrite Hlen by lia.
    by rewrite (raw_size_after_ext cfg isolate isolate')
      by (intros; apply Hlen; lia).
  - by rewrite layout_loop_upto, length_metadata_upto.
  - intros i m Hm. destruct (Hentry i m Hm) as [Hi ->]. simpl.
    split; [done|]. split; [apply padded_total_aligned; [done|fold N; lia]|].
    split.
    + intros m' Hm'. destruct (Hentry (S i) m' Hm') as [HSi ->]. simpl.
      pose proof (Hpad i Hi) as [? _]. lia.
    + intros HSi. rewrite raw_code_size_layout_loop. fold N. rewrite <- HSi.
      rewrite raw_size_after_no_overflow by (try done; fold N; lia).
      reflexivity.
  - intros Halign HN H0 H1 H2 Hle.
    assert (PadAndAlign cfg 10 = 16 ∧ PadAndAlign cfg 37 = 48
            ∧ PadAndAlign cfg 4 = 16) as (P0 & P1 & P2).
    { pose proof (Hpad 0%nat ltac:(fold N; lia)) as [G0 [k0 D0]].
      pose proof (Hpad 1%nat ltac:(fold N; lia)) as [G1 [k1 D1]].
      pose proof (Hpad 2%nat ltac:(fold N; lia)) as [G2 [k2 D2]].
      pose proof (Hle 0%nat ltac:(lia)) as L0.
      pose proof (Hle 1%nat ltac:(lia)) as L1.
      pose proof (Hle 2%nat ltac:(lia)) as L2.
      rewrite Halign in *. rewrite H0 in *. rewrite H1 in *. rewrite H2 in *.
      lia. }
    assert (raw_size_after cfg isolate 1 = 16) as R1.
    { rewrite raw_size_after_no_overflow by (try done; fold N; lia).
      simpl. rewrite H0, P0. done. }
    assert (raw_size_after cfg isolate 2 = 64) as R2.
    { rewrite raw_size_after_no_overflow by (try done; fold N; lia).
      simpl. rewrite H0, H1, P0, P1. done. }
    assert (raw_size_after cfg isolate 3 = 80) as R3.
    { rewrite raw_size_after_no_overflow by (try done; fold N; lia).
      simpl. rewrite H0, H1, H2, P0, P1, P2. done. }
    rewrite metadata_layout_loop, raw_code_size_layout_loop. fold N.
    rewrite HN. change (seq 0 3) with [0; 1; 2]%nat.
    cbn [fmap list_fmap]. rewrite R1, R2, R3, H0, H1, H2. done.
Qed.

Lemma example_pads_scenario : pads_units example_cfg scenario_isolate.
Proof.
  intros i Hi. simpl in Hi.
  destruct i as [|[|[|i]]]; [| | |lia]; vm_compute;
    (split; [discriminate|]).
  - by exists 1.
  - by exists 3.
  - by exists 1.
Defined.

Lemma example_fits_scenario : fits_uint32 example_cfg scenario_isolate.
Proof. vm_compute. reflexivity. Defined.

Lemma layout_calculator_offsets_witness :
  pads_units example_cfg scenario_isolate ∧
  fits_uint32 example_cfg scenario_isolate ∧
  instructions_offset <$> metadata (layout_loop example_cfg scenario_isolate [])
  = [0; 16; 64].
Proof.
  split; [exact example_pads_scenario|].
  split; [exact example_fits_scenario|].
  destruct (layout_calculator_offsets example_cfg scenario_isolate []
              example_pads_scenario example_fits_scenario)
    as (_ & _ & _ & Hscenario).
  destruct Hscenario as [-> _]; try reflexivity.
  intros i Hi. destruct i as [|[|[|i]]]; [| | |lia]; vm_compute; discriminate.
Defined.

(** C3, as stated, fails: in the scenario the offsets are 0, 16 and 64 and
    the padded total is 80, not 0, 16, 48 and 64. *)
Lemma scenario_offsets_are_0_16_64 :
  let s := layout_loop example_cfg scenario_isolate [] in
  instructions_length <$> metadata s = [10; 37; 4] ∧
  instructions_offset <$> metadata s = [0; 16; 64] ∧
  raw_code_size s = 80 ∧
  ¬ (instructions_offset <$> metadata s = [0; 16; 48] ∧ raw_code_size s = 64).
Proof. vm_compute. repeat split; try reflexivity. intros [? _]. discriminate. Qed.

(** ** The safety checks *)

Lemma string_length_append (a b : string) :
  String.length (a ++ b) = (String.length a + String.length b)%nat.
Proof. induction a as [|c a IH]; simpl; [done|by rewrite IH]. Qed.

Lemma any_register_parameter_is_spec k regs :
  any_register_parameter_is k regs = true ↔ k ∈ regs.
Proof.
  induction regs as [|reg regs IH]; simpl.
  - split; [discriminate|]. by intros ?%not_elem_of_nil.
  - case_bool_decide as Hreg.
    + subst. split; [intros _; apply list_elem_of_here|done].
    + rewrite IH. split; [apply list_elem_of_further|].
      intros [?|?]%elem_of_cons; [congruence|done].
Qed.

Lemma BuiltinAliasesOffHeapTrampolineRegister_spec cfg isolate code :
  BuiltinAliasesOffHeapTrampolineRegister cfg isolate code = true ↔
  ¬ skipped_kind (KindOf (builtins isolate) (builtin_index code)) ∧
  uses_trampoline_register cfg
    (CallableFor (builtins isolate) (builtin_index code)).
Proof.
  unfold BuiltinAliasesOffHeapTrampolineRegister, skipped_kind,
    uses_trampoline_register.
  destruct (KindOf _ _);
    try (split; [discriminate|intros [Hk _]; exfalso; apply Hk; auto]);
    (case_bool_decide as Hctx;
     [split; [intros _; split; [intros [?|?]; discriminate|by left]|done]
     |rewrite any_register_parameter_is_spec;
      split; [intros ?; split; [intros [?|?]; discriminate|by right]
             |intros [_ [?|?]]; [done|done]]]).
Qed.

Section Validator.
Context (cfg : Config) (isolate : Isolate).

Lemma layout_step_printed i s :
  printed (layout_step cfg isolate i s)
  = printed s ++ unit_report cfg isolate i.
Proof.
  unfold layout_step, unit_report.
  destruct (IsIsolateIndependent _),
    (BuiltinAliasesOffHeapTrampolineRegister _ _ _); simpl;
    rewrite ?app_nil_r, <- ?app_assoc; reflexivity.
Qed.

Lemma layout_step_saw_unsafe_builtin i s :
  saw_unsafe_builtin (layout_step cfg isolate i s)
  = saw_unsafe_builtin s
    || negb (IsIsolateIndependent (builtin (builtins isolate) i))
    || BuiltinAliasesOffHeapTrampolineRegister cfg isolate
         (builtin (builtins isolate) i).
Proof.
  unfold layout_step.
  destruct (IsIsolateIndependent _),
    (BuiltinAliasesOffHeapTrampolineRegister _ _ _); simpl;
    destruct (saw_unsafe_builtin s); reflexivity.
Qed.

Lemma printed_upto printed0 n :
  printed (layout_upto cfg isolate printed0 n)
  = printed0 ++ mbind (unit_report cfg isolate) (seq 0 n).
Proof.
  induction n as [|n IH]; [simpl; by rewrite app_nil_r|].
  rewrite layout_upto_S, layout_step_printed, IH, seq_S, bind_app.
  simpl. by rewrite app_nil_r, app_assoc.
Qed.

Lemma saw_unsafe_builtin_upto printed0 n :
  saw_unsafe_builtin (layout_upto cfg isolate printed0 n) = true ↔
  ∃ i, (i < n)%nat ∧
    (IsIsolateIndependent (builtin (builtins isolate) i) = false ∨
     BuiltinAliasesOffHeapTrampolineRegister cfg isolate
       (builtin (builtins isolate) i) = true).
Proof.
  induction n as [|n IH].
  - split; [discriminate|]. intros (i & ? & _). lia.
  - rewrite layout_upto_S, layout_step_saw_unsafe_builtin.
    rewrite !orb_true_iff, IH, negb_true_iff. split.
    + intros [[(i & Hi & H)|H]|H];
        [exists i; split; [lia|done] | exists n; split; [lia|by left]
        | exists n; split; [lia|by right]].
    + intros (i & Hi & H). destruct (decide (i = n)) as [->|Hne].
      * destruct H; [left; by right|by right].
      * left; left. exists i. split; [lia|done].
Qed.

Lemma unit_report_in_printed printed0 n i line :
  (i < n)%nat → line ∈ unit_report cfg isolate i →
  line ∈ printed (layout_upto cfg isolate printed0 n).
Proof.
  intros Hi Hline. rewrite printed_upto, elem_of_app. right.
  apply list_elem_of_bind. exists i. split; [done|].
  apply elem_of_seq. lia.
Qed.
End Validator.

Lemma FromIsolate_unsafe cfg os isolate w :
  saw_unsafe_builtin (layout_loop cfg isolate (stderr w)) = true →
  FromIsolate cfg os isolate w
  = Fatal unsafe_builtin_message
      (with_stderr (printed (layout_loop cfg isolate (stderr w))) w).
Proof.
  intros Hsaw. unfold FromIsolate, bind, CHECK. by rewrite Hsaw.
Qed.

(** C1, as amended. If a builtin is not isolate-independent, or is of a kind
    other than BCH and ASM and its descriptor names the off-heap trampoline
    register as its context register or as a register parameter, then
    [FromIsolate] ends in the fatal failure of the check of line 236 and
    returns no blob: no buffer has been allocated, and stderr holds, after
    what it held, the lines of all builtins in index order; the line with its
    name for every builtin that is not isolate-independent and for every
    builtin that aliases the register. *)
Theorem FromIsolate_unsafe_builtin_is_fatal
    (cfg : Config) (os : Platform) (isolate : Isolate) (w : World) :
  (∃ i, (i < builtin_count (builtins isolate))%nat ∧
     let code := builtin (builtins isolate) i in
     (IsIsolateIndependent code = false ∨
      (¬ skipped_kind (KindOf (builtins isolate) (builtin_index code)) ∧
       uses_trampoline_register cfg
         (CallableFor (builtins isolate) (builtin_index code))))) →
  ∃ w',
    FromIsolate cfg os isolate w = Fatal unsafe_builtin_message w' ∧
    new_arrays w' = new_arrays w ∧ pages w' = pages w ∧
    stderr w'
    = stderr w ++
      mbind (unit_report cfg isolate) (seq 0 (builtin_count (builtins isolate))) ∧
    (∀ j, (j < builtin_count (builtins isolate))%nat →
       IsIsolateIndependent (builtin (builtins isolate) j) = false →
       not_isolate_independent_line (name (builtins isolate) j) ∈ stderr w') ∧
    (∀ j, (j < builtin_count (builtins isolate))%nat →
       let code := builtin (builtins isolate) j in
       ¬ skipped_kind (KindOf (builtins isolate) (builtin_index code)) →
       uses_trampoline_register cfg
         (CallableFor (builtins isolate) (builtin_index code)) →
       aliases_line (name (builtins isolate) j) ∈ stderr w').
Proof.
  intros (i & Hi & Hunsafe). simpl in Hunsafe.
  rewrite <- BuiltinAliasesOffHeapTrampolineRegister_spec in Hunsafe.
  eexists. split.
  { apply FromIsolate_unsafe. rewrite layout_loop_upto.
    apply saw_unsafe_builtin_upto. eauto. }
  simpl. split; [done|]. split; [done|].
  rewrite layout_loop_upto. split; [apply printed_upto|]. split.
  - intros j Hj Hdep. apply (unit_report_in_printed _ _ _ _ j); [done|].
    unfold unit_report. rewrite Hdep. apply elem_of_app. left.
    apply list_elem_of_here.
  - intros j Hj Hkind Huses.
    apply (unit_report_in_printed _ _ _ _ j); [done|].
    unfold unit_report. apply elem_of_app. right.
    assert (BuiltinAliasesOffHeapTrampolineRegister cfg isolate
              (builtin (builtins isolate) j) = true)
      as Halias by (by apply BuiltinAliasesOffHeapTrampolineRegister_spec).
    rewrite Halias. apply list_elem_of_here.
Qed.

Lemma FromIsolate_unsafe_builtin_is_fatal_witness :
  ∃ w',
    FromIsolate example_cfg example_os two_unsafe_isolate empty_world
    = Fatal unsafe_builtin_message w' ∧
    stderr w'
    = [ not_isolate_independent_line "RecordWrite"; aliases_line "ArrayPush" ].
Proof.
  destruct (FromIsolate_unsafe_builtin_is_fatal example_cfg example_os
              two_unsafe_isolate empty_world) as (w' & Hfatal & _ & _ & Herr & _).
  - exists 0%nat. split; [simpl; lia|]. left. reflexivity.
  - exists w'. split; [exact Hfatal|]. rewrite Herr. reflexivity.
Defined.

(** C1, as stated, fails: builtin 0 of [aliasing_asm_isolate] is of kind ASM,
    its descriptor names the off-heap trampoline register as a register
    parameter, and [FromIsolate] returns a blob. *)
Lemma aliasing_asm_builtin_is_accepted :
  let code := builtin (builtins aliasing_asm_isolate) 0 in
  uses_trampoline_register example_cfg
    (CallableFor (builtins aliasing_asm_isolate) (builtin_index code)) ∧
  KindOf (builtins aliasing_asm_isolate) (builtin_index code) = ASM ∧
  ∃ d w',
    FromIsolate example_cfg example_os aliasing_asm_isolate empty_world
    = Ok d w' ∧ stderr w' = [].
Proof.
  split; [right; vm_compute; apply list_elem_of_further; apply list_elem_of_here|].
  split; [reflexivity|].
  destruct (FromIsolate example_cfg example_os aliasing_asm_isolate empty_world)
    as [d w'| |] eqn:Hrun; [|by vm_compute in Hrun..].
  exists d, w'. split; [reflexivity|].
  vm_compute in Hrun. by injection Hrun as <- <-.
Qed.

(** C2, as amended. For a builtin of kind BCH or ASM the check of the
    trampoline register reports nothing, whatever its descriptor; the check of
    isolate-independence is made all the same: the round of the first loop
    prints nothing for the builtin when it is isolate-independent, and prints
    its line and marks the build unsafe when it is not. *)
Theorem skipped_kinds_skip_the_register_check_only
    (cfg : Config) (isolate : Isolate) (i : nat) (s : LayoutState) :
  let code := builtin (builtins isolate) i in
  skipped_kind (KindOf (builtins isolate) (builtin_index code)) →
  BuiltinAliasesOffHeapTrampolineRegister cfg isolate code = false ∧
  (aliases_line (name (builtins isolate) i) ∉ unit_report cfg isolate i) ∧
  (IsIsolateIndependent code = true →
     printed (layout_step cfg isolate i s) = printed s ∧
     saw_unsafe_builtin (layout_step cfg isolate i s) = saw_unsafe_builtin s) ∧
  (IsIsolateIndependent code = false →
     printed (layout_step cfg isolate i s)
     = printed s ++ [not_isolate_independent_line (name (builtins isolate) i)] ∧
     saw_unsafe_builtin (layout_step cfg isolate i s) = true).
Proof.
  intros code Hkind.
  assert (BuiltinAliasesOffHeapTrampolineRegister cfg isolate code = false)
    as Halias.
  { destruct (BuiltinAliasesOffHeapTrampolineRegister cfg isolate code) eqn:H;
      [|done].
    apply BuiltinAliasesOffHeapTrampolineRegister_spec in H as [H _]. done. }
  split; [done|].
  rewrite layout_step_printed, layout_step_saw_unsafe_builtin.
  unfold unit_report. fold code. rewrite Halias.
  split; [|split].
  - destruct (IsIsolateIndependent code); simpl.
    + apply not_elem_of_nil.
    + intros Hin%list_elem_of_singleton.
      unfold aliases_line, not_isolate_independent_line in Hin.
      apply (f_equal String.length) in Hin.
      rewrite !string_length_append in Hin. simpl in Hin. lia.
  - intros ->. simpl. by rewrite app_nil_r, !orb_false_r.
  - intros ->. simpl. by rewrite orb_true_r.
Qed.

Lemma skipped_kinds_skip_the_register_check_only_witness :
  skipped_kind (KindOf (builtins aliasing_asm_isolate) 0) ∧
  BuiltinAliasesOffHeapTrampolineRegister example_cfg aliasing_asm_isolate
    (builtin (builtins aliasing_asm_isolate) 0) = false.
Proof.
  assert (skipped_kind (KindOf (builtins aliasing_asm_isolate) 0)) as Hkind
    by (right; reflexivity).
  split; [exact Hkind|].
  exact (proj1 (skipped_kinds_skip_the_register_check_only example_cfg
                  aliasing_asm_isolate 0
                  (layout_init aliasing_asm_isolate []) Hkind)).
Defined.

(** C2, as stated, fails: builtin 2 of [context_dependent_handler_isolate] is
    a bytecode handler (kind BCH) that is not isolate-independent; the check
    of isolate-independence reports it and the build fails. *)
Lemma context_dependent_handler_is_reported :
  KindOf (builtins context_dependent_handler_isolate)
    (builtin_index (builtin (builtins context_dependent_handler_isolate) 2))
  = BCH ∧
  FromIsolate example_cfg example_os context_dependent_handler_isolate
    empty_world
  = Fatal unsafe_builtin_message
      (with_stderr [not_isolate_independent_line "LdaZeroHandler"] empty_world).
Proof. split; vm_compute; reflexivity. Qed.

(** ** The monad *)

Lemma bind_Ok {A B} (m : M A) (k : A → M B) w b w' :
  bind m k w = Ok b w' → ∃ a w1, m w = Ok a w1 ∧ k a w1 = Ok b w'.
Proof. unfold bind. destruct (m w) as [a w1| |]; [eauto|done..]. Qed.

Lemma ret_Ok {A} (a b : A) w w' : ret a w = Ok b w' → b = a ∧ w' = w.
Proof. unfold ret. intros [= -> ->]. done. Qed.

Lemma defined_Ok {A} (o : option A) a w w' :
  defined o w = Ok a w' → o = Some a ∧ w' = w.
Proof. unfold defined. destruct o; [intros [= -> ->]; done|done]. Qed.

Lemma CHECK_Ok cond msg u w w' : CHECK cond msg w = Ok u w' → cond = true ∧ w' = w.
Proof. unfold CHECK. destruct cond; [intros [= _ ->]; done|done]. Qed.

Lemma new_uint8_array_Ok os n a w w' :
  new_uint8_array os n w = Ok a w' →
  operator_new os (new_arrays w) n = Some a ∧
  w' = with_new_arrays (insert a n) w.
Proof.
  unfold new_uint8_array. destruct (operator_new _ _ _); [|done].
  intros [= -> ->]. done.
Qed.

(** ** Buffers *)

Lemma memcpy_length dst off src dst' :
  memcpy dst off src = Some dst' → length dst' = length dst.
Proof.
  unfold memcpy. case_decide as Hin; [|done]. intros [= <-].
  rewrite !length_app, length_take, length_drop. lia.
Qed.

Lemma memcpy_bounds dst off src dst' :
  memcpy dst off src = Some dst' → (off + length src ≤ length dst)%nat.
Proof. unfold memcpy. case_decide; [done|done]. Qed.

Lemma memcpy_lookup dst off src dst' (k : nat) :
  memcpy dst off src = Some dst' →
  dst' !! k
  = if decide (off ≤ k < off + length src)%nat then src !! (k - off)%nat
    else dst !! k.
Proof.
  unfold memcpy. case_decide as Hin; [|done]. intros [= <-].
  case_decide as Hk.
  - rewrite lookup_app_r by (rewrite length_take; lia).
    rewrite length_take, lookup_app_l by lia. f_equal. lia.
  - destruct (decide (k < off)%nat).
    + rewrite lookup_app_l by (rewrite length_take; lia).
      by rewrite lookup_take_lt by lia.
    + rewrite lookup_app_r by (rewrite length_take; lia).
      rewrite lookup_app_r by (rewrite length_take; lia).
      rewrite length_take, lookup_drop. f_equal. lia.
Qed.

Lemma memcpy_app a b c off src :
  length a = off → length b = length src →
  memcpy (a ++ b ++ c) off src = Some (a ++ src ++ c).
Proof.
  intros Ha Hb. unfold memcpy.
  rewrite decide_True by (rewrite !length_app; lia).
  f_equal. rewrite take_app_length' by done.
  f_equal. f_equal.
  rewrite app_assoc. apply drop_app_length'. rewrite length_app. lia.
Qed.

Lemma memcpy_app_end a b off src :
  length a = off → length b = length src →
  memcpy (a ++ b) off src = Some (a ++ src).
Proof.
  intros Ha Hb. pose proof (memcpy_app a b [] off src Ha Hb) as H.
  by rewrite !app_nil_r in H.
Qed.

Lemma read_bytes_app_r a b off n :
  read_bytes (a ++ b) (length a + off) n = read_bytes b off n.
Proof.
  unfold read_bytes. rewrite length_app.
  destruct (decide (off + n ≤ length b)%nat).
  - rewrite !decide_True by lia. by rewrite drop_app_add.
  - by rewrite !decide_False by lia.
Qed.

Lemma read_bytes_prefix a b n :
  length a = n → read_bytes (a ++ b) 0 n = Some a.
Proof.
  intros Ha. unfold read_bytes.
  rewrite decide_True by (rewrite length_app; lia).
  change (drop 0 (a ++ b)) with (a ++ b). by rewrite take_app_length'.
Qed.

(** ** Little-endian integers *)

Lemma length_encode_le n z : length (encode_le n z) = n.
Proof. revert z. induction n as [|n IH]; intros z; simpl; [done|by rewrite IH]. Qed.

Lemma decode_encode_le n z :
  decode_le (encode_le n z) = z mod 2 ^ (8 * Z.of_nat n).
Proof.
  revert z. induction n as [|n IH]; intros z.
  - simpl. by rewrite Z.mod_1_r.
  - cbn [encode_le decode_le]. rewrite IH.
    replace (8 * Z.of_nat (S n)) with (8 + 8 * Z.of_nat n) by lia.
    rewrite Z.pow_add_r by lia. change (2 ^ 8) with 256.
    rewrite Z.rem_mul_r by lia. lia.
Qed.

Lemma decode_encode_Metadata m :
  0 ≤ instructions_offset m < 2 ^ 32 → 0 ≤ instructions_length m < 2 ^ 32 →
  decode_Metadata (encode_Metadata m) = m.
Proof.
  intros Ho Hl. destruct m as [o l].
  cbn [instructions_offset instructions_length] in *.
  unfold decode_Metadata, encode_Metadata.
  cbn [instructions_offset instructions_length].
  f_equal.
  - rewrite take_app_length' by (by rewrite length_encode_le).
    rewrite decode_encode_le. by apply Z.mod_small.
  - rewrite drop_app_length' by (by rewrite length_encode_le).
    rewrite decode_encode_le. by apply Z.mod_small.
Qed.

Lemma length_encode_Metadata m : length (encode_Metadata m) = sizeof_Metadata.
Proof. unfold encode_Metadata. by rewrite length_app, !length_encode_le. Qed.

Lemma length_encode_table table :
  length (encode_table table) = (sizeof_Metadata * length table)%nat.
Proof.
  unfold encode_table. induction table as [|m table IH]; [done|].
  rewrite bind_cons, length_app, IH, length_encode_Metadata. simpl. lia.
Qed.

Lemma read_bytes_encode_table table i m :
  table !! i = Some m →
  read_bytes (encode_table table) (sizeof_Metadata * i) sizeof_Metadata
  = Some (encode_Metadata m).
Proof.
  revert i. unfold encode_table.
  induction table as [|m0 table IH]; intros i Hi; [done|].
  rewrite bind_cons. destruct i as [|i].
  - simpl in Hi. injection Hi as ->.
    rewrite Nat.mul_0_r. apply read_bytes_prefix, length_encode_Metadata.
  - simpl in Hi.
    replace (sizeof_Metadata * S i)%nat
      with (length (encode_Metadata m0) + sizeof_Metadata * i)%nat
      by (rewrite length_encode_Metadata; lia).
    rewrite read_bytes_app_r. by apply IH.
Qed.

(** ** FinalizeEmbeddedCodeTargets leaves all but the code bytes alone *)

Lemma same_frame_refl blob : same_frame blob blob.
Proof. by repeat split. Qed.

Lemma same_frame_trans b1 b2 b3 :
  same_frame b1 b2 → same_frame b2 b3 → same_frame b1 b3.
Proof. unfold same_frame. intros (?&?&?&?) (?&?&?&?). repeat split; congruence. Qed.

Lemma same_frame_InstructionStartOfBuiltin cfg blob blob' i :
  same_frame blob blob' →
  InstructionStartOfBuiltin cfg blob' i = InstructionStartOfBuiltin cfg blob i.
Proof.
  intros (Hc & _ & Hm & _).
  unfold InstructionStartOfBuiltin, Metadata_at. by rewrite Hc, Hm.
Qed.

Lemma for_loop_M_invariant {S : Type} (P : S → World → Prop)
    (body : nat → S → M S) :
  (∀ i s w s' w', P s w → body i s w = Ok s' w' → P s' w') →
  ∀ n lo s w s' w',
    P s w → for_loop_M body lo n s w = Ok s' w' → P s' w'.
Proof.
  intros Hbody. induction n as [|n IH]; intros lo s w s' w' HP Hrun.
  - apply ret_Ok in Hrun as [-> ->]. done.
  - simpl in Hrun. apply bind_Ok in Hrun as (s1 & w1 & Hstep & Hrest).
    eapply IH; [|exact Hrest]. eapply Hbody; eauto.
Qed.

Section Fixer.
Context (cfg : Config) (isolate : Isolate).

Lemma set_target_address_skip_Ok blob rinfo target blob' w w' :
  set_target_address cfg blob rinfo target SKIP_WRITE_BARRIER w = Ok blob' w' →
  w' = w ∧ 0 ≤ off_heap_pc rinfo - code_ blob ∧
  blob' = with_code_bytes (code_bytes blob') blob ∧
  memcpy (code_bytes blob) (Z.to_nat (off_heap_pc rinfo - code_ blob))
    (set_target_address_at cfg (off_heap_rmode rinfo) (off_heap_pc rinfo) target)
  = Some (code_bytes blob').
Proof.
  unfold set_target_address. intros H.
  apply bind_Ok in H as (bytes & w1 & Hbytes & H).
  apply defined_Ok in Hbytes as [Hbytes ->].
  injection H as <- <-. case_decide; [|done]. done.
Qed.

Lemma set_target_address_skip_frame blob rinfo target blob' w w' :
  set_target_address cfg blob rinfo target SKIP_WRITE_BARRIER w = Ok blob' w' →
  same_frame blob blob' ∧ w' = w.
Proof.
  intros H. apply set_target_address_skip_Ok in H as (-> & _ & -> & Hcopy).
  split; [|done]. repeat split. simpl. by apply memcpy_length in Hcopy.
Qed.

Lemma fix_targets_frame on_heap_it off_heap_it blob blob' w w' :
  fix_targets cfg isolate on_heap_it off_heap_it blob w = Ok blob' w' →
  same_frame blob blob' ∧ w' = w.
Proof.
  revert off_heap_it blob w.
  induction on_heap_it as [|rinfo on_heap_rest IH];
    intros off_heap_it blob w H.
  - apply ret_Ok in H as [-> ->]. split; [apply same_frame_refl|done].
  - destruct off_heap_it as [|off_heap_rinfo off_heap_rest]; [done|].
    simpl in H.
    apply bind_Ok in H as ([] & w1 & Hcheck & H).
    apply CHECK_Ok in Hcheck as [_ ->].
    apply bind_Ok in H as (start & w1 & Hstart & H).
    apply defined_Ok in Hstart as [_ ->].
    apply bind_Ok in H as (blob1 & w1 & Hset & H).
    apply set_target_address_skip_frame in Hset as [Hframe ->].
    apply IH in H as [Hframe' ->].
    split; [by eapply same_frame_trans|done].
Qed.

Lemma finalize_step_frame i blob blob' w w' :
  finalize_step cfg isolate i blob w = Ok blob' w' →
  same_frame blob blob' ∧ w' = w.
Proof.
  unfold finalize_step. intros H.
  apply bind_Ok in H as (off_heap_it & w1 & Hit & H).
  apply defined_Ok in Hit as [_ ->].
  destruct (direct_code_targets cfg).
  - by apply fix_targets_frame in H.
  - apply bind_Ok in H as ([] & w1 & Hcheck & H).
    apply CHECK_Ok in Hcheck as [_ ->].
    apply bind_Ok in H as ([] & w1 & Hcheck & H).
    apply CHECK_Ok in Hcheck as [_ ->].
    apply ret_Ok in H as [-> ->]. split; [apply same_frame_refl|done].
Qed.

Lemma FinalizeEmbeddedCodeTargets_frame blob blob' w w' :
  FinalizeEmbeddedCodeTargets cfg isolate blob w = Ok blob' w' →
  same_frame blob blob' ∧ w' = w.
Proof.
  unfold FinalizeEmbeddedCodeTargets. intros H.
  assert (same_frame blob blob ∧ w = w) as H0
    by (split; [apply same_frame_refl|done]).
  revert H0 H.
  apply (for_loop_M_invariant
           (fun b v => same_frame blob b ∧ v = w)
           (finalize_step cfg isolate)).
  intros i s v s' v' [Hframe ->] Hstep.
  apply finalize_step_frame in Hstep as [Hframe' ->].
  split; [by eapply same_frame_trans|done].
Qed.
End Fixer.

(** ** A successful run of FromIsolate, step by step *)

Section Build.
Context (cfg : Config) (os : Platform) (isolate : Isolate).

Let N := builtin_count (builtins isolate).

Lemma FromIsolate_Ok_inv w d w' :
  FromIsolate cfg os isolate w = Ok d w' →
  let s := layout_loop cfg isolate (stderr w) in
  ∃ metadata1 metadata2 code1 d1 hash metadata3,
    saw_unsafe_builtin s = false ∧
    operator_new os (new_arrays w) (blob_code_size cfg isolate w)
    = Some (code_ d) ∧
    operator_new os (<[code_ d := blob_code_size cfg isolate w]> (new_arrays w))
      (blob_metadata_size cfg isolate) = Some (metadata_ d) ∧
    memcpy (replicate (blob_metadata_size cfg isolate) (indeterminate cfg))
      (IsolateHashOffset cfg)
      (encode_size_t cfg (wrap_size_t cfg (HashIsolateForEmbeddedBlob isolate)))
    = Some metadata1 ∧
    memcpy metadata1 (MetadataTableOffset cfg) (encode_table (metadata s))
    = Some metadata2 ∧
    write_raw_data cfg isolate (metadata s)
      (ZapCode cfg (blob_code_size cfg isolate w))
    = Some code1 ∧
    FinalizeEmbeddedCodeTargets cfg isolate
      {| code_ := code_ d; code_bytes := code1;
         metadata_ := metadata_ d; metadata_bytes := metadata2 |}
      (world_after_new cfg isolate w d)
    = Ok d1 w' ∧
    CreateEmbeddedBlobHash cfg d1 = Some hash ∧
    memcpy (metadata_bytes d1) EmbeddedBlobHashOffset (encode_size_t cfg hash)
    = Some metadata3 ∧
    d = with_metadata_bytes metadata3 d1 ∧
    w' = world_after_new cfg isolate w d.
Proof.
  intros H s. unfold FromIsolate in H.
  apply bind_Ok in H as (s0 & w1 & Hs & H). injection Hs as <- <-.
  apply bind_Ok in H as ([] & w1 & Hcheck & H).
  apply CHECK_Ok in Hcheck as [Hsafe ->].
  apply bind_Ok in H as (blob_code & w1 & Hnew1 & H).
  apply new_uint8_array_Ok in Hnew1 as [Hnew1 ->].
  apply bind_Ok in H as (blob_metadata & w1 & Hnew2 & H).
  apply new_uint8_array_Ok in Hnew2 as [Hnew2 ->].
  apply bind_Ok in H as (metadata1 & w1 & Hm1 & H).
  apply defined_Ok in Hm1 as [Hm1 ->].
  apply bind_Ok in H as (metadata2 & w1 & Hm2 & H).
  apply defined_Ok in Hm2 as [Hm2 ->].
  apply bind_Ok in H as (code1 & w1 & Hcode & H).
  apply defined_Ok in Hcode as [Hcode ->].
  apply bind_Ok in H as (d1 & w1 & Hfix & H).
  apply bind_Ok in H as (hash & w2 & Hhash & H).
  apply defined_Ok in Hhash as [Hhash ->].
  apply bind_Ok in H as (metadata3 & w2 & Hm3 & H).
  apply defined_Ok in Hm3 as [Hm3 ->].
  apply ret_Ok in H as [-> ->].
  pose proof (FinalizeEmbeddedCodeTargets_frame _ _ _ _ _ _ Hfix)
    as [(Hc & Hm & _ & _) ->].
  simpl in Hc, Hm.
  exists metadata1, metadata2, code1, d1, hash, metadata3.
  unfold world_after_new, blob_code_size, blob_metadata_size.
  simpl. rewrite Hc, Hm. apply negb_true_iff in Hsafe.
  repeat split; done.
Qed.
End Build.

(** ** The blob integrity hash *)

Lemma wrap_size_t_idem cfg z : wrap_size_t cfg (wrap_size_t cfg z) = wrap_size_t cfg z.
Proof. unfold wrap_size_t. apply Z.mod_mod. lia. Qed.

(** C6. The hash stored by a successful [FromIsolate] is the checksum of the
    finished blob: of the metadata buffer after the hash field and of the
    whole code buffer. It is stored in the first [kSizetSize] bytes of the
    metadata buffer, after [FinalizeEmbeddedCodeTargets], whose result it
    changes in that field only; computing the hash of the finished blob again
    yields the stored value. *)
Theorem blob_hash_is_checksum_of_finished_blob
    (cfg : Config) (os : Platform) (isolate : Isolate)
    (w w' : World) (d : EmbeddedData) :
  FromIsolate cfg os isolate w = Ok d w' →
  ∃ hash d0 d1 w0,
    FinalizeEmbeddedCodeTargets cfg isolate d0 w0 = Ok d1 w' ∧
    code_bytes d = code_bytes d1 ∧
    length (metadata_bytes d) = length (metadata_bytes d1) ∧
    drop (EmbeddedBlobHashSize cfg) (metadata_bytes d)
    = drop (EmbeddedBlobHashSize cfg) (metadata_bytes d1) ∧
    hash = wrap_size_t cfg
             (Checksum cfg (drop (EmbeddedBlobHashSize cfg) (metadata_bytes d))
                (code_bytes d)) ∧
    read_bytes (metadata_bytes d) EmbeddedBlobHashOffset (EmbeddedBlobHashSize cfg)
    = Some (encode_size_t cfg hash) ∧
    EmbeddedBlobHash cfg d = Some hash ∧
    CreateEmbeddedBlobHash cfg d = Some hash.
Proof.
  intros Hrun.
  destruct (FromIsolate_Ok_inv cfg os isolate w d w' Hrun)
    as (metadata1 & metadata2 & code1 & d1 & hash & metadata3 & _ & _ & _ & _
        & _ & _ & Hfix & Hhash & Hstore & -> & _).
  unfold CreateEmbeddedBlobHash in Hhash.
  case_decide as Hsize; [|done]. injection Hhash as Hhash.
  pose proof (memcpy_length _ _ _ _ Hstore) as Hlen.
  assert (metadata3
          = encode_size_t cfg hash
            ++ drop (EmbeddedBlobHashSize cfg) (metadata_bytes d1)) as Hm3.
  { unfold memcpy in Hstore. case_decide; [|done]. injection Hstore as <-.
    unfold EmbeddedBlobHashOffset, encode_size_t, EmbeddedBlobHashSize.
    by rewrite length_encode_le. }
  assert (length (encode_size_t cfg hash) = EmbeddedBlobHashSize cfg) as Hk
    by apply length_encode_le.
  assert (drop (EmbeddedBlobHashSize cfg) metadata3
          = drop (EmbeddedBlobHashSize cfg) (metadata_bytes d1)) as Hdrop.
  { rewrite Hm3 at 1. by rewrite drop_app_length'. }
  assert (read_bytes metadata3 EmbeddedBlobHashOffset (EmbeddedBlobHashSize cfg)
          = Some (encode_size_t cfg hash)) as Hread.
  { rewrite Hm3. by apply read_bytes_prefix. }
  eexists hash, _, d1, _. split; [exact Hfix|]. simpl.
  split; [done|]. split; [done|]. split; [done|].
  split; [by rewrite Hdrop|]. split; [done|]. split.
  - unfold EmbeddedBlobHash. simpl. rewrite Hread. simpl. f_equal.
    unfold encode_size_t. rewrite decode_encode_le.
    rewrite <- Hhash. apply wrap_size_t_idem.
  - unfold CreateEmbeddedBlobHash. simpl.
    rewrite decide_True by lia. by rewrite Hdrop, Hhash.
Qed.

Lemma blob_hash_is_checksum_of_finished_blob_witness :
  ∃ d w',
    FromIsolate example_cfg example_os scenario_isolate empty_world = Ok d w' ∧
    EmbeddedBlobHash example_cfg d = CreateEmbeddedBlobHash example_cfg d.
Proof.
  destruct (FromIsolate example_cfg example_os scenario_isolate empty_world)
    as [d w'| |] eqn:Hrun; [|by vm_compute in Hrun..].
  exists d, w'. split; [reflexivity|].
  destruct (blob_hash_is_checksum_of_finished_blob _ _ _ _ _ _ Hrun)
    as (hash & _ & _ & _ & _ & _ & _ & _ & _ & _ & -> & ->).
  reflexivity.
Defined.

(** ** The buffers of a built blob *)

Lemma raw_size_after_range cfg isolate n : 0 ≤ raw_size_after cfg isolate n < 2 ^ 32.
Proof. destruct n; [simpl; lia|apply wrap32_range]. Qed.

Lemma wrap32_to_nat_le z : 0 ≤ z → (Z.to_nat (wrap32 z) ≤ Z.to_nat z)%nat.
Proof.
  intros Hz. pose proof (wrap32_range z). unfold wrap32 in *.
  pose proof (Z.mod_le z (2 ^ 32) Hz ltac:(lia)). lia.
Qed.

Lemma wrap32_le z : 0 ≤ z → wrap32 z ≤ z.
Proof. intros Hz. unfold wrap32. apply Z.mod_le; lia. Qed.

(** The copies of the second loop stay inside the code buffer. *)
Lemma write_raw_data_upto cfg isolate table n buffer buffer' :
  for_loop (copy_step cfg isolate table) 0 n (Some buffer) = Some buffer' →
  length buffer' = length buffer ∧
  ∀ i, (i < n)%nat →
    ∃ entry, table !! i = Some entry ∧
      (RawCodeOffset cfg + Z.to_nat (instructions_offset entry)
       + length (instructions (builtin (builtins isolate) i))
       ≤ length buffer)%nat.
Proof.
  revert buffer'. induction n as [|n IH]; intros buffer' Hrun.
  - simpl in Hrun. injection Hrun as <-. split; [done|]. intros i Hi. lia.
  - rewrite for_loop_snoc in Hrun. simpl in Hrun.
    unfold copy_step in Hrun at 1.
    destruct (for_loop (copy_step cfg isolate table) 0 n (Some buffer))
      as [buffer1|] eqn:Hprev; [|done].
    destruct (IH buffer1 eq_refl) as [Hlen Hbounds].
    simpl in Hrun.
    destruct (table !! n) as [entry|] eqn:Hentry; [|done]. simpl in Hrun.
    pose proof (memcpy_length _ _ _ _ Hrun) as Hlen'.
    pose proof (memcpy_bounds _ _ _ _ Hrun) as Hin.
    split; [congruence|].
    intros i Hi. destruct (decide (i = n)) as [->|Hne].
    + exists entry. split; [done|]. lia.
    + apply Hbounds. lia.
Qed.

Section BuiltBlob.
Context (cfg : Config) (os : Platform) (isolate : Isolate).
Context (w w' : World) (d : EmbeddedData).
Hypothesis Hrun : FromIsolate cfg os isolate w = Ok d w'.

Let N := builtin_count (builtins isolate).

Lemma built_metadata_bytes :
  ∃ hash,
    metadata_bytes d
    = encode_size_t cfg hash
      ++ encode_size_t cfg (wrap_size_t cfg (HashIsolateForEmbeddedBlob isolate))
      ++ encode_table (metadata (layout_loop cfg isolate (stderr w))).
Proof.
  destruct (FromIsolate_Ok_inv cfg os isolate w d w' Hrun)
    as (metadata1 & metadata2 & code1 & d1 & hash & metadata3 & _ & _ & _
        & Hm1 & Hm2 & _ & Hfix & _ & Hm3 & -> & _).
  apply FinalizeEmbeddedCodeTargets_frame in Hfix as [(_ & _ & Hmd & _) _].
  simpl in Hmd. rewrite Hmd in Hm3. exists hash. simpl.
  set (table := metadata (layout_loop cfg isolate (stderr w))) in *.
  assert (length (encode_table table) = (sizeof_Metadata * N)%nat) as Htable.
  { rewrite length_encode_table. unfold table.
    by rewrite layout_loop_upto, length_metadata_upto. }
  assert (blob_metadata_size cfg isolate
          = (kSizetSize cfg + (kSizetSize cfg + sizeof_Metadata * N))%nat)
    as Hsize.
  { pose proof (memcpy_bounds _ _ _ _ Hm2) as Hin.
    rewrite (memcpy_length _ _ _ _ Hm1), length_replicate, Htable in Hin.
    pose proof (wrap32_to_nat_le
                  (Z.of_nat (MetadataTableOffset cfg) +
                   Z.of_nat (MetadataTableSize N)) ltac:(lia)) as Hle.
    unfold blob_metadata_size in *. fold N in Hin |- *.
    unfold MetadataTableOffset, IsolateHashOffset, IsolateHashSize,
      EmbeddedBlobHashOffset, EmbeddedBlobHashSize, MetadataTableSize in *.
    lia. }
  rewrite Hsize, !replicate_add in Hm1.
  rewrite memcpy_app in Hm1;
    [|by rewrite length_replicate
     |by unfold encode_size_t; rewrite length_replicate, length_encode_le].
  injection Hm1 as <-.
  rewrite app_assoc in Hm2.
  rewrite memcpy_app_end in Hm2;
    [|unfold MetadataTableOffset, IsolateHashOffset, IsolateHashSize,
        EmbeddedBlobHashOffset, EmbeddedBlobHashSize, encode_size_t;
      rewrite length_app, length_replicate, length_encode_le; done
     |by rewrite length_replicate, Htable].
  injection Hm2 as <-. rewrite <- app_assoc in Hm3.
  pose proof (memcpy_app []
                (replicate (kSizetSize cfg) (indeterminate cfg))
                (encode_size_t cfg
                   (wrap_size_t cfg (HashIsolateForEmbeddedBlob isolate))
                 ++ encode_table table)
                EmbeddedBlobHashOffset (encode_size_t cfg hash) eq_refl) as Hm3'.
  rewrite !app_nil_l in Hm3'. rewrite Hm3' in Hm3.
  - by injection Hm3 as <-.
  - by unfold encode_size_t; rewrite length_replicate, length_encode_le.
Qed.

Lemma built_Metadata_at (i : nat) :
  (i < N)%nat →
  Metadata_at cfg d (Z.of_nat i)
  = Some {| instructions_offset := raw_size_after cfg isolate i;
            instructions_length := unit_length isolate i |}.
Proof.
  intros Hi. destruct built_metadata_bytes as [hash Hbytes].
  unfold Metadata_at. rewrite decide_True by lia. rewrite Hbytes, Nat2Z.id.
  rewrite app_assoc.
  replace (MetadataTableOffset cfg)
    with (length (encode_size_t cfg hash ++
                  encode_size_t cfg
                    (wrap_size_t cfg (HashIsolateForEmbeddedBlob isolate))))
    by (unfold encode_size_t, MetadataTableOffset, IsolateHashOffset,
          IsolateHashSize, EmbeddedBlobHashOffset, EmbeddedBlobHashSize;
        rewrite length_app, !length_encode_le; lia).
  rewrite read_bytes_app_r.
  rewrite (read_bytes_encode_table _ _
             {| instructions_offset := raw_size_after cfg isolate i;
                instructions_length := unit_length isolate i |})
    by (rewrite layout_loop_upto; apply metadata_upto_lookup; fold N; lia).
  simpl. f_equal. apply decode_encode_Metadata; simpl.
  - apply raw_size_after_range.
  - apply unit_length_range.
Qed.

Lemma built_code_size :
  length (code_bytes d)
  = Z.to_nat (wrap32 (Z.of_nat (RawCodeOffset cfg) + raw_size_after cfg isolate N)).
Proof.
  destruct (FromIsolate_Ok_inv cfg os isolate w d w' Hrun)
    as (metadata1 & metadata2 & code1 & d1 & hash & metadata3 & _ & _ & _
        & _ & _ & Hcopy & Hfix & _ & _ & -> & _).
  apply FinalizeEmbeddedCodeTargets_frame in Hfix as [(_ & _ & _ & Hlen) _].
  simpl in *. rewrite Hlen.
  apply write_raw_data_upto in Hcopy as [-> _].
  unfold ZapCode, blob_code_size.
  by rewrite length_replicate, raw_code_size_layout_loop.
Qed.

Lemma built_copy_bounds (i : nat) :
  (i < N)%nat →
  (RawCodeOffset cfg + Z.to_nat (raw_size_after cfg isolate i)
   + length (instructions (builtin (builtins isolate) i))
   ≤ length (code_bytes d))%nat.
Proof.
  intros Hi.
  destruct (FromIsolate_Ok_inv cfg os isolate w d w' Hrun)
    as (metadata1 & metadata2 & code1 & d1 & hash & metadata3 & _ & _ & _
        & _ & _ & Hcopy & Hfix & _ & _ & -> & _).
  apply FinalizeEmbeddedCodeTargets_frame in Hfix as [(_ & _ & _ & Hlen) _].
  simpl in *. rewrite Hlen.
  apply write_raw_data_upto in Hcopy as [Hlen1 Hbounds].
  destruct (Hbounds i Hi) as (entry & Hentry & Hin).
  rewrite layout_loop_upto, metadata_upto_lookup in Hentry by (fold N; lia).
  injection Hentry as <-. simpl in Hin. lia.
Qed.
End BuiltBlob.

(** C10. For every builtin index [i] of a blob built by [FromIsolate] the
    instruction start lies in the code buffer, the start plus the instruction
    size does not exceed the end of the code buffer ([code_ + code_size_]),
    and the start equals that end only when the instruction size is zero. *)
Theorem InstructionStartOfBuiltin_within_code
    (cfg : Config) (os : Platform) (isolate : Isolate)
    (w w' : World) (d : EmbeddedData) (i : Z) :
  FromIsolate cfg os isolate w = Ok d w' →
  0 ≤ i < Z.of_nat (builtin_count (builtins isolate)) →
  ∃ start size,
    InstructionStartOfBuiltin cfg d i = Some start ∧
    InstructionSizeOfBuiltin cfg d i = Some size ∧
    code_ d ≤ start ∧ 0 ≤ size ∧
    start + size ≤ code_ d + code_size d ∧
    (start = code_ d + code_size d → size = 0).
Proof.
  intros Hrun Hi.
  assert (Z.to_nat i < builtin_count (builtins isolate))%nat as Hn by lia.
  pose proof (built_Metadata_at cfg os isolate w w' d Hrun _ Hn) as Hentry.
  pose proof (built_copy_bounds cfg os isolate w w' d Hrun _ Hn) as Hin.
  rewrite Z2Nat.id in Hentry by lia.
  unfold InstructionStartOfBuiltin, InstructionSizeOfBuiltin.
  rewrite Hentry. simpl. eexists _, _. split; [done|]. split; [done|].
  pose proof (raw_size_after_range cfg isolate (Z.to_nat i)).
  pose proof (unit_length_range isolate (Z.to_nat i)).
  assert (unit_length isolate (Z.to_nat i)
          ≤ Z.of_nat (length (instructions
                                (builtin (builtins isolate) (Z.to_nat i)))))
    as Hlen by (apply wrap32_le; unfold raw_instruction_size; lia).
  unfold code_size. lia.
Qed.

Lemma InstructionStartOfBuiltin_within_code_witness :
  ∃ d w',
    FromIsolate example_cfg example_os scenario_isolate empty_world = Ok d w' ∧
    ∃ start size,
      InstructionStartOfBuiltin example_cfg d 2 = Some start ∧
      InstructionSizeOfBuiltin example_cfg d 2 = Some size ∧
      start + size ≤ code_ d + code_size d.
Proof.
  destruct (FromIsolate example_cfg example_os scenario_isolate empty_world)
    as [d w'| |] eqn:Hrun; [|by vm_compute in Hrun..].
  exists d, w'. split; [reflexivity|].
  destruct (InstructionStartOfBuiltin_within_code _ _ _ _ _ _ 2 Hrun)
    as (start & size & Hstart & Hsize & _ & _ & Hend & _).
  - simpl. lia.
  - exists start, size. repeat split; assumption.
Defined.

(** ** The address resolver *)

Section Resolver.
Context (cfg : Config) (os : Platform) (isolate : Isolate).
Context (w w' : World) (d : EmbeddedData).
Hypothesis Hrun : FromIsolate cfg os isolate w = Ok d w'.
Hypothesis Hpad : pads_units cfg isolate.
Hypothesis Hfit : fits_uint32 cfg isolate.

Let N := builtin_count (builtins isolate).

Lemma built_InstructionStartOfBuiltin (i : nat) :
  (i < N)%nat →
  InstructionStartOfBuiltin cfg d (Z.of_nat i)
  = Some (unit_start cfg isolate d i).
Proof.
  intros Hi. unfold InstructionStartOfBuiltin.
  rewrite (built_Metadata_at cfg os isolate w w' d Hrun i Hi). simpl.
  rewrite raw_size_after_no_overflow by (try done; fold N; lia).
  reflexivity.
Qed.

Lemma built_InstructionStartOfBuiltin_0 :
  (0 < N)%nat →
  InstructionStartOfBuiltin cfg d 0 = Some (unit_start cfg isolate d 0).
Proof. intros H0. exact (built_InstructionStartOfBuiltin 0 H0). Qed.

Lemma built_PaddedInstructionSizeOfBuiltin (i : nat) :
  (i < N)%nat →
  PaddedInstructionSizeOfBuiltin cfg d (Z.of_nat i)
  = Some (PadAndAlign cfg (unit_length isolate i)).
Proof.
  intros Hi. unfold PaddedInstructionSizeOfBuiltin, InstructionSizeOfBuiltin.
  by rewrite (built_Metadata_at cfg os isolate w w' d Hrun i Hi).
Qed.

Lemma built_code_region_end :
  code_ d + code_size d = unit_start cfg isolate d N.
Proof.
  unfold code_size, unit_start.
  rewrite (built_code_size cfg os isolate w w' d Hrun). fold N.
  rewrite raw_size_after_no_overflow by (try done; fold N; lia).
  pose proof (padded_total_mono cfg isolate 0 N Hpad ltac:(lia) ltac:(fold N; lia))
    as Hm.
  rewrite wrap32_small; [lia|]. unfold fits_uint32 in Hfit. fold N in Hfit. lia.
Qed.

Lemma unit_start_mono (i j : nat) :
  (i ≤ j)%nat → (j ≤ N)%nat →
  unit_start cfg isolate d i ≤ unit_start cfg isolate d j.
Proof.
  intros Hij Hj. unfold unit_start.
  pose proof (padded_total_mono cfg isolate i j Hpad Hij Hj). lia.
Qed.

Lemma unit_start_S (i : nat) :
  unit_start cfg isolate d (S i)
  = unit_start cfg isolate d i + PadAndAlign cfg (unit_length isolate i).
Proof. unfold unit_start. simpl. lia. Qed.

(** The ranges of two different units do not share an address. *)
Lemma unit_range_unique (address : Z) (i j : nat) :
  (i < N)%nat → (j < N)%nat →
  unit_start cfg isolate d i ≤ address < unit_start cfg isolate d (S i) →
  unit_start cfg isolate d j ≤ address < unit_start cfg isolate d (S j) →
  i = j.
Proof.
  intros Hi Hj Hai Haj.
  destruct (decide (i < j)%nat) as [Hlt|Hge].
  - pose proof (unit_start_mono (S i) j ltac:(lia) ltac:(lia)). lia.
  - destruct (decide (j < i)%nat) as [Hlt|Hge']; [|lia].
    pose proof (unit_start_mono (S j) i ltac:(lia) ltac:(lia)). lia.
Qed.

(** The loop finds the unit whose padded range holds the address, and does so
    within [r - l] rounds. *)
Lemma lookup_loop_finds (address : Z) (fuel l r : nat) :
  (l ≤ r)%nat → (r ≤ N)%nat → (r - l ≤ fuel)%nat →
  unit_start cfg isolate d l ≤ address < unit_start cfg isolate d r →
  ∃ i, (l ≤ i < r)%nat ∧
    lookup_loop cfg fuel d address (Z.of_nat l) (Z.of_nat r)
    = LookupBuiltin (Z.of_nat i) ∧
    unit_start cfg isolate d i ≤ address < unit_start cfg isolate d (S i).
Proof.
  revert l r. induction fuel as [|fuel IH]; intros l r Hlr0 Hr Hfuel Ha.
  - assert (r = l) as -> by lia. lia.
  - assert (l < r)%nat as Hlr.
    { destruct (decide (l < r)%nat); [done|].
      assert (r = l) as -> by lia. lia. }
    simpl. rewrite decide_True by lia.
    set (mid := ((l + r) / 2)%nat).
    assert ((Z.of_nat l + Z.of_nat r) / 2 = Z.of_nat mid) as Hmid
      by (unfold mid; rewrite Nat2Z.inj_div, Nat2Z.inj_add; reflexivity).
    assert (l ≤ mid < r)%nat as Hbounds.
    { assert (Z.of_nat l ≤ (Z.of_nat l + Z.of_nat r) / 2 < Z.of_nat r);
        [|lia].
      split; [apply Z.div_le_lower_bound; lia
             |apply Z.div_lt_upper_bound; lia]. }
    rewrite Hmid.
    rewrite built_InstructionStartOfBuiltin,
      built_PaddedInstructionSizeOfBuiltin by lia.
    rewrite <- unit_start_S.
    case_decide as Hleft.
    + destruct (IH l mid ltac:(lia) ltac:(lia) ltac:(lia) ltac:(lia))
        as (i & Hi & Hfound & Hrange).
      exists i. split; [lia|done].
    + case_decide as Hright.
      * replace (Z.of_nat mid + 1) with (Z.of_nat (S mid)) by lia.
        destruct (IH (S mid) r ltac:(lia) ltac:(lia) ltac:(lia) ltac:(lia))
          as (i & Hi & Hfound & Hrange).
        exists i. split; [lia|done].
      * exists mid. split; [lia|]. split; [done|lia].
Qed.
End Resolver.

(** The padded lengths of the scenario, for every [PadAndAlign] that covers
    the lengths, aligns to 16 and pads by at most 16 bytes. *)
Lemma scenario_padding cfg isolate :
  pads_units cfg isolate →
  kCodeAlignment cfg = 16 → builtin_count (builtins isolate) = 3%nat →
  unit_length isolate 0 = 10 → unit_length isolate 1 = 37 →
  unit_length isolate 2 = 4 →
  (∀ i, (i < 3)%nat →
     PadAndAlign cfg (unit_length isolate i) ≤ unit_length isolate i + 16) →
  PadAndAlign cfg 10 = 16 ∧ PadAndAlign cfg 37 = 48 ∧ PadAndAlign cfg 4 = 16.
Proof.
  intros Hpad Halign HN H0 H1 H2 Hle.
  pose proof (Hpad 0%nat ltac:(lia)) as [G0 [k0 D0]].
  pose proof (Hpad 1%nat ltac:(lia)) as [G1 [k1 D1]].
  pose proof (Hpad 2%nat ltac:(lia)) as [G2 [k2 D2]].
  pose proof (Hle 0%nat ltac:(lia)) as L0.
  pose proof (Hle 1%nat ltac:(lia)) as L1.
  pose proof (Hle 2%nat ltac:(lia)) as L2.
  rewrite Halign in *. rewrite H0 in *. rewrite H1 in *. rewrite H2 in *.
  lia.
Qed.

Section ResolverTotal.
Context (cfg : Config) (os : Platform) (isolate : Isolate).
Context (w w' : World) (d : EmbeddedData).
Hypothesis Hrun : FromIsolate cfg os isolate w = Ok d w'.
Hypothesis Hpad : pads_units cfg isolate.
Hypothesis Hfit : fits_uint32 cfg isolate.
Hypothesis Hsome : (0 < builtin_count (builtins isolate))%nat.

Let N := builtin_count (builtins isolate).
Let running := running_on d isolate.

Lemma PcIsOffHeap_running address :
  PcIsOffHeap running address = true ↔
  code_ d ≤ address < unit_start cfg isolate d N.
Proof.
  unfold PcIsOffHeap, running, running_on. simpl.
  rewrite (built_code_region_end cfg os isolate w w' d Hrun Hpad Hfit).
  fold N. rewrite andb_true_iff, !bool_decide_eq_true. done.
Qed.

Lemma TryLookupCode_outside address :
  ¬ (unit_start cfg isolate d 0 ≤ address < unit_start cfg isolate d N) →
  TryLookupCode cfg running d address = LookupNull.
Proof.
  intros Hout. unfold TryLookupCode.
  destruct (PcIsOffHeap running address) eqn:Hpc; [|done]. simpl.
  apply PcIsOffHeap_running in Hpc.
  rewrite (built_InstructionStartOfBuiltin_0 cfg os isolate w w' d Hrun Hpad
             Hfit Hsome).
  rewrite decide_True by lia. done.
Qed.

Lemma TryLookupCode_inside address :
  unit_start cfg isolate d 0 ≤ address < unit_start cfg isolate d N →
  ∃ i, (i < N)%nat ∧
    TryLookupCode cfg running d address = LookupBuiltin (Z.of_nat i) ∧
    unit_start cfg isolate d i ≤ address < unit_start cfg isolate d (S i).
Proof.
  intros Hin. unfold TryLookupCode.
  assert (PcIsOffHeap running address = true) as ->.
  { apply PcIsOffHeap_running. unfold unit_start in *. simpl in *. lia. }
  simpl.
  rewrite (built_InstructionStartOfBuiltin_0 cfg os isolate w w' d Hrun Hpad
             Hfit Hsome).
  rewrite decide_False by lia.
  destruct (lookup_loop_finds cfg os isolate w w' d Hrun Hpad Hfit address
              N 0 N ltac:(lia) ltac:(done) ltac:(lia) Hin)
    as (i & Hi & Hfound & Hrange).
  exists i. split; [lia|]. split; [exact Hfound|exact Hrange].
Qed.

Lemma TryLookupCode_unit address (i : nat) :
  (i < N)%nat →
  unit_start cfg isolate d i ≤ address < unit_start cfg isolate d (S i) →
  TryLookupCode cfg running d address = LookupBuiltin (Z.of_nat i).
Proof.
  intros Hi Hrange.
  destruct (TryLookupCode_inside address) as (j & Hj & Hfound & Hrange').
  { pose proof (unit_start_mono cfg isolate d Hpad 0 i ltac:(lia) ltac:(fold N; lia)).
    pose proof (unit_start_mono cfg isolate d Hpad (S i) N ltac:(lia) ltac:(done)).
    lia. }
  rewrite Hfound. f_equal. f_equal.
  by apply (unit_range_unique cfg isolate d Hpad address).
Qed.
End ResolverTotal.

(** C4, as amended. For a blob built by [FromIsolate] (with [PadAndAlign]
    covering the lengths, a code region that fits 32 bits and at least one
    builtin) and the isolate running on it, [TryLookupCode] returns the null
    code for every address outside [instruction start of unit 0, end of the
    code region). For every address inside it returns the one unit whose
    range [start, start + padded size) holds the address, and never reaches
    [UNREACHABLE()]; an address in the padding gap of unit [i] resolves to
    [i]. In the scenario (lengths 10, 37 and 4, alignment 16) the offsets 40
    and 48 resolve to unit 1 and the offset 64 to unit 2. *)
Theorem TryLookupCode_resolves
    (cfg : Config) (os : Platform) (isolate : Isolate)
    (w w' : World) (d : EmbeddedData) :
  FromIsolate cfg os isolate w = Ok d w' →
  pads_units cfg isolate → fits_uint32 cfg isolate →
  (0 < builtin_count (builtins isolate))%nat →
  let N := Z.of_nat (builtin_count (builtins isolate)) in
  let resolve := TryLookupCode cfg (running_on d isolate) d in
  ∃ start0,
    InstructionStartOfBuiltin cfg d 0 = Some start0 ∧
    (∀ address,
       ¬ (start0 ≤ address < code_ d + code_size d) →
       resolve address = LookupNull) ∧
    (∀ address,
       start0 ≤ address < code_ d + code_size d →
       ∃ i start padded,
         resolve address = LookupBuiltin i ∧ 0 ≤ i < N ∧
         InstructionStartOfBuiltin cfg d i = Some start ∧
         PaddedInstructionSizeOfBuiltin cfg d i = Some padded ∧
         start ≤ address < start + padded ∧
         ∀ j start_j padded_j,
           0 ≤ j < N →
           InstructionStartOfBuiltin cfg d j = Some start_j →
           PaddedInstructionSizeOfBuiltin cfg d j = Some padded_j →
           start_j ≤ address < start_j + padded_j → j = i) ∧
    (∀ address, resolve address ≠ LookupUnreachable) ∧
    (∀ address i start size padded,
       0 ≤ i < N →
       InstructionStartOfBuiltin cfg d i = Some start →
       InstructionSizeOfBuiltin cfg d i = Some size →
       PaddedInstructionSizeOfBuiltin cfg d i = Some padded →
       start + size ≤ address < start + padded →
       resolve address = LookupBuiltin i) ∧
    (kCodeAlignment cfg = 16 → N = 3 →
     unit_length isolate 0 = 10 → unit_length isolate 1 = 37 →
     unit_length isolate 2 = 4 →
     (∀ i, (i < 3)%nat →
        PadAndAlign cfg (unit_length isolate i) ≤ unit_length isolate i + 16) →
     resolve (start0 + 40) = LookupBuiltin 1 ∧
     resolve (start0 + 48) = LookupBuiltin 1 ∧
     resolve (start0 + 64) = LookupBuiltin 2).
Proof.
  intros Hrun Hpad Hfit Hsome N resolve.
  pose proof (built_InstructionStartOfBuiltin cfg os isolate w w' d Hrun Hpad Hfit)
    as Hstart.
  pose proof (built_PaddedInstructionSizeOfBuiltin cfg os isolate w w' d Hrun)
    as Hpadded.
  pose proof (built_code_region_end cfg os isolate w w' d Hrun Hpad Hfit) as Hend.
  pose proof (TryLookupCode_unit cfg os isolate w w' d Hrun Hpad Hfit Hsome)
    as Hunit.
  assert (∀ j start_j padded_j,
            0 ≤ j < N →
            InstructionStartOfBuiltin cfg d j = Some start_j →
            PaddedInstructionSizeOfBuiltin cfg d j = Some padded_j →
            start_j = unit_start cfg isolate d (Z.to_nat j) ∧
            start_j + padded_j = unit_start cfg isolate d (S (Z.to_nat j)))
    as Hrange.
  { intros j start_j padded_j Hj Hs Hp.
    rewrite <- (Z2Nat.id j) in Hs, Hp by lia.
    rewrite Hstart in Hs by lia. rewrite Hpadded in Hp by lia.
    injection Hs as <-. injection Hp as <-.
    split; [done|]. by rewrite unit_start_S. }
  exists (unit_start cfg isolate d 0).
  split; [by apply (Hstart 0%nat)|]. rewrite Hend.
  split; [|split; [|split; [|split]]].
  - intros address Hout.
    by apply (TryLookupCode_outside cfg os isolate w w' d Hrun Hpad Hfit Hsome).
  - intros address Hin.
    destruct (TryLookupCode_inside cfg os isolate w w' d Hrun Hpad Hfit Hsome
                address Hin) as (i & Hi & Hfound & Hi_range).
    exists (Z.of_nat i), (unit_start cfg isolate d i),
      (PadAndAlign cfg (unit_length isolate i)).
    split; [exact Hfound|]. split; [lia|].
    split; [by apply Hstart|]. split; [by apply Hpadded|].
    rewrite unit_start_S in Hi_range. split; [done|].
    intros j start_j padded_j Hj Hs Hp Hj_range.
    destruct (Hrange j start_j padded_j Hj Hs Hp) as [E1 E2].
    rewrite E2 in Hj_range. rewrite E1 in Hj_range.
    rewrite <- unit_start_S in Hi_range.
    assert (Z.to_nat j = i); [|lia].
    apply (unit_range_unique cfg isolate d Hpad address); [lia|lia|done|done].
  - intros address.
    destruct (decide (unit_start cfg isolate d 0 ≤ address
                      < unit_start cfg isolate d (builtin_count (builtins isolate))))
      as [Hin|Hout].
    + destruct (TryLookupCode_inside cfg os isolate w w' d Hrun Hpad Hfit Hsome
                  address Hin) as (i & _ & Hfound & _).
      unfold resolve. by rewrite Hfound.
    + unfold resolve.
      by rewrite (TryLookupCode_outside cfg os isolate w w' d Hrun Hpad Hfit
                    Hsome address Hout).
  - intros address i start size padded Hi Hs Hsz Hp Hgap.
    destruct (Hrange i start padded Hi Hs Hp) as [E1 E2].
    assert (0 ≤ size) as Hsize.
    { unfold InstructionSizeOfBuiltin in Hsz.
      rewrite <- (Z2Nat.id i) in Hsz by lia.
      rewrite (built_Metadata_at cfg os isolate w w' d Hrun) in Hsz by lia.
      injection Hsz as <-. simpl. apply unit_length_range. }
    unfold resolve. rewrite <- (Z2Nat.id i) at 1 by lia.
    apply Hunit; [lia|]. lia.
  - intros Halign HN H0 H1 H2 Hle.
    assert (builtin_count (builtins isolate) = 3%nat) as HN' by lia.
    destruct (scenario_padding cfg isolate Hpad Halign HN' H0 H1 H2 Hle)
      as (P0 & P1 & P2).
    assert (unit_start cfg isolate d 1 = unit_start cfg isolate d 0 + 16) as S1
      by (rewrite unit_start_S, H0, P0; done).
    assert (unit_start cfg isolate d 2 = unit_start cfg isolate d 0 + 64) as S2
      by (rewrite unit_start_S, S1, H1, P1; lia).
    assert (unit_start cfg isolate d 3 = unit_start cfg isolate d 0 + 80) as S3
      by (rewrite unit_start_S, S2, H2, P2; lia).
    unfold resolve. split; [|split].
    + apply (Hunit _ 1%nat); [lia|]. lia.
    + apply (Hunit _ 1%nat); [lia|]. lia.
    + apply (Hunit _ 2%nat); [lia|]. lia.
Qed.

Lemma TryLookupCode_resolves_witness :
  ∃ d w',
    FromIsolate example_cfg example_os scenario_isolate empty_world = Ok d w' ∧
    TryLookupCode example_cfg (running_on d scenario_isolate) d (code_ d + 63)
    = LookupBuiltin 1.
Proof.
  destruct (FromIsolate example_cfg example_os scenario_isolate empty_world)
    as [d w'| |] eqn:Hrun; [|by vm_compute in Hrun..].
  exists d, w'. split; [reflexivity|].
  destruct (TryLookupCode_resolves example_cfg example_os scenario_isolate
              empty_world w' d Hrun example_pads_scenario example_fits_scenario)
    as (start0 & Hstart0 & _ & _ & _ & Hgap & _).
  - simpl. lia.
  - vm_compute in Hrun. injection Hrun as <- <-.
    apply (Hgap _ 1 65552 37 48); [simpl; lia|reflexivity..|cbn [code_]; lia].
Defined.

(** C4, as stated, fails: in the scenario the address at offset 48 lies in
    the instructions of unit 1 (bytes 16 to 52) and resolves to unit 1, not
    to unit 2, which starts at offset 64. *)
Lemma scenario_offset_48_resolves_to_unit_1 :
  ∃ d w' start0,
    FromIsolate example_cfg example_os scenario_isolate empty_world = Ok d w' ∧
    InstructionStartOfBuiltin example_cfg d 0 = Some start0 ∧
    TryLookupCode example_cfg (running_on d scenario_isolate) d (start0 + 48)
    = LookupBuiltin 1 ∧
    TryLookupCode example_cfg (running_on d scenario_isolate) d (start0 + 48)
    ≠ LookupBuiltin 2 ∧
    TryLookupCode example_cfg (running_on d scenario_isolate) d (start0 + 64)
    = LookupBuiltin 2.
Proof.
  destruct (FromIsolate example_cfg example_os scenario_isolate empty_world)
    as [d w'| |] eqn:Hrun; [|by vm_compute in Hrun..].
  exists d, w'. vm_compute in Hrun. injection Hrun as <- <-.
  eexists. split; [reflexivity|]. split; [reflexivity|].
  split; [reflexivity|]. split; [discriminate|reflexivity].
Qed.

(** ** The relocation fixer as a list of patches *)

Lemma apply_patches_length ps buffer buffer' :
  apply_patches ps buffer = Some buffer' → length buffer' = length buffer.
Proof.
  revert buffer. induction ps as [|[off bytes] ps IH]; intros buffer H.
  - by injection H as <-.
  - simpl in H. destruct (memcpy buffer off bytes) as [b1|] eqn:Hcopy; [|done].
    rewrite (IH _ H). by eapply memcpy_length.
Qed.

Lemma apply_patches_app ps qs buffer :
  apply_patches (ps ++ qs) buffer
  = match apply_patches ps buffer with
    | Some buffer' => apply_patches qs buffer'
    | None => None
    end.
Proof.
  revert buffer. induction ps as [|[off bytes] ps IH]; intros buffer; [done|].
  simpl. destruct (memcpy buffer off bytes); [apply IH|done].
Qed.

Lemma apply_patches_lookup ps buffer buffer' k :
  apply_patches ps buffer = Some buffer' →
  buffer' !! k
  = match patched ps k with Some v => Some v | None => buffer !! k end.
Proof.
  revert buffer. induction ps as [|[off bytes] ps IH]; intros buffer H.
  - by injection H as <-.
  - simpl in H. destruct (memcpy buffer off bytes) as [b1|] eqn:Hcopy; [|done].
    rewrite (IH _ H). simpl. destruct (patched ps k); [done|].
    rewrite (memcpy_lookup _ _ _ _ k Hcopy).
    case_decide as Hk; [|done].
    destruct (bytes !! (k - off)%nat) eqn:Hb; [done|].
    apply lookup_ge_None in Hb. lia.
Qed.

(** Whether the patches can be applied depends on the size of the buffer
    only. *)
Lemma apply_patches_defined ps buffer buffer' other :
  apply_patches ps buffer = Some buffer' → length other = length buffer →
  is_Some (apply_patches ps other).
Proof.
  revert buffer other. induction ps as [|[off bytes] ps IH];
    intros buffer other H Hlen; [by eexists|].
  simpl in *. destruct (memcpy buffer off bytes) as [b1|] eqn:Hcopy; [|done].
  pose proof (memcpy_bounds _ _ _ _ Hcopy) as Hin.
  unfold memcpy. rewrite decide_True by lia.
  apply (IH b1); [done|].
  rewrite (memcpy_length _ _ _ _ Hcopy), !length_app, length_take, length_drop.
  lia.
Qed.

(** Applying the patches to a patched buffer changes nothing. *)
Lemma apply_patches_idempotent ps buffer buffer' :
  apply_patches ps buffer = Some buffer' →
  apply_patches ps buffer' = Some buffer'.
Proof.
  intros H.
  destruct (apply_patches_defined ps buffer buffer' buffer' H
              (apply_patches_length _ _ _ H)) as [again Hagain].
  rewrite Hagain. f_equal. apply list_eq. intros k.
  rewrite (apply_patches_lookup _ _ _ k Hagain),
    (apply_patches_lookup _ _ _ k H).
  by destruct (patched ps k).
Qed.

Lemma read_bytes_memcpy_same buffer off src buffer' :
  memcpy buffer off src = Some buffer' →
  read_bytes buffer' off (length src) = Some src.
Proof.
  intros H. pose proof (memcpy_length _ _ _ _ H) as Hlen.
  pose proof (memcpy_bounds _ _ _ _ H) as Hin.
  unfold memcpy in H. rewrite decide_True in H by done. injection H as <-.
  unfold read_bytes. rewrite decide_True by lia. f_equal.
  rewrite drop_app_length' by (rewrite length_take; lia).
  by rewrite take_app_length.
Qed.

Lemma read_bytes_memcpy_disjoint buffer off src buffer' o n :
  memcpy buffer off src = Some buffer' →
  (off + length src ≤ o)%nat ∨ (o + n ≤ off)%nat →
  read_bytes buffer' o n = read_bytes buffer o n.
Proof.
  intros H Hdisjoint. pose proof (memcpy_length _ _ _ _ H) as Hlen.
  unfold read_bytes. rewrite Hlen. case_decide as Hin; [|done].
  f_equal. apply list_eq. intros j.
  destruct (decide (j < n)%nat) as [Hj|Hj].
  - rewrite !lookup_take_lt, !lookup_drop by done.
    rewrite (memcpy_lookup _ _ _ _ (o + j) H).
    by rewrite decide_False by lia.
  - by rewrite !lookup_take_ge by lia.
Qed.

Lemma apply_patches_preserves ps buffer buffer' o n :
  apply_patches ps buffer = Some buffer' →
  (∀ p, p ∈ ps → (p.1 + length p.2 ≤ o)%nat ∨ (o + n ≤ p.1)%nat) →
  read_bytes buffer' o n = read_bytes buffer o n.
Proof.
  revert buffer. induction ps as [|[off bytes] ps IH]; intros buffer H Hps.
  - by injection H as <-.
  - simpl in H. destruct (memcpy buffer off bytes) as [b1|] eqn:Hcopy; [|done].
    rewrite (IH b1 H) by (intros p Hp; apply Hps; by apply list_elem_of_further).
    apply (read_bytes_memcpy_disjoint _ _ _ _ _ _ Hcopy).
    apply (Hps (off, bytes)). apply list_elem_of_here.
Qed.

(** When the patches do not overlap, every slot holds its bytes in the end. *)
Lemma apply_patches_slots ps buffer buffer' k off bytes :
  apply_patches ps buffer = Some buffer' → pairwise_disjoint ps →
  ps !! k = Some (off, bytes) →
  read_bytes buffer' off (length bytes) = Some bytes.
Proof.
  revert buffer k. induction ps as [|[off0 bytes0] ps IH];
    intros buffer k H Hdisjoint Hk; [done|].
  simpl in H. destruct (memcpy buffer off0 bytes0) as [b1|] eqn:Hcopy; [|done].
  destruct k as [|k].
  - injection Hk as -> ->.
    rewrite (apply_patches_preserves ps b1 buffer' off (length bytes) H).
    + by apply read_bytes_memcpy_same in Hcopy.
    + intros p [j Hj]%list_elem_of_lookup.
      destruct (Hdisjoint (S j) 0%nat p (off, bytes) ltac:(lia) Hj eq_refl)
        as [?|?]; simpl in *; [by left|by right].
  - apply (IH b1 k H); [|done].
    intros i j p q Hij Hi Hj.
    apply (Hdisjoint (S i) (S j)); [lia|done..].
Qed.

Lemma same_frame_eta blob blob' :
  same_frame blob blob' → blob' = with_code_bytes (code_bytes blob') blob.
Proof.
  intros (Hc & Hm & Hb & _). destruct blob, blob'. unfold with_code_bytes.
  simpl in *. congruence.
Qed.

Lemma same_frame_with_code_bytes blob bytes :
  length bytes = length (code_bytes blob) →
  same_frame blob (with_code_bytes bytes blob).
Proof. intros Hlen. by repeat split. Qed.

Section Patches.
Context (cfg : Config) (isolate : Isolate).

Lemma patch_of_same_frame blob blob' start e :
  same_frame blob blob' →
  patch_of cfg isolate blob' start e = patch_of cfg isolate blob start e.
Proof.
  intros Hframe. unfold patch_of.
  rewrite (same_frame_InstructionStartOfBuiltin cfg blob blob' _ Hframe).
  destruct Hframe as (-> & _). done.
Qed.

Lemma entry_patches_same_frame blob blob' start entries :
  same_frame blob blob' →
  entry_patches cfg isolate blob' start entries
  = entry_patches cfg isolate blob start entries.
Proof.
  intros Hframe. induction entries as [|e entries IH]; [done|].
  simpl. by rewrite IH, (patch_of_same_frame blob blob').
Qed.

Lemma unit_patches_same_frame blob blob' i :
  same_frame blob blob' →
  unit_patches cfg isolate blob' i = unit_patches cfg isolate blob i.
Proof.
  intros Hframe. unfold unit_patches.
  rewrite (same_frame_InstructionStartOfBuiltin cfg blob blob' _ Hframe).
  destruct (InstructionStartOfBuiltin cfg blob _); [|done].
  by apply entry_patches_same_frame.
Qed.

Lemma patches_from_same_frame blob blob' lo n :
  same_frame blob blob' →
  patches_from cfg isolate blob' lo n = patches_from cfg isolate blob lo n.
Proof.
  intros Hframe. revert lo. induction n as [|n IH]; intros lo; [done|].
  simpl. by rewrite IH, (unit_patches_same_frame blob blob').
Qed.

(** One round of the loop over the records, when it succeeds. *)
Lemma set_target_address_skip_memcpy blob start e target_start bytes w :
  0 ≤ start + Z.of_nat (entry_pc_offset e) - code_ blob →
  memcpy (code_bytes blob)
    (Z.to_nat (start + Z.of_nat (entry_pc_offset e) - code_ blob))
    (set_target_address_at cfg (entry_rmode e)
       (start + Z.of_nat (entry_pc_offset e)) target_start) = Some bytes →
  set_target_address cfg blob (off_heap_RelocInfo start e) target_start
    SKIP_WRITE_BARRIER w
  = Ok (with_code_bytes bytes blob) w.
Proof.
  intros Hslot Hcopy. unfold set_target_address, bind, defined. simpl.
  rewrite decide_True by done. by rewrite Hcopy.
Qed.

Lemma fix_targets_Ok_iff code start entries blob blob' w w' :
  fix_targets cfg isolate (on_heap_RelocInfo code <$> entries)
    (off_heap_RelocInfo start <$> entries) blob w = Ok blob' w' ↔
  w' = w ∧ same_frame blob blob' ∧
  (∀ e, e ∈ entries →
     IsIsolateIndependentBuiltin cfg
       (GetCodeFromTargetAddress isolate (entry_target_address e)) = true) ∧
  ∃ ps, entry_patches cfg isolate blob start entries = Some ps ∧
        apply_patches ps (code_bytes blob) = Some (code_bytes blob').
Proof.
  revert blob w. induction entries as [|e entries IH]; intros blob w.
  - simpl. unfold ret. split.
    + intros [= <- <-]. split; [done|]. split; [apply same_frame_refl|].
      split; [by intros e ?%not_elem_of_nil|]. by exists [].
    + intros (-> & Hframe & _ & ps & [= <-] & [= Hcode]).
      rewrite (same_frame_eta _ _ Hframe), <- Hcode. by destruct blob.
  - rewrite !fmap_cons. cbn [fix_targets entry_patches].
    unfold patch_of. cbn [target_address on_heap_RelocInfo].
    split.
    + intros H.
      apply bind_Ok in H as ([] & w1 & Hcheck & H).
      apply CHECK_Ok in Hcheck as [Hcheck ->].
      apply bind_Ok in H as (target_start & w1 & Hstart & H).
      apply defined_Ok in Hstart as [Hstart ->].
      apply bind_Ok in H as (blob1 & w1 & Hset & H).
      pose proof (set_target_address_skip_frame _ _ _ _ _ _ _ Hset)
        as [Hframe1 _].
      apply set_target_address_skip_Ok in Hset as (-> & Hslot & _ & Hcopy).
      apply IH in H as (-> & Hframe & Hchecks & ps & Hps & Happly).
      split; [done|]. split; [by eapply same_frame_trans|]. split.
      { intros e' [->|He']%elem_of_cons; [done|by apply Hchecks]. }
      rewrite Hstart. cbn [off_heap_pc off_heap_rmode off_heap_RelocInfo] in *.
      rewrite decide_True by done.
      rewrite (entry_patches_same_frame blob blob1) in Hps by done.
      rewrite Hps. eexists. split; [done|]. cbn [apply_patches].
      by rewrite Hcopy.
    + intros (-> & Hframe & Hchecks & ps & Hps & Happly).
      destruct (InstructionStartOfBuiltin cfg blob _) as [target_start|] eqn:Hstart;
        [|done].
      case_decide as Hslot; [|done].
      destruct (entry_patches cfg isolate blob start entries) as [ps'|] eqn:Hps';
        [|done].
      injection Hps as <-. cbn [apply_patches] in Happly.
      destruct (memcpy _ _ _) as [bytes|] eqn:Hcopy; [|done].
      unfold bind at 1. unfold CHECK.
      rewrite (Hchecks e) by apply list_elem_of_here.
      unfold bind at 1. unfold defined. 
      unfold bind at 1.
      rewrite (set_target_address_skip_memcpy blob start e target_start bytes)
        by done.
      assert (same_frame blob (with_code_bytes bytes blob)) as Hframe1
        by (apply same_frame_with_code_bytes; by eapply memcpy_length).
      apply IH. split; [done|]. split.
      { destruct Hframe as (?&?&?&?), Hframe1 as (?&?&?&?).
        repeat split; congruence. }
      split; [intros e' He'; apply Hchecks; by apply list_elem_of_further|].
      exists ps'. split; [|done].
      by rewrite (entry_patches_same_frame blob).
Qed.
End Patches.

Lemma bind_Fatal {A B} (m : M A) (k : A → M B) w msg w1 :
  bind m k w = Fatal msg w1 →
  m w = Fatal msg w1 ∨ ∃ a w0, m w = Ok a w0 ∧ k a w0 = Fatal msg w1.
Proof.
  unfold bind. destruct (m w) as [a w0|msg0 w0|]; [eauto|intros [= -> ->]; eauto|done].
Qed.

Lemma defined_not_Fatal {A} (o : option A) w msg w1 : defined o w ≠ Fatal msg w1.
Proof. unfold defined. by destruct o. Qed.

Lemma CHECK_Fatal cond text w msg w1 :
  CHECK cond text w = Fatal msg w1 → cond = false ∧ msg = text ∧ w1 = w.
Proof. unfold CHECK. destruct cond; [done|]. by intros [= -> ->]. Qed.

Lemma for_loop_M_Fatal {S : Type} (P : S → World → Prop)
    (body : nat → S → M S) :
  (∀ i s w s' w', P s w → body i s w = Ok s' w' → P s' w') →
  ∀ n lo s w msg w1,
    P s w → for_loop_M body lo n s w = Fatal msg w1 →
    ∃ i s0 w0, (lo ≤ i < lo + n)%nat ∧ P s0 w0 ∧ body i s0 w0 = Fatal msg w1.
Proof.
  intros Hbody. induction n as [|n IH]; intros lo s w msg w1 HP Hrun; [done|].
  simpl in Hrun. apply bind_Fatal in Hrun as [Hstep|(s1 & w0 & Hstep & Hrest)].
  - exists lo, s, w. split; [lia|done].
  - destruct (IH (Datatypes.S lo) s1 w0 msg w1)
      as (i & s0 & w2 & Hi & HP0 & Hfatal);
      [by eapply Hbody|done|].
    exists i, s0, w2. split; [lia|done].
Qed.

Section FixerSpec.
Context (cfg : Config) (isolate : Isolate).

Let N := builtin_count (builtins isolate).

Lemma finalize_step_direct_Ok_iff i blob blob' w w' :
  direct_code_targets cfg = true →
  finalize_step cfg isolate i blob w = Ok blob' w' ↔
  w' = w ∧ same_frame blob blob' ∧
  (∀ e, e ∈ code_target_entries (builtin (builtins isolate) i) →
     IsIsolateIndependentBuiltin cfg
       (GetCodeFromTargetAddress isolate (entry_target_address e)) = true) ∧
  ∃ ps, unit_patches cfg isolate blob i = Some ps ∧
        apply_patches ps (code_bytes blob) = Some (code_bytes blob').
Proof.
  intros Hdirect. unfold finalize_step, unit_patches, RelocIterator_embedded,
    RelocIterator. rewrite Hdirect.
  destruct (InstructionStartOfBuiltin cfg blob _) as [start|]; simpl.
  - unfold bind, defined. apply fix_targets_Ok_iff.
  - unfold bind, defined. split; [done|]. by intros (_ & _ & _ & ps & ? & _).
Qed.

Lemma finalize_loop_direct_Ok_iff n lo blob blob' w w' :
  direct_code_targets cfg = true →
  for_loop_M (finalize_step cfg isolate) lo n blob w = Ok blob' w' ↔
  w' = w ∧ same_frame blob blob' ∧ targets_relocatable cfg isolate lo n ∧
  ∃ ps, patches_from cfg isolate blob lo n = Some ps ∧
        apply_patches ps (code_bytes blob) = Some (code_bytes blob').
Proof.
  intros Hdirect. revert lo blob w.
  induction n as [|n IH]; intros lo blob w.
  - simpl. unfold ret. split.
    + intros [= <- <-]. split; [done|]. split; [apply same_frame_refl|].
      split; [intros i e Hi; lia|]. by exists [].
    + intros (-> & Hframe & _ & ps & [= <-] & [= Hcode]).
      rewrite (same_frame_eta _ _ Hframe), <- Hcode. by destruct blob.
  - cbn [for_loop_M patches_from]. split.
    + intros H. apply bind_Ok in H as (blob1 & w1 & Hstep & H).
      apply (finalize_step_direct_Ok_iff _ _ _ _ _ Hdirect) in Hstep
        as (-> & Hframe1 & Hchecks1 & ps1 & Hps1 & Happly1).
      apply IH in H as (-> & Hframe & Hchecks & ps & Hps & Happly).
      split; [done|]. split; [by eapply same_frame_trans|]. split.
      { intros i e Hi He. destruct (decide (i = lo)) as [->|Hne].
        - by apply Hchecks1.
        - apply (Hchecks i); [lia|done]. }
      rewrite Hps1. rewrite (patches_from_same_frame cfg isolate blob blob1) in Hps
        by done.
      rewrite Hps. eexists. split; [done|].
      by rewrite apply_patches_app, Happly1.
    + intros (-> & Hframe & Hchecks & ps & Hps & Happly).
      destruct (unit_patches cfg isolate blob lo) as [ps1|] eqn:Hps1; [|done].
      destruct (patches_from cfg isolate blob (S lo) n) as [rest|] eqn:Hrest;
        [|done].
      injection Hps as <-. rewrite apply_patches_app in Happly.
      destruct (apply_patches ps1 (code_bytes blob)) as [bytes|] eqn:Happly1;
        [|done].
      assert (same_frame blob (with_code_bytes bytes blob)) as Hframe1
        by (apply same_frame_with_code_bytes; by eapply apply_patches_length).
      assert (finalize_step cfg isolate lo blob w
              = Ok (with_code_bytes bytes blob) w) as Hstep.
      { apply (finalize_step_direct_Ok_iff _ _ _ _ _ Hdirect).
        split; [done|]. split; [done|]. split.
        - intros e He. apply (Hchecks lo); [lia|done].
        - by exists ps1. }
      unfold bind. rewrite Hstep. apply IH.
      split; [done|]. split.
      { destruct Hframe as (?&?&?&?), Hframe1 as (?&?&?&?).
        repeat split; congruence. }
      split; [intros i e Hi He; apply (Hchecks i); [lia|done]|].
      exists rest. split; [|done].
      by rewrite (patches_from_same_frame cfg isolate blob).
Qed.

Lemma fix_targets_Fatal code start entries blob w msg w1 :
  fix_targets cfg isolate (on_heap_RelocInfo code <$> entries)
    (off_heap_RelocInfo start <$> entries) blob w = Fatal msg w1 →
  msg = target_check_message ∧ w1 = w ∧
  ∃ e, e ∈ entries ∧
    IsIsolateIndependentBuiltin cfg
      (GetCodeFromTargetAddress isolate (entry_target_address e)) = false.
Proof.
  revert blob. induction entries as [|e entries IH]; intros blob H; [done|].
  rewrite !fmap_cons in H. cbn [fix_targets] in H.
  apply bind_Fatal in H as [H|([] & w0 & Hcheck & H)].
  - apply CHECK_Fatal in H as (Hcheck & -> & ->).
    split; [done|]. split; [done|]. exists e. split; [apply list_elem_of_here|done].
  - apply CHECK_Ok in Hcheck as [_ ->].
    apply bind_Fatal in H as [H|(target_start & w0 & Hstart & H)];
      [by apply defined_not_Fatal in H|].
    apply defined_Ok in Hstart as [_ ->].
    apply bind_Fatal in H as [H|(blob1 & w0 & Hset & H)].
    + unfold set_target_address in H.
      apply bind_Fatal in H as [H|(bytes & w0 & _ & H)];
        [by apply defined_not_Fatal in H|done].
    + apply set_target_address_skip_frame in Hset as [_ ->].
      destruct (IH blob1 H) as (-> & -> & e' & He' & Hfail).
      split; [done|]. split; [done|]. exists e'.
      split; [by apply list_elem_of_further|done].
Qed.

Lemma FinalizeEmbeddedCodeTargets_direct_Fatal blob w msg w1 :
  direct_code_targets cfg = true →
  FinalizeEmbeddedCodeTargets cfg isolate blob w = Fatal msg w1 →
  msg = target_check_message ∧ w1 = w ∧ ¬ targets_relocatable cfg isolate 0 N.
Proof.
  intros Hdirect H. unfold FinalizeEmbeddedCodeTargets in H.
  apply (for_loop_M_Fatal (fun _ v => v = w)) in H
    as (i & blob0 & w0 & Hi & -> & Hstep); [| |done].
  - unfold finalize_step in Hstep. rewrite Hdirect in Hstep.
    apply bind_Fatal in Hstep as [Hstep|(off_heap_it & w0 & Hit & Hstep)];
      [by apply defined_not_Fatal in Hstep|].
    apply defined_Ok in Hit as [Hit ->].
    unfold RelocIterator_embedded in Hit.
    destruct (InstructionStartOfBuiltin cfg blob0 _) as [start|]; [|done].
    injection Hit as <-.
    apply fix_targets_Fatal in Hstep as (-> & -> & e & He & Hfail).
    split; [done|]. split; [done|].
    intros Hall. rewrite (Hall i e) in Hfail; [done|fold N; lia|done].
  - intros i s v s' v' -> Hstep.
    by apply finalize_step_frame in Hstep as [_ ->].
Qed.

Lemma finalize_step_indirect_Ok_iff i blob blob' w w' :
  direct_code_targets cfg = false →
  finalize_step cfg isolate i blob w = Ok blob' w' ↔
  blob' = blob ∧ w' = w ∧
  is_Some (InstructionStartOfBuiltin cfg blob
             (builtin_index (builtin (builtins isolate) i))) ∧
  code_target_entries (builtin (builtins isolate) i) = [].
Proof.
  intros Hdirect. unfold finalize_step, RelocIterator_embedded, RelocIterator.
  rewrite Hdirect. fold (code_target_entries (builtin (builtins isolate) i)).
  destruct (InstructionStartOfBuiltin cfg blob _) as [start|]; simpl.
  - unfold bind, defined, CHECK, ret.
    destruct (code_target_entries _) as [|e entries]; simpl.
    + split; [intros [= <- <-]; eauto|]. by intros (-> & -> & _).
    + split; [done|]. by intros (_ & _ & _ & ?).
  - unfold bind, defined. split; [done|]. by intros (_ & _ & [? ?] & _).
Qed.

Lemma finalize_loop_indirect_Ok n lo blob blob' w w' :
  direct_code_targets cfg = false →
  for_loop_M (finalize_step cfg isolate) lo n blob w = Ok blob' w' →
  blob' = blob ∧ w' = w ∧
  ∀ i, (lo ≤ i < lo + n)%nat →
    code_target_entries (builtin (builtins isolate) i) = [].
Proof.
  intros Hdirect. revert lo. induction n as [|n IH]; intros lo H.
  - apply ret_Ok in H as [-> ->]. split; [done|]. split; [done|]. intros i Hi. lia.
  - simpl in H. apply bind_Ok in H as (blob1 & w1 & Hstep & H).
    apply (finalize_step_indirect_Ok_iff _ _ _ _ _ Hdirect) in Hstep
      as (-> & -> & _ & Hnone).
    apply IH in H as (-> & -> & Hrest).
    split; [done|]. split; [done|].
    intros i Hi. destruct (decide (i = lo)) as [->|Hne]; [done|].
    apply Hrest. lia.
Qed.

Lemma finalize_loop_indirect_Fatal n lo blob w :
  direct_code_targets cfg = false →
  (∀ i, (lo ≤ i < lo + n)%nat →
     is_Some (InstructionStartOfBuiltin cfg blob
                (builtin_index (builtin (builtins isolate) i)))) →
  (∃ i, (lo ≤ i < lo + n)%nat ∧
     code_target_entries (builtin (builtins isolate) i) ≠ []) →
  for_loop_M (finalize_step cfg isolate) lo n blob w
  = Fatal on_heap_done_message w.
Proof.
  intros Hdirect. revert lo. induction n as [|n IH]; intros lo Hcovers Hsome.
  - destruct Hsome as (i & Hi & _). lia.
  - simpl. unfold bind.
    destruct (decide (code_target_entries (builtin (builtins isolate) lo) = []))
      as [Hnone|Hrecord].
    + assert (finalize_step cfg isolate lo blob w = Ok blob w) as ->.
      { apply finalize_step_indirect_Ok_iff; [done|].
        split; [done|]. split; [done|]. split; [apply Hcovers; lia|done]. }
      apply IH; [intros i Hi; apply Hcovers; lia|].
      destruct Hsome as (i & Hi & Hrecord). exists i. split; [|done].
      destruct (decide (i = lo)) as [->|]; [done|lia].
    + unfold finalize_step, RelocIterator_embedded, RelocIterator.
      rewrite Hdirect.
      fold (code_target_entries (builtin (builtins isolate) lo)).
      destruct (Hcovers lo ltac:(lia)) as [start ->]. simpl.
      unfold bind, defined, CHECK.
      destruct (code_target_entries _) as [|e entries]; [done|]. done.
Qed.
End FixerSpec.

Lemma mode_in_kRelocMask m :
  mode_in_mask kRelocMask m = true ↔ m = CODE_TARGET ∨ m = RELATIVE_CODE_TARGET.
Proof.
  destruct m; vm_compute; split; auto; try discriminate;
    intros [?|?]; discriminate.
Qed.

Lemma entry_patches_lookup cfg isolate blob start entries ps e :
  entry_patches cfg isolate blob start entries = Some ps → e ∈ entries →
  ∃ k p, ps !! k = Some p ∧ patch_of cfg isolate blob start e = Some p.
Proof.
  revert ps. induction entries as [|e0 entries IH]; intros ps Hps He.
  - by apply not_elem_of_nil in He.
  - simpl in Hps.
    destruct (patch_of cfg isolate blob start e0) as [p0|] eqn:Hp0; [|done].
    destruct (entry_patches cfg isolate blob start entries) as [ps'|]; [|done].
    injection Hps as <-. apply elem_of_cons in He as [->|He].
    + by exists 0%nat, p0.
    + destruct (IH ps' eq_refl He) as (k & p & Hk & Hp).
      by exists (S k), p.
Qed.

Lemma patches_from_lookup cfg isolate blob lo n ps i e start :
  patches_from cfg isolate blob lo n = Some ps → (lo ≤ i < lo + n)%nat →
  e ∈ code_target_entries (builtin (builtins isolate) i) →
  InstructionStartOfBuiltin cfg blob
    (builtin_index (builtin (builtins isolate) i)) = Some start →
  ∃ k p, ps !! k = Some p ∧ patch_of cfg isolate blob start e = Some p.
Proof.
  revert lo ps. induction n as [|n IH]; intros lo ps Hps Hi He Hstart; [lia|].
  simpl in Hps.
  destruct (unit_patches cfg isolate blob lo) as [ps1|] eqn:Hps1; [|done].
  destruct (patches_from cfg isolate blob (S lo) n) as [rest|] eqn:Hrest;
    [|done].
  injection Hps as <-. destruct (decide (i = lo)) as [->|Hne].
  - unfold unit_patches in Hps1. rewrite Hstart in Hps1.
    destruct (entry_patches_lookup _ _ _ _ _ _ _ Hps1 He) as (k & p & Hk & Hp).
    exists k, p. split; [|done]. by apply lookup_app_l_Some.
  - destruct (IH (S lo) rest Hrest ltac:(lia) He Hstart) as (k & p & Hk & Hp).
    exists (length ps1 + k)%nat, p. split; [|done].
    by rewrite lookup_app_r, Nat.add_comm, Nat.add_sub by lia.
Qed.

(** C5. For every builtin the two iterators, filtered to code targets and
    relative code targets, yield the same number of records with the same
    kinds. On a target with direct code targets a run of the fixer that
    returns has checked that every target is an isolate-independent builtin,
    has recorded no write barrier and has changed nothing but code bytes: the
    result is the code buffer with the patches applied in order, and, the
    slots being disjoint, every slot holds the encoding of the instruction
    start, in the blob, of the builtin the on-heap record points to; a fatal
    failure is the failed check of a target. On the other targets the fixer
    returns only when no builtin has such a record, with the blob unchanged,
    and fails fatally when one has. *)
Theorem FinalizeEmbeddedCodeTargets_fixes_code_targets
    (cfg : Config) (isolate : Isolate) (blob : EmbeddedData) (w : World) :
  let N := builtin_count (builtins isolate) in
  let outcome := FinalizeEmbeddedCodeTargets cfg isolate blob w in
  (∀ i off_heap_it,
     RelocIterator_embedded cfg blob (builtin (builtins isolate) i) kRelocMask
     = Some off_heap_it →
     length off_heap_it
     = length (RelocIterator (builtin (builtins isolate) i) kRelocMask) ∧
     off_heap_rmode <$> off_heap_it
     = rmode <$> RelocIterator (builtin (builtins isolate) i) kRelocMask ∧
     ∀ rinfo, rinfo ∈ RelocIterator (builtin (builtins isolate) i) kRelocMask →
       rmode rinfo = CODE_TARGET ∨ rmode rinfo = RELATIVE_CODE_TARGET) ∧
  (direct_code_targets cfg = true →
   (∀ blob' w', outcome = Ok blob' w' →
      w' = w ∧ same_frame blob blob' ∧
      targets_relocatable cfg isolate 0 N ∧
      ∃ ps, all_patches cfg isolate blob = Some ps ∧
        apply_patches ps (code_bytes blob) = Some (code_bytes blob') ∧
        (pairwise_disjoint ps →
         ∀ i e start target_start,
           (i < N)%nat →
           e ∈ code_target_entries (builtin (builtins isolate) i) →
           InstructionStartOfBuiltin cfg blob
             (builtin_index (builtin (builtins isolate) i)) = Some start →
           InstructionStartOfBuiltin cfg blob
             (builtin_index
                (GetCodeFromTargetAddress isolate (entry_target_address e)))
           = Some target_start →
           let pc := start + Z.of_nat (entry_pc_offset e) in
           let bytes := set_target_address_at cfg (entry_rmode e) pc target_start in
           0 ≤ pc - code_ blob ∧
           read_bytes (code_bytes blob') (Z.to_nat (pc - code_ blob))
             (length bytes) = Some bytes)) ∧
   (∀ msg w1, outcome = Fatal msg w1 →
      msg = target_check_message ∧ w1 = w ∧
      ¬ targets_relocatable cfg isolate 0 N)) ∧
  (direct_code_targets cfg = false →
   (∀ blob' w', outcome = Ok blob' w' →
      blob' = blob ∧ w' = w ∧
      ∀ i, (i < N)%nat →
        RelocIterator (builtin (builtins isolate) i) kRelocMask = []) ∧
   (table_covers cfg isolate blob →
    (∃ i, (i < N)%nat ∧
       RelocIterator (builtin (builtins isolate) i) kRelocMask ≠ []) →
    outcome = Fatal on_heap_done_message w)).
Proof.
  intros N outcome. split; [|split].
  - intros i off_heap_it Hit. unfold RelocIterator_embedded in Hit.
    destruct (InstructionStartOfBuiltin cfg blob _) as [start|]; [|done].
    injection Hit as <-. unfold RelocIterator.
    split; [by rewrite !length_fmap|]. split.
    + rewrite <- !list_fmap_compose. by apply list_fmap_ext.
    + intros rinfo (e & -> & He)%list_elem_of_fmap.
      apply list_elem_of_filter in He as [He _].
      by apply mode_in_kRelocMask.
  - intros Hdirect. split.
    + intros blob' w' Hrun. unfold outcome, FinalizeEmbeddedCodeTargets in Hrun.
      apply (finalize_loop_direct_Ok_iff _ _ _ _ _ _ _ _ Hdirect) in Hrun
        as (-> & Hframe & Hchecks & ps & Hps & Happly).
      split; [done|]. split; [done|]. split; [done|].
      exists ps. split; [done|]. split; [done|].
      intros Hdisjoint i e start target_start Hi He Hstart Htarget pc bytes.
      assert (0 ≤ i < 0 + builtin_count (builtins isolate))%nat as Hi'
        by (fold N; lia).
      destruct (patches_from_lookup _ _ _ _ _ _ _ _ _ Hps Hi' He Hstart)
        as (k & p & Hk & Hp).
      unfold patch_of in Hp. rewrite Htarget in Hp.
      fold pc in Hp. case_decide as Hslot; [|done].
      injection Hp as <-. split; [done|].
      by apply (apply_patches_slots ps (code_bytes blob) _ k).
    + intros msg w1 Hrun.
      by apply (FinalizeEmbeddedCodeTargets_direct_Fatal cfg isolate blob).
  - intros Hdirect. split.
    + intros blob' w' Hrun. unfold outcome, FinalizeEmbeddedCodeTargets in Hrun.
      apply (finalize_loop_indirect_Ok _ _ _ _ _ _ _ _ Hdirect) in Hrun
        as (-> & -> & Hnone).
      split; [done|]. split; [done|]. intros i Hi.
      unfold RelocIterator.
      fold (code_target_entries (builtin (builtins isolate) i)).
      rewrite Hnone by (fold N; lia). done.
    + intros Hcovers (i & Hi & Hrecord).
      apply (finalize_loop_indirect_Fatal cfg isolate); [done| |].
      * intros j Hj. apply Hcovers. lia.
      * exists i. split; [lia|]. intros Hnone. apply Hrecord.
        unfold RelocIterator.
        fold (code_target_entries (builtin (builtins isolate) i)).
        by rewrite Hnone.
Qed.

(** C8. When the fixer returns, running it again on its result, with the same
    isolate, returns the same blob: the second run changes no byte. *)
Theorem FinalizeEmbeddedCodeTargets_idempotent
    (cfg : Config) (isolate : Isolate) (blob blob' : EmbeddedData)
    (w w' : World) :
  FinalizeEmbeddedCodeTargets cfg isolate blob w = Ok blob' w' →
  FinalizeEmbeddedCodeTargets cfg isolate blob' w' = Ok blob' w'.
Proof.
  intros Hrun. unfold FinalizeEmbeddedCodeTargets in *.
  destruct (direct_code_targets cfg) eqn:Hdirect.
  - apply (finalize_loop_direct_Ok_iff _ _ _ _ _ _ _ _ Hdirect) in Hrun
      as (-> & Hframe & Hchecks & ps & Hps & Happly).
    apply (finalize_loop_direct_Ok_iff _ _ _ _ _ _ _ _ Hdirect).
    split; [done|]. split; [apply same_frame_refl|]. split; [done|].
    exists ps. split.
    + by rewrite (patches_from_same_frame cfg isolate blob).
    + by eapply apply_patches_idempotent.
  - pose proof Hrun as Hagain.
    apply (finalize_loop_indirect_Ok _ _ _ _ _ _ _ _ Hdirect) in Hrun
      as (-> & -> & _).
    exact Hagain.
Qed.

Lemma pairwise_disjoint_two (p q : Patch) :
  disjoint_patches p q → pairwise_disjoint [p; q].
Proof.
  intros Hpq i j p' q' Hij Hi Hj.
  destruct i as [|[|i]], j as [|[|j]]; simpl in Hi, Hj; try done.
  - by injection Hi as <-; injection Hj as <-.
  - injection Hi as <-; injection Hj as <-.
    destruct Hpq; [by right|by left].
Qed.

Lemma FinalizeEmbeddedCodeTargets_idempotent_witness :
  ∃ blob',
    FinalizeEmbeddedCodeTargets example_cfg scenario_isolate
      zapped_scenario_blob empty_world = Ok blob' empty_world ∧
    FinalizeEmbeddedCodeTargets example_cfg scenario_isolate blob' empty_world
    = Ok blob' empty_world ∧
    code_bytes blob' ≠ code_bytes zapped_scenario_blob.
Proof.
  destruct (FinalizeEmbeddedCodeTargets example_cfg scenario_isolate
              zapped_scenario_blob empty_world) as [blob' w'| |] eqn:Hrun;
    [|by vm_compute in Hrun..].
  pose proof (FinalizeEmbeddedCodeTargets_idempotent _ _ _ _ _ _ Hrun) as Hagain.
  vm_compute in Hrun. injection Hrun as <- <-.
  eexists. split; [reflexivity|]. split; [exact Hagain|].
  vm_compute. discriminate.
Defined.

Lemma FinalizeEmbeddedCodeTargets_fixes_code_targets_witness :
  ∃ blob',
    FinalizeEmbeddedCodeTargets example_cfg scenario_isolate
      zapped_scenario_blob empty_world = Ok blob' empty_world ∧
    read_bytes (code_bytes blob') 17 4 = Some [43; 0; 0; 0].
Proof.
  destruct (FinalizeEmbeddedCodeTargets example_cfg scenario_isolate
              zapped_scenario_blob empty_world) as [blob' w'| |] eqn:Hrun;
    [|by vm_compute in Hrun..].
  destruct (FinalizeEmbeddedCodeTargets_fixes_code_targets example_cfg
              scenario_isolate zapped_scenario_blob empty_world)
    as (_ & Hdirect & _).
  destruct (Hdirect eq_refl) as [Hok _].
  destruct (Hok blob' w' Hrun) as (-> & _ & _ & ps & Hps & _ & Hslots).
  exists blob'. split; [reflexivity|].
  vm_compute in Hps. injection Hps as <-.
  refine (proj2 (Hslots _ 1%nat
                   {| entry_rmode := CODE_TARGET; entry_pc_offset := 1;
                      entry_target_address := 12288 |}
                   65552 65600 _ _ _ _)).
  - apply pairwise_disjoint_two. left. simpl. lia.
  - simpl. lia.
  - vm_compute. apply list_elem_of_here.
  - reflexivity.
  - reflexivity.
Defined.

(** ** The page allocator and the life cycle of the re-hosted blob *)

Lemma RoundUp_bounds x m :
  0 < m → 0 ≤ x → x + m ≤ 2 ^ 32 →
  x ≤ RoundUp x m < x + m ∧ (m | RoundUp x m).
Proof.
  intros Hm Hx Hfit. unfold RoundUp.
  pose proof (Z.div_mod (x + (m - 1)) m ltac:(lia)) as Hdiv.
  pose proof (Z.mod_pos_bound (x + (m - 1)) m Hm) as Hmod.
  rewrite wrap32_small by nia.
  split; [nia|]. by exists ((x + (m - 1)) / m).
Qed.

Section Lifecycle.
Context (cfg : Config) (os : Platform).

Lemma AllocatePages_Ok hint size alignment access p w w' :
  AllocatePages os hint size alignment access w = Ok p w' →
  p = allocate_pages os (pages w) hint size alignment access ∧
  w' = match p with
       | Some a =>
           with_pages
             (insert a {| region_size := size; region_permission := access;
                          region_bytes := replicate (Z.to_nat size) 0 |})
             (with_page_call (CallAllocatePages hint size alignment access) w)
       | None => with_page_call (CallAllocatePages hint size alignment access) w
       end.
Proof.
  unfold AllocatePages. destruct (allocate_pages _ _ _ _ _ _);
    intros [= <- <-]; done.
Qed.

Lemma SetPermissions_Ok address size access ok w w' :
  SetPermissions os address size access w = Ok ok w' →
  ok = set_permissions os (pages w) address size access ∧
  w' = if ok
       then with_pages (alter (set_region_permission size access) address)
              (with_page_call (CallSetPermissions address size access) w)
       else with_page_call (CallSetPermissions address size access) w.
Proof.
  unfold SetPermissions. destruct (set_permissions _ _ _ _ _);
    intros [= <- <-]; done.
Qed.

Lemma FreePages_Ok address size ok w w' :
  FreePages os address size w = Ok ok w' →
  ok = free_pages os (pages w) address size ∧
  w' = if ok
       then with_pages (delete address)
              (with_page_call (CallFreePages address size) w)
       else with_page_call (CallFreePages address size) w.
Proof.
  unfold FreePages. destruct (free_pages _ _ _ _); intros [= <- <-]; done.
Qed.

Lemma memcpy_to_region_Ok address src u w w' :
  memcpy_to_region address src w = Ok u w' →
  ∃ r bytes,
    pages w !! address = Some r ∧ writable (region_permission r) = true ∧
    memcpy (region_bytes r) 0 src = Some bytes ∧
    w' = with_pages
           (insert address
              {| region_size := region_size r;
                 region_permission := region_permission r;
                 region_bytes := bytes |}) w.
Proof.
  unfold memcpy_to_region. destruct (pages w !! address) as [r|]; [|done].
  destruct (writable (region_permission r)) eqn:Hw; [|done].
  destruct (memcpy (region_bytes r) 0 src) as [bytes|] eqn:Hcopy; [|done].
  intros [= _ <-]. by exists r, bytes.
Qed.

Lemma CHECK_NOT_NULL_Ok p msg a w w' :
  CHECK_NOT_NULL p msg w = Ok a w' → p = Some a ∧ w' = w.
Proof. unfold CHECK_NOT_NULL. destruct p; [intros [= -> ->]; done|done]. Qed.

Lemma delete_array_Ok p u w w' :
  delete_array p w = Ok u w' →
  is_Some (new_arrays w !! p) ∧ w' = with_new_arrays (delete p) w.
Proof.
  unfold delete_array. destruct (new_arrays w !! p) eqn:Hp; [|done].
  intros [= _ <-]. split; [by eexists|done].
Qed.

Lemma Dispose_Ok d u w w' :
  Dispose d w = Ok u w' →
  is_Some (new_arrays w !! code_ d) ∧
  is_Some (delete (code_ d) (new_arrays w) !! metadata_ d) ∧
  w' = with_new_arrays (delete (metadata_ d))
         (with_new_arrays (delete (code_ d)) w).
Proof.
  unfold Dispose. intros H.
  apply bind_Ok in H as ([] & w1 & Hd1 & Hd2).
  apply delete_array_Ok in Hd1 as [Hlive1 ->].
  apply delete_array_Ok in Hd2 as [Hlive2 ->].
  done.
Qed.

Lemma memcpy_zeros n src bytes :
  memcpy (replicate n 0) 0 src = Some bytes →
  bytes = src ++ replicate (n - length src) 0.
Proof.
  unfold memcpy. case_decide as Hin; [|done]. intros [= <-].
  rewrite length_replicate in Hin. simpl.
  by rewrite drop_replicate.
Qed.
End Lifecycle.

Section Create.
Context (cfg : Config) (os : Platform) (isolate : Isolate).

Lemma FromIsolate_Ok_world w d w0 :
  FromIsolate cfg os isolate w = Ok d w0 →
  pages w0 = pages w ∧ page_calls w0 = page_calls w ∧
  mmap_random_calls w0 = mmap_random_calls w ∧
  write_barriers w0 = write_barriers w ∧
  new_arrays w0
  = <[metadata_ d := blob_metadata_size cfg isolate]>
      (<[code_ d := blob_code_size cfg isolate w]> (new_arrays w)) ∧
  operator_new os (new_arrays w) (blob_code_size cfg isolate w)
  = Some (code_ d) ∧
  operator_new os (<[code_ d := blob_code_size cfg isolate w]> (new_arrays w))
    (blob_metadata_size cfg isolate) = Some (metadata_ d).
Proof.
  intros Hrun.
  destruct (FromIsolate_Ok_inv cfg os isolate w d w0 Hrun)
    as (_ & _ & _ & _ & _ & _ & _ & Hnew1 & Hnew2 & _ & _ & _ & _ & _ & _ & _
        & ->).
  by repeat split.
Qed.

(** A successful run, step by step. *)
Lemma CreateOffHeapInstructionStream_Ok_inv w code cs md ms w' :
  CreateOffHeapInstructionStream cfg os isolate w = Ok (code, cs, md, ms) w' →
  ∃ d w0 r1 b1 r2 b2,
    FromIsolate cfg os isolate w = Ok d w0 ∧
    cs = code_size d ∧ ms = metadata_size d ∧
    let S1 := RoundUp cs (page_size cfg) in
    let S2 := RoundUp ms (page_size cfg) in
    let P1 := <[code := fresh_region S1]> (pages w0) in
    let P2 := <[md := fresh_region S2]> P1 in
    let P3 := <[code := {| region_size := region_size r1;
                           region_permission := region_permission r1;
                           region_bytes := b1 |}]> P2 in
    let P4 := alter (set_region_permission S1 kReadExecute) code P3 in
    let P5 := <[md := {| region_size := region_size r2;
                         region_permission := region_permission r2;
                         region_bytes := b2 |}]> P4 in
    let P6 := alter (set_region_permission S2 kRead) md P5 in
    allocate_pages os (pages w0) (requested_address cfg (mmap_random_calls w0))
      S1 (page_size cfg) kReadWrite = Some code ∧
    allocate_pages os P1 (requested_address cfg (S (mmap_random_calls w0)))
      S2 (page_size cfg) kReadWrite = Some md ∧
    P2 !! code = Some r1 ∧ writable (region_permission r1) = true ∧
    memcpy (region_bytes r1) 0 (code_bytes d) = Some b1 ∧
    set_permissions os P3 code S1 kReadExecute = true ∧
    P4 !! md = Some r2 ∧ writable (region_permission r2) = true ∧
    memcpy (region_bytes r2) 0 (metadata_bytes d) = Some b2 ∧
    set_permissions os P5 md S2 kRead = true ∧
    is_Some (new_arrays w0 !! code_ d) ∧
    is_Some (delete (code_ d) (new_arrays w0) !! metadata_ d) ∧
    pages w' = P6 ∧
    page_calls w'
    = page_calls w0 ++ create_calls cfg (mmap_random_calls w0) code cs md ms ∧
    new_arrays w' = delete (metadata_ d) (delete (code_ d) (new_arrays w0)) ∧
    stderr w' = stderr w0 ∧ write_barriers w' = write_barriers w0.
Proof.
  intros H. unfold CreateOffHeapInstructionStream in H.
  apply bind_Ok in H as (d & w0 & Hrun & H).
  apply bind_Ok in H as (random1 & w1 & Hr1 & H). injection Hr1 as <- <-.
  apply bind_Ok in H as (p1 & w1 & Ha1 & H).
  apply AllocatePages_Ok in Ha1 as [Hp1 ->].
  apply bind_Ok in H as (code' & w1 & Hc1 & H).
  apply CHECK_NOT_NULL_Ok in Hc1 as [-> ->]. symmetry in Hp1.
  apply bind_Ok in H as (random2 & w1 & Hr2 & H). injection Hr2 as <- <-.
  apply bind_Ok in H as (p2 & w1 & Ha2 & H).
  apply AllocatePages_Ok in Ha2 as [Hp2 ->].
  apply bind_Ok in H as (md' & w1 & Hc2 & H).
  apply CHECK_NOT_NULL_Ok in Hc2 as [-> ->]. symmetry in Hp2.
  apply bind_Ok in H as ([] & w1 & Hcopy1 & H).
  apply memcpy_to_region_Ok in Hcopy1 as (r1 & b1 & Hr1 & Hw1 & Hb1 & ->).
  apply bind_Ok in H as (ok1 & w1 & Hs1 & H).
  apply SetPermissions_Ok in Hs1 as [Hok1 ->].
  apply bind_Ok in H as ([] & w1 & Hc1 & H).
  apply CHECK_Ok in Hc1 as [-> ->]. symmetry in Hok1.
  apply bind_Ok in H as ([] & w1 & Hcopy2 & H).
  apply memcpy_to_region_Ok in Hcopy2 as (r2 & b2 & Hr2 & Hw2 & Hb2 & ->).
  apply bind_Ok in H as (ok2 & w1 & Hs2 & H).
  apply SetPermissions_Ok in Hs2 as [Hok2 ->].
  apply bind_Ok in H as ([] & w1 & Hc2 & H).
  apply CHECK_Ok in Hc2 as [-> ->]. symmetry in Hok2.
  apply bind_Ok in H as ([] & w1 & Hdispose & H).
  apply Dispose_Ok in Hdispose as (Hlive1 & Hlive2 & ->).
  apply ret_Ok in H as [[= -> -> -> ->] ->].
  exists d, w0, r1, b1, r2, b2.
  unfold create_calls, requested_address, page_size, fresh_region.
  cbn [pages page_calls new_arrays stderr write_barriers mmap_random_calls
       with_pages with_page_call with_new_arrays with_mmap_random_call
       with_stderr] in *.
  cbv zeta.
  split; [exact Hrun|]. split; [reflexivity|]. split; [reflexivity|].
  split; [exact Hp1|]. split; [exact Hp2|]. split; [exact Hr1|].
  split; [exact Hw1|]. split; [exact Hb1|]. split; [exact Hok1|].
  split; [exact Hr2|]. split; [exact Hw2|]. split; [exact Hb2|].
  split; [exact Hok2|]. split; [exact Hlive1|]. split; [exact Hlive2|].
  split; [reflexivity|]. split; [by rewrite <- !app_assoc|].
  split; [reflexivity|]. split; reflexivity.
Qed.
End Create.

Lemma set_region_permission_same size access r :
  region_size r = size →
  set_region_permission size access r
  = {| region_size := size; region_permission := access;
       region_bytes := region_bytes r |}.
Proof. intros <-. unfold set_region_permission. by rewrite decide_True. Qed.

(** The regions after the first copy, after the second copy and at the end of
    [CreateOffHeapInstructionStream]. *)
Lemma hosted_pages (regions : gmap Z Region) code md S1 S2 a1 a2 b1 b2 :
  code ≠ md →
  let R1 := {| region_size := S1; region_permission := kReadWrite;
               region_bytes := b1 |} in
  let R2 := {| region_size := S2; region_permission := kReadWrite;
               region_bytes := b2 |} in
  let P2 := <[md := fresh_region S2]> (<[code := fresh_region S1]> regions) in
  let P3 := <[code := R1]> P2 in
  let P4 := alter (set_region_permission S1 a1) code P3 in
  let P5 := <[md := R2]> P4 in
  let P6 := alter (set_region_permission S2 a2) md P5 in
  P3 = <[code := R1]> (<[md := fresh_region S2]> regions) ∧
  P5 = <[md := R2]>
         (<[code := {| region_size := S1; region_permission := a1;
                       region_bytes := b1 |}]> regions) ∧
  P6 = <[md := {| region_size := S2; region_permission := a2;
                  region_bytes := b2 |}]>
         (<[code := {| region_size := S1; region_permission := a1;
                       region_bytes := b1 |}]> regions).
Proof.
  intros Hne. cbv zeta.
  repeat split; apply map_eq; intros k;
    (destruct (decide (k = md)) as [->|Hmd];
     [|destruct (decide (k = code)) as [->|Hcode]]);
    repeat first
      [ rewrite lookup_alter_eq | rewrite lookup_insert_eq
      | rewrite lookup_alter_ne by done | rewrite lookup_insert_ne by done ];
    cbn [fmap option_fmap option_map];
    rewrite ?set_region_permission_same by done; done.
Qed.

Section CreateSummary.
Context (cfg : Config) (os : Platform) (isolate : Isolate).
Hypothesis Hfresh : allocates_fresh os.

Lemma CreateOffHeapInstructionStream_Ok_summary w code cs md ms w' :
  CreateOffHeapInstructionStream cfg os isolate w = Ok (code, cs, md, ms) w' →
  ∃ d w0,
    FromIsolate cfg os isolate w = Ok d w0 ∧
    cs = code_size d ∧ ms = metadata_size d ∧
    let S1 := RoundUp cs (page_size cfg) in
    let S2 := RoundUp ms (page_size cfg) in
    code ≠ md ∧ pages w !! code = None ∧ pages w !! md = None ∧
    cs ≤ S1 ∧ ms ≤ S2 ∧
    allocate_pages os (pages w) (requested_address cfg (mmap_random_calls w))
      S1 (page_size cfg) kReadWrite = Some code ∧
    allocate_pages os (<[code := fresh_region S1]> (pages w))
      (requested_address cfg (S (mmap_random_calls w)))
      S2 (page_size cfg) kReadWrite = Some md ∧
    set_permissions os
      (<[code := hosted_region S1 kReadWrite (code_bytes d)]>
         (<[md := fresh_region S2]> (pages w)))
      code S1 kReadExecute = true ∧
    set_permissions os
      (<[md := hosted_region S2 kReadWrite (metadata_bytes d)]>
         (<[code := hosted_region S1 kReadExecute (code_bytes d)]> (pages w)))
      md S2 kRead = true ∧
    pages w'
    = <[md := hosted_region S2 kRead (metadata_bytes d)]>
        (<[code := hosted_region S1 kReadExecute (code_bytes d)]> (pages w)) ∧
    page_calls w'
    = page_calls w ++ create_calls cfg (mmap_random_calls w) code cs md ms ∧
    code_ d ≠ metadata_ d ∧
    new_arrays w'
    = delete (metadata_ d) (delete (code_ d) (new_arrays w0)) ∧
    stderr w' = stderr w0 ∧ write_barriers w' = write_barriers w.
Proof.
  intros H.
  destruct (CreateOffHeapInstructionStream_Ok_inv cfg os isolate _ _ _ _ _ _ H)
    as (d & w0 & r1 & b1 & r2 & b2 & Hrun & -> & -> & Hrest).
  cbv zeta in Hrest.
  destruct Hrest as (Ha1 & Ha2 & Hr1 & Hw1 & Hb1 & Hs1 & Hr2 & Hw2 & Hb2 & Hs2
                     & Hlive1 & Hlive2 & Hpages & Hcalls & Hnew & Herr & Hwb).
  destruct (FromIsolate_Ok_world cfg os isolate w d w0 Hrun)
    as (Hp0 & Hc0 & Hm0 & Hwb0 & Hnew0 & _).
  rewrite Hp0, ?Hm0 in *. rewrite Hc0 in Hcalls.
  set (S1 := RoundUp (code_size d) (page_size cfg)) in *.
  set (S2 := RoundUp (metadata_size d) (page_size cfg)) in *.
  pose proof (Hfresh _ _ _ _ _ _ Ha1) as Hfree1.
  pose proof (Hfresh _ _ _ _ _ _ Ha2) as Hfree2.
  assert (code ≠ md) as Hne.
  { intros ->. by rewrite lookup_insert_eq in Hfree2. }
  rewrite lookup_insert_ne in Hfree2 by done.
  rewrite lookup_insert_ne, lookup_insert_eq in Hr1 by done.
  injection Hr1 as <-.
  rewrite lookup_alter_ne, lookup_insert_ne, lookup_insert_eq in Hr2 by done.
  injection Hr2 as <-.
  cbn [fresh_region region_size region_permission region_bytes] in *.
  pose proof (memcpy_bounds _ _ _ _ Hb1) as Hin1.
  pose proof (memcpy_bounds _ _ _ _ Hb2) as Hin2.
  rewrite length_replicate in Hin1, Hin2.
  apply memcpy_zeros in Hb1 as ->. apply memcpy_zeros in Hb2 as ->.
  assert (0 ≤ S1 ∧ 0 ≤ S2) as [HS1 HS2] by (split; apply wrap32_range).
  exists d, w0. split; [done|]. split; [done|]. split; [done|]. cbv zeta.
  fold S1 S2.
  split; [done|]. split; [done|]. split; [done|].
  split; [unfold code_size; lia|]. split; [unfold metadata_size; lia|].
  destruct (hosted_pages (pages w) code md S1 S2 kReadExecute kRead
              (code_bytes d ++ replicate (Z.to_nat S1 - length (code_bytes d)) 0)
              (metadata_bytes d
               ++ replicate (Z.to_nat S2 - length (metadata_bytes d)) 0) Hne)
    as (E3 & E5 & E6).
  rewrite E3 in Hs1. rewrite E5 in Hs2. rewrite E6 in Hpages.
  split; [done|]. split; [done|]. split; [exact Hs1|]. split; [exact Hs2|].
  split; [exact Hpages|].
  split; [done|]. split; [|by rewrite Hwb].
  intros Heq. rewrite Heq, lookup_delete_eq in Hlive2. by destruct Hlive2.
Qed.
End CreateSummary.

(** ** Runs that stay defined *)

Lemma bind_defined {A B} (m : M A) (k : A → M B) w :
  m w ≠ Undefined →
  (∀ a w1, m w = Ok a w1 → k a w1 ≠ Undefined) →
  bind m k w ≠ Undefined.
Proof.
  intros Hm Hk. unfold bind. destruct (m w) as [a w1| |]; [by apply Hk|done|done].
Qed.

Lemma not_Undefined {A} (o : Outcome A) :
  o ≠ Undefined → (∃ a w, o = Ok a w) ∨ (∃ msg w, o = Fatal msg w).
Proof. destruct o; [left|right|]; eauto. done. Qed.

Lemma CHECK_defined cond msg w : CHECK cond msg w ≠ Undefined.
Proof. unfold CHECK. by destruct cond. Qed.

Lemma CHECK_NOT_NULL_defined p msg w : CHECK_NOT_NULL p msg w ≠ Undefined.
Proof. unfold CHECK_NOT_NULL. by destruct p. Qed.

Lemma AllocatePages_defined os hint size alignment access w :
  AllocatePages os hint size alignment access w ≠ Undefined.
Proof. unfold AllocatePages. by destruct (allocate_pages _ _ _ _ _ _). Qed.

Lemma SetPermissions_defined os address size access w :
  SetPermissions os address size access w ≠ Undefined.
Proof. unfold SetPermissions. by destruct (set_permissions _ _ _ _ _). Qed.

Lemma FreePages_defined os address size w :
  FreePages os address size w ≠ Undefined.
Proof. unfold FreePages. by destruct (free_pages _ _ _ _). Qed.

Lemma memcpy_to_region_defined address src r w :
  pages w !! address = Some r → writable (region_permission r) = true →
  (length src ≤ length (region_bytes r))%nat →
  memcpy_to_region address src w ≠ Undefined.
Proof.
  intros Hr Hw Hlen. unfold memcpy_to_region, memcpy. rewrite Hr, Hw.
  by rewrite decide_True by lia.
Qed.

Lemma Dispose_defined d w :
  is_Some (new_arrays w !! code_ d) →
  is_Some (delete (code_ d) (new_arrays w) !! metadata_ d) →
  Dispose d w ≠ Undefined.
Proof.
  intros [n1 H1] [n2 H2]. unfold Dispose, bind, delete_array.
  rewrite H1. cbn [new_arrays with_new_arrays]. by rewrite H2.
Qed.

Section CreateDefined.
Context (cfg : Config) (os : Platform) (isolate : Isolate).
Hypothesis Hfresh : allocates_fresh os.
Hypothesis Hnew : new_returns_fresh os.

(** Once the blob is built and the rounded sizes hold the buffers, the rest
    of [CreateOffHeapInstructionStream] returns or fails fatally. *)
Lemma CreateOffHeapInstructionStream_defined w d w0 :
  FromIsolate cfg os isolate w = Ok d w0 →
  code_size d ≤ RoundUp (code_size d) (page_size cfg) →
  metadata_size d ≤ RoundUp (metadata_size d) (page_size cfg) →
  CreateOffHeapInstructionStream cfg os isolate w ≠ Undefined.
Proof.
  intros Hrun Hfit1 Hfit2.
  destruct (FromIsolate_Ok_world cfg os isolate w d w0 Hrun)
    as (Hp0 & Hc0 & Hm0 & Hwb0 & Hnew0 & Hn1 & Hn2).
  assert (code_ d ≠ metadata_ d) as Hdistinct.
  { intros Heq. apply Hnew in Hn2. by rewrite Heq, lookup_insert_eq in Hn2. }
  unfold CreateOffHeapInstructionStream.
  fold (page_size cfg).
  set (S1 := RoundUp (code_size d) (page_size cfg)) in *.
  set (S2 := RoundUp (metadata_size d) (page_size cfg)) in *.
  apply bind_defined; [by rewrite Hrun|].
  intros d' w0' Hrun'. rewrite Hrun in Hrun'. injection Hrun' as <- <-.
  fold S1 S2.
  apply bind_defined; [done|]. intros random1 w1 [= <- <-].
  apply bind_defined; [apply AllocatePages_defined|].
  intros p1 w1 Ha1. apply AllocatePages_Ok in Ha1 as [Hp1 ->].
  apply bind_defined; [apply CHECK_NOT_NULL_defined|].
  intros code w1 Hc1. apply CHECK_NOT_NULL_Ok in Hc1 as [-> ->].
  apply bind_defined; [done|]. intros random2 w1 [= <- <-].
  apply bind_defined; [apply AllocatePages_defined|].
  intros p2 w1 Ha2. apply AllocatePages_Ok in Ha2 as [Hp2 ->].
  apply bind_defined; [apply CHECK_NOT_NULL_defined|].
  intros md w1 Hc2. apply CHECK_NOT_NULL_Ok in Hc2 as [-> ->].
  cbn [pages with_pages with_page_call with_mmap_random_call] in Hp2.
  symmetry in Hp2. pose proof (Hfresh _ _ _ _ _ _ Hp2) as Hfree2.
  assert (code ≠ md) as Hne.
  { intros ->. by rewrite lookup_insert_eq in Hfree2. }
  assert (0 ≤ S1 ∧ 0 ≤ S2) as [HS1 HS2] by (split; apply wrap32_range).
  apply bind_defined.
  { eapply memcpy_to_region_defined.
    - cbn [pages with_pages with_page_call with_mmap_random_call].
      by rewrite lookup_insert_ne, lookup_insert_eq.
    - done.
    - cbn [region_bytes]. rewrite length_replicate. unfold code_size in *. lia. }
  intros [] w1 Hcopy1.
  apply memcpy_to_region_Ok in Hcopy1 as (r1 & b1 & Hr1 & Hw1 & Hb1 & ->).
  apply bind_defined; [apply SetPermissions_defined|].
  intros ok1 w1 Hs1. apply SetPermissions_Ok in Hs1 as [Hok1 ->].
  apply bind_defined; [apply CHECK_defined|].
  intros [] w1 Hk1. apply CHECK_Ok in Hk1 as [-> ->].
  apply bind_defined.
  { eapply memcpy_to_region_defined.
    - cbn [pages with_pages with_page_call with_mmap_random_call].
      rewrite lookup_alter_ne, lookup_insert_ne, lookup_insert_eq by done.
      done.
    - done.
    - cbn [region_bytes]. rewrite length_replicate.
      unfold metadata_size in *. lia. }
  intros [] w1 Hcopy2.
  apply memcpy_to_region_Ok in Hcopy2 as (r2 & b2 & Hr2 & Hw2 & Hb2 & ->).
  apply bind_defined; [apply SetPermissions_defined|].
  intros ok2 w1 Hs2. apply SetPermissions_Ok in Hs2 as [Hok2 ->].
  apply bind_defined; [apply CHECK_defined|].
  intros [] w1 Hk2. apply CHECK_Ok in Hk2 as [-> ->].
  apply bind_defined; [|done].
  apply Dispose_defined;
    cbn [new_arrays with_pages with_page_call with_mmap_random_call];
    rewrite Hnew0.
  - by rewrite lookup_insert_ne, lookup_insert_eq.
  - by rewrite lookup_delete_ne, lookup_insert_eq.
Qed.
End CreateDefined.

Section Free.
Context (cfg : Config) (os : Platform).

Lemma FreeOffHeapInstructionStream_Ok code cs md ms u w w' :
  FreeOffHeapInstructionStream cfg os code cs md ms w = Ok u w' →
  free_pages os (pages w) code (RoundUp cs (page_size cfg)) = true ∧
  free_pages os (delete code (pages w)) md (RoundUp ms (page_size cfg)) = true ∧
  pages w' = delete md (delete code (pages w)) ∧
  page_calls w' = page_calls w ++ free_calls cfg code cs md ms ∧
  new_arrays w' = new_arrays w.
Proof.
  unfold FreeOffHeapInstructionStream. fold (page_size cfg). intros H.
  apply bind_Ok in H as (ok1 & w1 & Hf1 & H).
  apply FreePages_Ok in Hf1 as [Hok1 ->].
  apply bind_Ok in H as ([] & w1 & Hc1 & H).
  apply CHECK_Ok in Hc1 as [-> ->]. symmetry in Hok1.
  apply bind_Ok in H as (ok2 & w1 & Hf2 & H).
  apply FreePages_Ok in Hf2 as [Hok2 ->].
  apply CHECK_Ok in H as [-> ->]. symmetry in Hok2.
  cbn [pages page_calls new_arrays with_pages with_page_call] in *.
  unfold free_calls. by rewrite <- app_assoc.
Qed.

Lemma FreeOffHeapInstructionStream_run code cs md ms w :
  free_pages os (pages w) code (RoundUp cs (page_size cfg)) = true →
  free_pages os (delete code (pages w)) md (RoundUp ms (page_size cfg)) = true →
  ∃ w', FreeOffHeapInstructionStream cfg os code cs md ms w = Ok tt w'.
Proof.
  intros H1 H2. unfold FreeOffHeapInstructionStream, bind, FreePages, CHECK.
  fold (page_size cfg). rewrite H1.
  cbn [pages with_pages with_page_call]. rewrite H2. by eexists.
Qed.

Lemma FreeOffHeapInstructionStream_Fatal code cs md ms w :
  free_pages os (pages w) code (RoundUp cs (page_size cfg)) = false ∨
  free_pages os (delete code (pages w)) md (RoundUp ms (page_size cfg)) = false →
  ∃ msg w', FreeOffHeapInstructionStream cfg os code cs md ms w = Fatal msg w'.
Proof.
  intros Hfail. unfold FreeOffHeapInstructionStream, bind, FreePages, CHECK.
  fold (page_size cfg).
  destruct (free_pages os (pages w) code _) eqn:H1; [|by eexists _, _].
  destruct Hfail as [?|H2]; [done|].
  cbn [pages with_pages with_page_call]. rewrite H2. by eexists _, _.
Qed.
End Free.

(** C7. [CreateOffHeapInstructionStream], when it returns, has built the blob
    and obtained two distinct regions of the page allocator, each of the size
    of its buffer rounded up to the page size and requested at an aligned
    random address; it returns their addresses with the sizes of the buffers
    (not the rounded ones); the code region holds the code bytes and is
    read-execute, the metadata region holds the metadata bytes and is
    read-only. A failed allocation or change of permission is fatal. The
    rounded size is the next multiple of the page size.
    [FreeOffHeapInstructionStream] releases the code region, then the metadata
    region, each with its size rounded up in the same way, and a failed
    release is fatal. After both, the regions held are those held before. *)
Theorem off_heap_instruction_stream_lifecycle
    (cfg : Config) (os : Platform) (isolate : Isolate) (w : World) :
  allocates_fresh os → new_returns_fresh os →
  let page := page_size cfg in
  let create := CreateOffHeapInstructionStream cfg os isolate w in
  let first_request size :=
    allocate_pages os (pages w) (requested_address cfg (mmap_random_calls w))
      (RoundUp size page) page kReadWrite in
  let second_request code size1 size2 :=
    allocate_pages os (<[code := fresh_region (RoundUp size1 page)]> (pages w))
      (requested_address cfg (S (mmap_random_calls w)))
      (RoundUp size2 page) page kReadWrite in
  let first_protect d code md :=
    set_permissions os
      (<[code := hosted_region (RoundUp (code_size d) page) kReadWrite
                   (code_bytes d)]>
         (<[md := fresh_region (RoundUp (metadata_size d) page)]> (pages w)))
      code (RoundUp (code_size d) page) kReadExecute in
  let second_protect d code md :=
    set_permissions os
      (<[md := hosted_region (RoundUp (metadata_size d) page) kReadWrite
                 (metadata_bytes d)]>
         (<[code := hosted_region (RoundUp (code_size d) page) kReadExecute
                      (code_bytes d)]> (pages w)))
      md (RoundUp (metadata_size d) page) kRead in
  (∀ code cs md ms w1,
     create = Ok (code, cs, md, ms) w1 →
     ∃ d w0,
       FromIsolate cfg os isolate w = Ok d w0 ∧
       cs = code_size d ∧ ms = metadata_size d ∧
       code ≠ md ∧ pages w !! code = None ∧ pages w !! md = None ∧
       first_request cs = Some code ∧ second_request code cs ms = Some md ∧
       first_protect d code md = true ∧ second_protect d code md = true ∧
       cs ≤ RoundUp cs page ∧ ms ≤ RoundUp ms page ∧
       pages w1
       = <[md := hosted_region (RoundUp ms page) kRead (metadata_bytes d)]>
           (<[code := hosted_region (RoundUp cs page) kReadExecute
                        (code_bytes d)]> (pages w)) ∧
       page_calls w1
       = page_calls w ++ create_calls cfg (mmap_random_calls w) code cs md ms) ∧
  (∀ size, 0 < page → 0 ≤ size → size + page ≤ 2 ^ 32 →
     size ≤ RoundUp size page < size + page ∧ (page | RoundUp size page)) ∧
  (∀ d w0,
     FromIsolate cfg os isolate w = Ok d w0 →
     code_size d ≤ RoundUp (code_size d) page →
     metadata_size d ≤ RoundUp (metadata_size d) page →
     ((∃ result w1, create = Ok result w1) ∨ (∃ msg w1, create = Fatal msg w1)) ∧
     (first_request (code_size d) = None ∨
      (∃ code, first_request (code_size d) = Some code ∧
         second_request code (code_size d) (metadata_size d) = None) ∨
      (∃ code md, first_request (code_size d) = Some code ∧
         second_request code (code_size d) (metadata_size d) = Some md ∧
         (first_protect d code md = false ∨ second_protect d code md = false)) →
      ∃ msg w1, create = Fatal msg w1)) ∧
  (∀ code cs md ms w1,
     let release := FreeOffHeapInstructionStream cfg os code cs md ms w1 in
     let first_release := free_pages os (pages w1) code (RoundUp cs page) in
     let second_release :=
       free_pages os (delete code (pages w1)) md (RoundUp ms page) in
     (∀ w2, release = Ok tt w2 →
        first_release = true ∧ second_release = true ∧
        pages w2 = delete md (delete code (pages w1)) ∧
        page_calls w2 = page_calls w1 ++ free_calls cfg code cs md ms) ∧
     (first_release = true → second_release = true → ∃ w2, release = Ok tt w2) ∧
     (first_release = false ∨ second_release = false →
      ∃ msg w2, release = Fatal msg w2)) ∧
  (∀ code cs md ms w1 w2,
     create = Ok (code, cs, md, ms) w1 →
     FreeOffHeapInstructionStream cfg os code cs md ms w1 = Ok tt w2 →
     (∃ code_region metadata_region,
        pages w1 !! code = Some code_region ∧
        pages w1 !! md = Some metadata_region ∧
        region_size code_region = RoundUp cs page ∧
        region_size metadata_region = RoundUp ms page) ∧
     pages w2 = pages w ∧
     page_calls w2
     = page_calls w ++ create_calls cfg (mmap_random_calls w) code cs md ms
       ++ free_calls cfg code cs md ms).
Proof.
  intros Hfresh Hnew page create first_request second_request first_protect
    second_protect.
  assert (∀ code cs md ms w1,
            create = Ok (code, cs, md, ms) w1 →
            ∃ d w0,
              FromIsolate cfg os isolate w = Ok d w0 ∧
              cs = code_size d ∧ ms = metadata_size d ∧
              code ≠ md ∧ pages w !! code = None ∧ pages w !! md = None ∧
              first_request cs = Some code ∧
              second_request code cs ms = Some md ∧
              first_protect d code md = true ∧
              second_protect d code md = true ∧
              cs ≤ RoundUp cs page ∧ ms ≤ RoundUp ms page ∧
              pages w1
              = <[md := hosted_region (RoundUp ms page) kRead (metadata_bytes d)]>
                  (<[code := hosted_region (RoundUp cs page) kReadExecute
                               (code_bytes d)]> (pages w)) ∧
              page_calls w1
              = page_calls w
                ++ create_calls cfg (mmap_random_calls w) code cs md ms)
    as Hcreate.
  { intros code cs md ms w1 Hrun.
    destruct (CreateOffHeapInstructionStream_Ok_summary cfg os isolate Hfresh
                _ _ _ _ _ _ Hrun) as (d & w0 & Hbuild & -> & -> & Hrest).
    cbv zeta in Hrest.
    destruct Hrest as (Hne & Hf1 & Hf2 & Hle1 & Hle2 & Ha1 & Ha2 & Hs1 & Hs2
                       & Hpages & Hcalls & _).
    exists d, w0. repeat split; done. }
  split; [exact Hcreate|]. split.
  { intros size Hpage Hsize Hfit. by apply RoundUp_bounds. }
  split.
  { intros d w0 Hbuild Hfit1 Hfit2.
    pose proof (CreateOffHeapInstructionStream_defined cfg os isolate Hfresh Hnew
                  w d w0 Hbuild Hfit1 Hfit2) as Hdefined.
    apply not_Undefined in Hdefined. split.
    { destruct Hdefined as [(result & w1 & H)|H]; [left|right]; eauto. }
    intros Hfail.
    destruct Hdefined as [([[[code cs] md] ms] & w1 & Hrun)|H]; [|done].
    exfalso.
    destruct (Hcreate _ _ _ _ _ Hrun)
      as (d' & w0' & Hbuild' & -> & -> & _ & _ & _ & Ha1 & Ha2 & Hs1 & Hs2 & _).
    fold create in Hrun.
    assert (d' = d) as -> by congruence.
    destruct Hfail as [Hnone|[(code' & Hsome & Hnone)|(code' & md' & H1 & H2 & Hp)]].
    - congruence.
    - assert (code' = code) as -> by congruence. congruence.
    - assert (code' = code) as -> by congruence.
      assert (md' = md) as -> by congruence.
      destruct Hp; congruence. }
  split.
  { intros code cs md ms w1 release first_release second_release.
    split; [|split].
    - intros w2 Hrun.
      apply FreeOffHeapInstructionStream_Ok in Hrun as (? & ? & ? & ? & _).
      done.
    - intros H1 H2. by apply FreeOffHeapInstructionStream_run.
    - intros Hfail. by apply FreeOffHeapInstructionStream_Fatal. }
  intros code cs md ms w1 w2 Hrun Hfree.
  destruct (Hcreate _ _ _ _ _ Hrun)
    as (d & w0 & _ & -> & -> & Hne & Hf1 & Hf2 & _ & _ & _ & _ & _ & _ & Hpages
        & Hcalls).
  apply FreeOffHeapInstructionStream_Ok in Hfree as (_ & _ & Hpages2 & Hcalls2 & _).
  split.
  { eexists _, _. rewrite Hpages.
    split; [by rewrite lookup_insert_ne, lookup_insert_eq|].
    split; [by rewrite lookup_insert_eq|]. done. }
  split.
  - rewrite Hpages2, Hpages.
    rewrite delete_insert_ne, delete_insert_eq, delete_insert_eq by done.
    rewrite (delete_id _ code) by done. by rewrite delete_id.
  - by rewrite Hcalls2, Hcalls, <- app_assoc.
Qed.

Lemma heap_end_above live a n : live !! a = Some n → a < heap_end live.
Proof.
  intros Ha. apply elem_of_map_to_list in Ha. unfold heap_end.
  induction (map_to_list live) as [|[a0 n0] l IH]; [by apply not_elem_of_nil in Ha|].
  simpl. apply elem_of_cons in Ha as [[= <- <-]|Ha]; [lia|].
  specialize (IH Ha). lia.
Qed.

Lemma example_os_new_returns_fresh : new_returns_fresh example_os.
Proof.
  intros live n a [= <-].
  destruct (live !! heap_end live) as [m|] eqn:H; [|done].
  apply heap_end_above in H. lia.
Defined.

Lemma example_os_allocates_fresh : allocates_fresh example_os.
Proof.
  intros regions hint size alignment access a. simpl.
  destruct (regions !! hint) eqn:H; [done|]. by intros [= <-].
Defined.

Lemma off_heap_instruction_stream_lifecycle_witness :
  allocates_fresh example_os ∧ new_returns_fresh example_os ∧
  ∃ code md w1 w2,
    CreateOffHeapInstructionStream example_cfg example_os scenario_isolate
      empty_world = Ok (code, 80, md, 40) w1 ∧
    FreeOffHeapInstructionStream example_cfg example_os code 80 md 40 w1
    = Ok tt w2 ∧
    pages w2 = pages empty_world.
Proof.
  split; [exact example_os_allocates_fresh|].
  split; [exact example_os_new_returns_fresh|].
  destruct (off_heap_instruction_stream_lifecycle example_cfg example_os
              scenario_isolate empty_world example_os_allocates_fresh
              example_os_new_returns_fresh) as (_ & _ & _ & Hfree & Hboth).
  destruct (CreateOffHeapInstructionStream example_cfg example_os
              scenario_isolate empty_world) as [[[[code cs] md] ms] w1| |] eqn:Hrun;
    [|by vm_compute in Hrun..].
  pose proof Hrun as Hvalue. vm_compute in Hvalue.
  injection Hvalue as <- <- <- <- <-.
  destruct (Hfree 139637976727552 80 139637976793088 40
              ltac:(match type of Hrun with _ = Ok _ ?w => exact w end))
    as (_ & Hrelease & _).
  specialize (Hrelease ltac:(vm_compute; reflexivity)
                       ltac:(vm_compute; reflexivity)).
  destruct Hrelease as [w2 Hrelease].
  eexists _, _, _, w2. split; [reflexivity|]. split; [exact Hrelease|].
  exact (proj1 (proj2 (Hboth _ _ _ _ _ _ Hrun Hrelease))).
Defined.

(** C9. When [CreateOffHeapInstructionStream] returns, the two buffers that
    [FromIsolate] obtained from [new] for the call have been deleted: they
    were live after the build and are not on return, and the live arrays are
    those from before the call. The two regions returned hold the bytes of the
    blob, and no other region was added. *)
Theorem build_buffers_disposed_on_return
    (cfg : Config) (os : Platform) (isolate : Isolate) (w w1 : World)
    (code cs md ms : Z) :
  allocates_fresh os → new_returns_fresh os →
  CreateOffHeapInstructionStream cfg os isolate w = Ok (code, cs, md, ms) w1 →
  ∃ d w0,
    FromIsolate cfg os isolate w = Ok d w0 ∧
    cs = code_size d ∧ ms = metadata_size d ∧
    new_arrays w !! code_ d = None ∧ new_arrays w !! metadata_ d = None ∧
    is_Some (new_arrays w0 !! code_ d) ∧
    is_Some (new_arrays w0 !! metadata_ d) ∧
    new_arrays w1 !! code_ d = None ∧ new_arrays w1 !! metadata_ d = None ∧
    new_arrays w1 = new_arrays w ∧
    (∃ code_region metadata_region,
       pages w1 !! code = Some code_region ∧
       pages w1 !! md = Some metadata_region ∧
       region_permission code_region = kReadExecute ∧
       region_permission metadata_region = kRead ∧
       read_bytes (region_bytes code_region) 0 (Z.to_nat cs)
       = Some (code_bytes d) ∧
       read_bytes (region_bytes metadata_region) 0 (Z.to_nat ms)
       = Some (metadata_bytes d)) ∧
    (∀ a, a ≠ code → a ≠ md → pages w1 !! a = pages w !! a).
Proof.
  intros Hfresh Hnew Hrun.
  destruct (CreateOffHeapInstructionStream_Ok_summary cfg os isolate Hfresh
              _ _ _ _ _ _ Hrun) as (d & w0 & Hbuild & -> & -> & Hrest).
  cbv zeta in Hrest.
  destruct Hrest as (Hne & _ & _ & _ & _ & _ & _ & _ & _ & Hpages & _
                     & Hdistinct & Harrays & _).
  destruct (FromIsolate_Ok_world cfg os isolate w d w0 Hbuild)
    as (_ & _ & _ & _ & Hnew0 & Hn1 & Hn2).
  apply Hnew in Hn1. apply Hnew in Hn2.
  rewrite lookup_insert_ne in Hn2 by done.
  assert (new_arrays w1 = new_arrays w) as Hsame.
  { rewrite Harrays, Hnew0.
    rewrite delete_insert_ne by done. rewrite !delete_insert_eq.
    rewrite (delete_id _ (code_ d)) by done. by rewrite delete_id. }
  exists d, w0. split; [done|]. split; [done|]. split; [done|].
  split; [done|]. split; [done|].
  split; [rewrite Hnew0, lookup_insert_ne, lookup_insert_eq by done; by eexists|].
  split; [rewrite Hnew0, lookup_insert_eq; by eexists|].
  split; [by rewrite Hsame|]. split; [by rewrite Hsame|]. split; [done|].
  split.
  - eexists _, _. rewrite Hpages.
    split; [by rewrite lookup_insert_ne, lookup_insert_eq|].
    split; [by rewrite lookup_insert_eq|].
    split; [done|]. split; [done|].
    unfold hosted_region, code_size, metadata_size. cbn [region_bytes].
    rewrite !Nat2Z.id. split; by apply read_bytes_prefix.
  - intros a Hcode Hmd. rewrite Hpages.
    by rewrite !lookup_insert_ne by done.
Qed.

Lemma build_buffers_disposed_on_return_witness :
  allocates_fresh example_os ∧ new_returns_fresh example_os ∧
  ∃ code md w1,
    CreateOffHeapInstructionStream example_cfg example_os scenario_isolate
      empty_world = Ok (code, 80, md, 40) w1 ∧
    new_arrays w1 = new_arrays empty_world.
Proof.
  split; [exact example_os_allocates_fresh|].
  split; [exact example_os_new_returns_fresh|].
  destruct (CreateOffHeapInstructionStream example_cfg example_os
              scenario_isolate empty_world) as [[[[code cs] md] ms] w1| |] eqn:Hrun;
    [|by vm_compute in Hrun..].
  destruct (build_buffers_disposed_on_return example_cfg example_os
              scenario_isolate empty_world w1 code cs md ms
              example_os_allocates_fresh example_os_new_returns_fresh Hrun)
    as (d & w0 & _ & _ & _ & _ & _ & _ & _ & _ & _ & Hsame & _).
  pose proof Hrun as Hvalue. vm_compute in Hvalue.
  injection Hvalue as <- <- <- <- _.
  eexists _, _, w1. split; [reflexivity|exact Hsame].
Defined.

(** * Further properties *)

(** ** The address resolver on any blob *)

Section ResolverAny.
Context (cfg : Config) (d : EmbeddedData) (address : Z).

(** The loop needs at most [r - l] rounds. *)
Lemma lookup_loop_fuel (fuel : nat) (l r : Z) :
  r - l ≤ Z.of_nat fuel →
  lookup_loop cfg fuel d address l r ≠ LookupOutOfFuel.
Proof.
  revert l r. induction fuel as [|fuel IH]; intros l r Hfuel.
  - simpl. rewrite decide_False by lia. done.
  - simpl. case_decide as Hlr; [|done].
    assert (l ≤ (l + r) / 2 < r) as Hmid
      by (split; [apply Z.div_le_lower_bound; lia
                 |apply Z.div_lt_upper_bound; lia]).
    destruct (InstructionStartOfBuiltin cfg d _) as [start|]; [|done].
    destruct (PaddedInstructionSizeOfBuiltin cfg d _) as [padded|]; [|done].
    case_decide; [apply IH; lia|].
    case_decide; [apply IH; lia|done].
Qed.

(** A builtin the loop returns lies between [l] and [r], and its padded range
    holds the address. *)
Lemma lookup_loop_sound (fuel : nat) (l r mid : Z) :
  lookup_loop cfg fuel d address l r = LookupBuiltin mid →
  l ≤ mid < r ∧
  ∃ start padded,
    InstructionStartOfBuiltin cfg d mid = Some start ∧
    PaddedInstructionSizeOfBuiltin cfg d mid = Some padded ∧
    start ≤ address < start + padded.
Proof.
  revert l r. induction fuel as [|fuel IH]; intros l r H.
  - simpl in H. by case_decide.
  - simpl in H. case_decide as Hlr; [|done].
    assert (l ≤ (l + r) / 2 < r) as Hmid
      by (split; [apply Z.div_le_lower_bound; lia
                 |apply Z.div_lt_upper_bound; lia]).
    destruct (InstructionStartOfBuiltin cfg d ((l + r) / 2))
      as [start|] eqn:Hstart; [|done].
    destruct (PaddedInstructionSizeOfBuiltin cfg d ((l + r) / 2))
      as [padded|] eqn:Hpadded; [|done].
    case_decide as Hleft.
    { apply IH in H as [? ?]. split; [lia|done]. }
    case_decide as Hright.
    { apply IH in H as [? ?]. split; [lia|done]. }
    injection H as <-. split; [done|].
    exists start, padded. split; [done|]. split; [done|]. lia.
Qed.

(** When the address is at or after the padded end of every unit between [l]
    and [r], the loop leaves through its condition. *)
Lemma lookup_loop_past (fuel : nat) (l r : Z) :
  r - l ≤ Z.of_nat fuel →
  (∀ i, l ≤ i < r →
     ∃ start padded,
       InstructionStartOfBuiltin cfg d i = Some start ∧
       PaddedInstructionSizeOfBuiltin cfg d i = Some padded ∧
       start ≤ start + padded ≤ address) →
  lookup_loop cfg fuel d address l r = LookupUnreachable.
Proof.
  revert l r. induction fuel as [|fuel IH]; intros l r Hfuel Hpast.
  - simpl. by rewrite decide_False by lia.
  - simpl. case_decide as Hlr; [|done].
    assert (l ≤ (l + r) / 2 < r) as Hmid
      by (split; [apply Z.div_le_lower_bound; lia
                 |apply Z.div_lt_upper_bound; lia]).
    destruct (Hpast _ Hmid) as (start & padded & -> & -> & Hend).
    rewrite decide_False by lia. rewrite decide_True by lia.
    apply IH; [lia|]. intros i Hi. apply Hpast. lia.
Qed.
End ResolverAny.

(** The loop compares offsets only: moving the blob and the address by the
    same distance does not change its result. *)
Lemma lookup_loop_rehosted cfg d code metadata address fuel l r :
  lookup_loop cfg fuel (rehosted code metadata d)
    (address + (code - code_ d)) l r
  = lookup_loop cfg fuel d address l r.
Proof.
  revert l r. induction fuel as [|fuel IH]; intros l r; [done|].
  simpl. case_decide as Hlr; [|done].
  unfold PaddedInstructionSizeOfBuiltin, InstructionSizeOfBuiltin,
    InstructionStartOfBuiltin, Metadata_at. cbn [rehosted metadata_bytes code_].
  destruct (decide (0 ≤ (l + r) / 2)); [|done].
  destruct (read_bytes _ _ _) as [bs|]; [|done]. cbn [fmap option_fmap option_map].
  rewrite IH, IH.
  repeat case_decide; try done; lia.
Qed.

(** X1. What [TryLookupCode] returns, on any blob and for any address. The
    loop ends within [builtin_count] rounds. A builtin is returned only for
    an address that [PcIsOffHeap] accepts, its index is below
    [builtin_count], and the address lies in the range of the builtin,
    padding included, as the metadata of the blob gives it. *)
Theorem TryLookupCode_returns_a_unit_that_holds_the_address
    (cfg : Config) (isolate : Isolate) (d : EmbeddedData) (address : Z) :
  TryLookupCode cfg isolate d address ≠ LookupOutOfFuel ∧
  ∀ mid,
    TryLookupCode cfg isolate d address = LookupBuiltin mid →
    PcIsOffHeap isolate address = true ∧
    0 ≤ mid < Z.of_nat (builtin_count (builtins isolate)) ∧
    ∃ start0 start padded,
      InstructionStartOfBuiltin cfg d 0 = Some start0 ∧
      InstructionStartOfBuiltin cfg d mid = Some start ∧
      PaddedInstructionSizeOfBuiltin cfg d mid = Some padded ∧
      start0 ≤ address ∧ start ≤ address < start + padded.
Proof.
  unfold TryLookupCode. split.
  - destruct (PcIsOffHeap isolate address); [|done]. simpl.
    destruct (InstructionStartOfBuiltin cfg d 0); [|done].
    case_decide; [done|]. apply lookup_loop_fuel. lia.
  - intros mid H.
    destruct (PcIsOffHeap isolate address); [|done]. simpl in H.
    destruct (InstructionStartOfBuiltin cfg d 0) as [start0|]; [|done].
    case_decide as H0; [done|].
    apply lookup_loop_sound in H as (Hmid & start & padded & ? & ? & ?).
    split; [done|]. split; [done|].
    exists start0, start, padded. repeat split; try done; lia.
Qed.

Lemma TryLookupCode_returns_a_unit_that_holds_the_address_witness :
  ∃ start padded,
    TryLookupCode example_cfg (running_on scenario_blob scenario_isolate)
      scenario_blob (code_ scenario_blob + 20) = LookupBuiltin 1 ∧
    InstructionStartOfBuiltin example_cfg scenario_blob 1 = Some start ∧
    PaddedInstructionSizeOfBuiltin example_cfg scenario_blob 1 = Some padded ∧
    start ≤ code_ scenario_blob + 20 < start + padded.
Proof.
  assert (TryLookupCode example_cfg (running_on scenario_blob scenario_isolate)
            scenario_blob (code_ scenario_blob + 20) = LookupBuiltin 1)
    as Hfound by (vm_compute; reflexivity).
  destruct (proj2 (TryLookupCode_returns_a_unit_that_holds_the_address
                     example_cfg (running_on scenario_blob scenario_isolate)
                     scenario_blob (code_ scenario_blob + 20)) 1 Hfound)
    as (_ & _ & start0 & start & padded & _ & Hstart & Hpadded & _ & Hin).
  exists start, padded. split; [exact Hfound|]. split; [exact Hstart|].
  split; [exact Hpadded|exact Hin].
Defined.

(** X2. An address that [PcIsOffHeap] accepts and that lies at or after the
    padded end of every unit of the blob takes [TryLookupCode] to the
    [UNREACHABLE()] of line 49, not to the null code. *)
Theorem TryLookupCode_past_every_unit_is_unreachable
    (cfg : Config) (isolate : Isolate) (d : EmbeddedData) (address : Z) :
  PcIsOffHeap isolate address = true →
  (0 < builtin_count (builtins isolate))%nat →
  (∀ i, 0 ≤ i < Z.of_nat (builtin_count (builtins isolate)) →
     ∃ start padded,
       InstructionStartOfBuiltin cfg d i = Some start ∧
       PaddedInstructionSizeOfBuiltin cfg d i = Some padded ∧
       start ≤ start + padded ≤ address) →
  TryLookupCode cfg isolate d address = LookupUnreachable.
Proof.
  intros Hpc HN Hpast. unfold TryLookupCode. rewrite Hpc. simpl.
  destruct (Hpast 0 ltac:(lia)) as (start0 & padded0 & -> & _ & H0).
  rewrite decide_False by lia.
  apply lookup_loop_past; [lia|]. intros i Hi. apply Hpast. lia.
Qed.

Lemma TryLookupCode_past_every_unit_is_unreachable_witness :
  TryLookupCode example_cfg (running_past 16 scenario_blob scenario_isolate)
    scenario_blob (code_ scenario_blob + 80) = LookupUnreachable.
Proof.
  apply TryLookupCode_past_every_unit_is_unreachable.
  - vm_compute. reflexivity.
  - simpl. lia.
  - intros i Hi. cbn in Hi.
    assert (i = 0 ∨ i = 1 ∨ i = 2) as [->|[->| ->]] by lia.
    + exists 65536, 16. by vm_compute.
    + exists 65552, 48. by vm_compute.
    + exists 65600, 16. by vm_compute.
Defined.

(** X3. The blob stores offsets, not addresses: for the blob copied to other
    addresses and an address moved with the code, [TryLookupCode] returns
    what it returns for the blob where it was built. *)
Theorem TryLookupCode_rehosted
    (cfg : Config) (isolate : Isolate) (d : EmbeddedData)
    (code metadata address : Z) :
  TryLookupCode cfg (running_on (rehosted code metadata d) isolate)
    (rehosted code metadata d) (address + (code - code_ d))
  = TryLookupCode cfg (running_on d isolate) d address.
Proof.
  unfold TryLookupCode, PcIsOffHeap, running_on, code_size.
  cbn [embedded_blob_code embedded_blob_code_size builtins rehosted code_
       code_bytes].
  assert (bool_decide (code ≤ address + (code - code_ d))
          = bool_decide (code_ d ≤ address)) as ->
    by (apply bool_decide_ext; lia).
  assert (bool_decide (address + (code - code_ d)
                       < code + Z.of_nat (length (code_bytes d)))
          = bool_decide (address < code_ d + Z.of_nat (length (code_bytes d))))
    as -> by (apply bool_decide_ext; lia).
  destruct (negb _); [done|].
  pose proof (lookup_loop_rehosted cfg d code metadata address) as Hloop.
  unfold rehosted in Hloop. rewrite Hloop.
  unfold InstructionStartOfBuiltin, Metadata_at.
  cbn [rehosted metadata_bytes code_].
  destruct (decide (0 ≤ 0)); [|done].
  destruct (read_bytes _ _ _) as [bs|]; [|done].
  cbn [fmap option_fmap option_map].
  repeat case_decide; try done; lia.
Qed.

(** ** The hash field *)

(** X4. [CreateEmbeddedBlobHash] does not read the hash field: storing
    any bytes in the field of a blob leaves the hash of the blob as it was. *)
Theorem CreateEmbeddedBlobHash_ignores_the_hash_field
    (cfg : Config) (d : EmbeddedData) (field metadata' : list byte) :
  length field = EmbeddedBlobHashSize cfg →
  memcpy (metadata_bytes d) EmbeddedBlobHashOffset field = Some metadata' →
  CreateEmbeddedBlobHash cfg (with_metadata_bytes metadata' d)
  = CreateEmbeddedBlobHash cfg d.
Proof.
  intros Hfield Hcopy.
  pose proof (memcpy_length _ _ _ _ Hcopy) as Hlen.
  pose proof (memcpy_bounds _ _ _ _ Hcopy) as Hin.
  unfold CreateEmbeddedBlobHash. cbn [with_metadata_bytes metadata_bytes code_bytes].
  rewrite Hlen.
  case_decide as Hsize; [|done]. do 3 f_equal.
  unfold memcpy in Hcopy. rewrite decide_True in Hcopy by done.
  injection Hcopy as <-. unfold EmbeddedBlobHashOffset in *.
  rewrite drop_app_length' by done. by rewrite Hfield.
Qed.

Lemma CreateEmbeddedBlobHash_ignores_the_hash_field_witness :
  CreateEmbeddedBlobHash example_cfg
    (with_metadata_bytes
       (replicate 8 255 ++ drop 8 (metadata_bytes scenario_blob)) scenario_blob)
  = CreateEmbeddedBlobHash example_cfg scenario_blob.
Proof.
  apply (CreateEmbeddedBlobHash_ignores_the_hash_field example_cfg
           scenario_blob (replicate 8 255)).
  - reflexivity.
  - vm_compute. reflexivity.
Defined.

(** ** What a successful build has checked and left behind *)

Lemma bind_nil_units {A B} (f : A → list B) (l : list A) :
  (∀ x, x ∈ l → f x = []) → mbind f l = [].
Proof.
  induction l as [|x l IH]; intros Hnil; [done|].
  rewrite bind_cons, (Hnil x) by apply list_elem_of_here.
  apply IH. intros y Hy. apply Hnil. by apply list_elem_of_further.
Qed.

Lemma built_metadata_length cfg os isolate w d w' :
  FromIsolate cfg os isolate w = Ok d w' →
  length (metadata_bytes d) = blob_metadata_size cfg isolate.
Proof.
  intros Hrun.
  destruct (FromIsolate_Ok_inv cfg os isolate w d w' Hrun)
    as (metadata1 & metadata2 & code1 & d1 & hash & metadata3 & _ & _ & _
        & Hm1 & Hm2 & _ & Hfix & _ & Hm3 & -> & _).
  apply FinalizeEmbeddedCodeTargets_frame in Hfix as [(_ & _ & Hmd & _) _].
  simpl in *. rewrite (memcpy_length _ _ _ _ Hm3), Hmd.
  rewrite (memcpy_length _ _ _ _ Hm2), (memcpy_length _ _ _ _ Hm1).
  apply length_replicate.
Qed.

Lemma built_code_length cfg os isolate w d w' :
  FromIsolate cfg os isolate w = Ok d w' →
  length (code_bytes d) = blob_code_size cfg isolate w.
Proof.
  intros Hrun. rewrite (built_code_size cfg os isolate w w' d Hrun).
  unfold blob_code_size. by rewrite raw_code_size_layout_loop.
Qed.

(** X5. [FromIsolate] returns a blob only when every builtin passed both
    checks of the first loop. It has then printed nothing, has left the page
    allocator alone and recorded no write barrier, and the only arrays it
    obtained from [new] are the two buffers of the blob, each of the size of
    its buffer. *)
Theorem FromIsolate_returns_only_for_safe_builtins
    (cfg : Config) (os : Platform) (isolate : Isolate)
    (w w' : World) (d : EmbeddedData) :
  FromIsolate cfg os isolate w = Ok d w' →
  (∀ i, (i < builtin_count (builtins isolate))%nat →
     IsIsolateIndependent (builtin (builtins isolate) i) = true ∧
     BuiltinAliasesOffHeapTrampolineRegister cfg isolate
       (builtin (builtins isolate) i) = false) ∧
  stderr w' = stderr w ∧
  pages w' = pages w ∧ page_calls w' = page_calls w ∧
  write_barriers w' = write_barriers w ∧
  new_arrays w'
  = <[metadata_ d := length (metadata_bytes d)]>
      (<[code_ d := length (code_bytes d)]> (new_arrays w)).
Proof.
  intros Hrun.
  destruct (FromIsolate_Ok_world cfg os isolate w d w' Hrun)
    as (Hpages & Hcalls & _ & Hbarriers & Harrays & _ & _).
  pose proof (FromIsolate_Ok_inv cfg os isolate w d w' Hrun) as Hinv.
  cbv zeta in Hinv.
  destruct Hinv as (_ & _ & _ & _ & _ & _ & Hsafe & _ & _ & _ & _ & _ & _
                    & _ & _ & _ & Hw).
  assert (∀ i, (i < builtin_count (builtins isolate))%nat →
            IsIsolateIndependent (builtin (builtins isolate) i) = true ∧
            BuiltinAliasesOffHeapTrampolineRegister cfg isolate
              (builtin (builtins isolate) i) = false) as Hall.
  { intros i Hi.
    rewrite layout_loop_upto in Hsafe.
    destruct (IsIsolateIndependent (builtin (builtins isolate) i)) eqn:Hind,
      (BuiltinAliasesOffHeapTrampolineRegister cfg isolate
         (builtin (builtins isolate) i)) eqn:Halias; [|done|..];
      exfalso;
      (assert (saw_unsafe_builtin
                 (layout_upto cfg isolate (stderr w)
                    (builtin_count (builtins isolate))) = true) as Hsaw;
       [apply saw_unsafe_builtin_upto; exists i; split; [done|]; auto
       |congruence]). }
  split; [exact Hall|]. split.
  { rewrite Hw. unfold world_after_new. cbn [stderr with_new_arrays with_stderr].
    rewrite layout_loop_upto, printed_upto.
    rewrite bind_nil_units; [by rewrite app_nil_r|].
    intros i Hi%elem_of_seq. destruct (Hall i ltac:(lia)) as [Hind Halias].
    unfold unit_report. by rewrite Hind, Halias. }
  split; [done|]. split; [done|]. split; [done|].
  rewrite Harrays.
  rewrite (built_metadata_length cfg os isolate w d w' Hrun).
  by rewrite (built_code_length cfg os isolate w d w' Hrun).
Qed.

Lemma FromIsolate_returns_only_for_safe_builtins_witness :
  ∃ d w',
    FromIsolate example_cfg example_os scenario_isolate empty_world = Ok d w' ∧
    stderr w' = [] ∧
    new_arrays w' = <[metadata_ d := 40%nat]> (<[code_ d := 80%nat]> ∅).
Proof.
  destruct (FromIsolate example_cfg example_os scenario_isolate empty_world)
    as [d w'| |] eqn:Hrun; [|by vm_compute in Hrun..].
  exists d, w'. split; [reflexivity|].
  destruct (FromIsolate_returns_only_for_safe_builtins _ _ _ _ _ _ Hrun)
    as (_ & Hstderr & _ & _ & _ & Harrays).
  split; [exact Hstderr|]. rewrite Harrays.
  vm_compute in Hrun. injection Hrun as <- _. reflexivity.
Defined.

(** ** The metadata buffer of a built blob *)

(** X6. The metadata buffer of a blob built by [FromIsolate] is the hash of
    the blob, the hash of the isolate and the table of the first loop, each
    in its little-endian bytes and with nothing between or after them: its
    size is two [size_t] and eight bytes for every builtin. Reading the
    second field back yields the hash of the isolate. *)
Theorem built_metadata_is_two_hashes_and_the_table
    (cfg : Config) (os : Platform) (isolate : Isolate)
    (w w' : World) (d : EmbeddedData) :
  FromIsolate cfg os isolate w = Ok d w' →
  (∃ blob_hash,
     metadata_bytes d
     = encode_size_t cfg blob_hash
       ++ encode_size_t cfg
            (wrap_size_t cfg (HashIsolateForEmbeddedBlob isolate))
       ++ encode_table (layout_table cfg isolate)) ∧
  metadata_size d
  = 2 * Z.of_nat (kSizetSize cfg)
    + 8 * Z.of_nat (builtin_count (builtins isolate)) ∧
  decode_le
    <$> read_bytes (metadata_bytes d) (IsolateHashOffset cfg)
          (IsolateHashSize cfg)
  = Some (wrap_size_t cfg (HashIsolateForEmbeddedBlob isolate)).
Proof.
  intros Hrun.
  destruct (built_metadata_bytes cfg os isolate w w' d Hrun) as [hash Hbytes].
  rewrite metadata_layout_loop in Hbytes. fold (layout_table cfg isolate) in Hbytes.
  split; [by exists hash|]. split.
  - unfold metadata_size. rewrite Hbytes, !length_app.
    unfold encode_size_t. rewrite !length_encode_le, length_encode_table.
    unfold layout_table. rewrite length_fmap, length_seq.
    unfold sizeof_Metadata. lia.
  - rewrite Hbytes.
    replace (IsolateHashOffset cfg)
      with (length (encode_size_t cfg hash) + 0)%nat
      by (unfold encode_size_t, IsolateHashOffset, EmbeddedBlobHashOffset,
            EmbeddedBlobHashSize; rewrite length_encode_le; lia).
    rewrite read_bytes_app_r, read_bytes_prefix
      by (unfold encode_size_t, IsolateHashSize; apply length_encode_le).
    cbn [fmap option_fmap option_map]. f_equal.
    unfold encode_size_t. rewrite decode_encode_le.
    apply wrap_size_t_idem.
Qed.

Lemma built_metadata_is_two_hashes_and_the_table_witness :
  ∃ d w',
    FromIsolate example_cfg example_os scenario_isolate empty_world = Ok d w' ∧
    metadata_size d = 40 ∧
    decode_le <$> read_bytes (metadata_bytes d) 8 8 = Some 123456789.
Proof.
  destruct (FromIsolate example_cfg example_os scenario_isolate empty_world)
    as [d w'| |] eqn:Hrun; [|by vm_compute in Hrun..].
  exists d, w'. split; [reflexivity|].
  destruct (built_metadata_is_two_hashes_and_the_table _ _ _ _ _ _ Hrun)
    as (_ & Hsize & Hhash).
  split; [exact Hsize|exact Hhash].
Defined.

(** ** The accessors on a built blob *)



(** ** The check of the calling convention *)

(** X8. [BuiltinAliasesOffHeapTrampolineRegister] answers [true] exactly for
    a builtin of one of the kinds CPP, TFC, TFH, TFJ and TFS whose descriptor
    has the off-heap trampoline register as its context register or among
    its register parameters; no other builtin is reported. *)
Theorem BuiltinAliasesOffHeapTrampolineRegister_reports_exactly
    (cfg : Config) (isolate : Isolate) (code : Code) :
  let kind := KindOf (builtins isolate) (builtin_index code) in
  let descriptor := CallableFor (builtins isolate) (builtin_index code) in
  BuiltinAliasesOffHeapTrampolineRegister cfg isolate code = true ↔
  (kind = CPP ∨ kind = TFC ∨ kind = TFH ∨ kind = TFJ ∨ kind = TFS) ∧
  (ContextRegister descriptor = kOffHeapTrampolineRegister cfg ∨
   ∃ i, RegisterParameters descriptor !! i
        = Some (kOffHeapTrampolineRegister cfg)).
Proof.
  intros kind descriptor.
  rewrite BuiltinAliasesOffHeapTrampolineRegister_spec.
  unfold skipped_kind, uses_trampoline_register. fold kind descriptor.
  rewrite list_elem_of_lookup.
  split.
  - intros [Hkind Huses]. split; [|done].
    destruct kind; auto 10; exfalso; apply Hkind; auto.
  - intros [Hkind Huses]. split; [|done].
    intros [Hk|Hk]; rewrite Hk in Hkind;
      destruct Hkind as [?|[?|[?|[?|?]]]]; discriminate.
Qed.

(** ** The fixer writes slots only *)

Lemma entry_patches_elem cfg isolate blob start entries ps patch :
  entry_patches cfg isolate blob start entries = Some ps → patch ∈ ps →
  ∃ e, e ∈ entries ∧ patch_of cfg isolate blob start e = Some patch.
Proof.
  revert ps. induction entries as [|e0 entries IH]; intros ps Hps Hin.
  - injection Hps as <-. by apply not_elem_of_nil in Hin.
  - simpl in Hps.
    destruct (patch_of cfg isolate blob start e0) as [p0|] eqn:Hp0; [|done].
    destruct (entry_patches cfg isolate blob start entries) as [ps'|]; [|done].
    injection Hps as <-. apply elem_of_cons in Hin as [->|Hin].
    + exists e0. split; [apply list_elem_of_here|done].
    + destruct (IH ps' eq_refl Hin) as (e & He & Hp).
      exists e. split; [by apply list_elem_of_further|done].
Qed.

Lemma patches_from_elem cfg isolate blob lo n ps patch :
  patches_from cfg isolate blob lo n = Some ps → patch ∈ ps →
  ∃ i e, (lo ≤ i < lo + n)%nat ∧
    e ∈ code_target_entries (builtin (builtins isolate) i) ∧
    code_target_slot cfg isolate blob i e = Some patch.
Proof.
  revert lo ps. induction n as [|n IH]; intros lo ps Hps Hin.
  - injection Hps as <-. by apply not_elem_of_nil in Hin.
  - simpl in Hps.
    destruct (unit_patches cfg isolate blob lo) as [ps1|] eqn:Hps1; [|done].
    destruct (patches_from cfg isolate blob (S lo) n) as [rest|] eqn:Hrest;
      [|done].
    injection Hps as <-. apply elem_of_app in Hin as [Hin|Hin].
    + unfold unit_patches in Hps1.
      destruct (InstructionStartOfBuiltin cfg blob _) as [start|] eqn:Hstart;
        [|done].
      destruct (entry_patches_elem _ _ _ _ _ _ _ Hps1 Hin) as (e & He & Hp).
      exists lo, e. split; [lia|]. split; [done|].
      unfold code_target_slot. by rewrite Hstart.
    + destruct (IH (S lo) rest Hrest Hin) as (i & e & Hi & He & Hp).
      exists i, e. split; [lia|done].
Qed.

Lemma patched_None ps (p : nat) :
  (∀ patch, patch ∈ ps → ¬ (patch.1 ≤ p < patch.1 + length patch.2)%nat) →
  patched ps p = None.
Proof.
  induction ps as [|[off bytes] ps IH]; intros Hout; [done|].
  simpl. rewrite IH by (intros q Hq; apply Hout; by apply list_elem_of_further).
  rewrite decide_False; [done|].
  apply (Hout (off, bytes)). apply list_elem_of_here.
Qed.

Section FixerAsPatches.
Context (cfg : Config) (isolate : Isolate).

Lemma finalize_loop_indirect_patches n lo blob blob' w w' :
  direct_code_targets cfg = false →
  for_loop_M (finalize_step cfg isolate) lo n blob w = Ok blob' w' →
  patches_from cfg isolate blob lo n = Some [].
Proof.
  intros Hdirect. revert lo. induction n as [|n IH]; intros lo H; [done|].
  simpl in H. apply bind_Ok in H as (blob1 & w1 & Hstep & H).
  apply (finalize_step_indirect_Ok_iff _ _ _ _ _ _ _ Hdirect) in Hstep
    as (-> & -> & [start Hstart] & Hnone).
  simpl. unfold unit_patches. rewrite Hstart, Hnone. simpl.
  by rewrite (IH _ H).
Qed.

(** On every target a run of the fixer that returns has applied the patches
    of the code targets, in order, and nothing else. *)
Lemma FinalizeEmbeddedCodeTargets_as_patches blob blob' w w' :
  FinalizeEmbeddedCodeTargets cfg isolate blob w = Ok blob' w' →
  same_frame blob blob' ∧
  ∃ ps, all_patches cfg isolate blob = Some ps ∧
        apply_patches ps (code_bytes blob) = Some (code_bytes blob').
Proof.
  intros Hrun. unfold FinalizeEmbeddedCodeTargets in Hrun.
  destruct (direct_code_targets cfg) eqn:Hdirect.
  - apply (finalize_loop_direct_Ok_iff _ _ _ _ _ _ _ _ Hdirect) in Hrun
      as (_ & Hframe & _ & ps & Hps & Happly).
    split; [done|]. by exists ps.
  - pose proof (finalize_loop_indirect_patches _ _ _ _ _ _ Hdirect Hrun) as Hps.
    apply (finalize_loop_indirect_Ok _ _ _ _ _ _ _ _ Hdirect) in Hrun
      as (-> & _ & _).
    split; [apply same_frame_refl|]. by exists [].
Qed.

Lemma FinalizeEmbeddedCodeTargets_lookup blob blob' w w' (p : nat) :
  FinalizeEmbeddedCodeTargets cfg isolate blob w = Ok blob' w' →
  ¬ in_code_target_slot cfg isolate blob p →
  code_bytes blob' !! p = code_bytes blob !! p.
Proof.
  intros Hrun Hout.
  destruct (FinalizeEmbeddedCodeTargets_as_patches _ _ _ _ Hrun)
    as (_ & ps & Hps & Happly).
  rewrite (apply_patches_lookup _ _ _ p Happly).
  rewrite patched_None; [done|].
  intros patch Hin Hcovers. apply Hout.
  destruct (patches_from_elem _ _ _ _ _ _ _ Hps Hin) as (i & e & Hi & He & Hp).
  exists i, e, patch. split; [lia|done].
Qed.
End FixerAsPatches.

(** X9. A run of [FinalizeEmbeddedCodeTargets] that returns has changed no
    byte of the code buffer outside the slots of the code targets and
    relative code targets of the builtins: records of the other kinds and
    everything between the records are as they were. *)
Theorem FinalizeEmbeddedCodeTargets_writes_code_target_slots_only
    (cfg : Config) (isolate : Isolate) (blob blob' : EmbeddedData)
    (w w' : World) (p : nat) :
  FinalizeEmbeddedCodeTargets cfg isolate blob w = Ok blob' w' →
  ¬ in_code_target_slot cfg isolate blob p →
  code_bytes blob' !! p = code_bytes blob !! p.
Proof. apply FinalizeEmbeddedCodeTargets_lookup. Qed.

(** ** The code buffer of a built blob *)

Section CopyLoop.
Context (cfg : Config) (isolate : Isolate) (table : list Metadata).

Let position (i : nat) (entry : Metadata) : nat :=
  (RawCodeOffset cfg + Z.to_nat (instructions_offset entry))%nat.

(** A position that no copy covers keeps its byte. *)
Lemma write_raw_data_outside n buffer buffer' (p : nat) :
  for_loop (copy_step cfg isolate table) 0 n (Some buffer) = Some buffer' →
  (∀ i entry, (i < n)%nat → table !! i = Some entry →
     ¬ (position i entry ≤ p
        < position i entry
          + length (instructions (builtin (builtins isolate) i)))%nat) →
  buffer' !! p = buffer !! p.
Proof.
  revert buffer'. induction n as [|n IH]; intros buffer' Hrun Hout.
  - simpl in Hrun. by injection Hrun as <-.
  - rewrite for_loop_snoc in Hrun. simpl in Hrun.
    unfold copy_step in Hrun at 1.
    destruct (for_loop (copy_step cfg isolate table) 0 n (Some buffer))
      as [buffer1|] eqn:Hprev; [|done].
    simpl in Hrun.
    destruct (table !! n) as [entry|] eqn:Hentry; [|done]. simpl in Hrun.
    rewrite (memcpy_lookup _ _ _ _ p Hrun).
    rewrite decide_False by (apply (Hout n entry); [lia|done]).
    apply IH; [done|]. intros i e Hi. apply Hout. lia.
Qed.

(** A position in the copy of builtin [i] that no later copy covers holds
    the byte of the builtin. *)
Lemma write_raw_data_inside n buffer buffer' (i k : nat) entry :
  for_loop (copy_step cfg isolate table) 0 n (Some buffer) = Some buffer' →
  (i < n)%nat → table !! i = Some entry →
  (k < length (instructions (builtin (builtins isolate) i)))%nat →
  (∀ j entry_j, (i < j < n)%nat → table !! j = Some entry_j →
     ¬ (position j entry_j ≤ position i entry + k
        < position j entry_j
          + length (instructions (builtin (builtins isolate) j)))%nat) →
  buffer' !! (position i entry + k)%nat
  = instructions (builtin (builtins isolate) i) !! k.
Proof.
  revert buffer'. induction n as [|n IH]; intros buffer' Hrun Hi Hentry Hk Hlater;
    [lia|].
  rewrite for_loop_snoc in Hrun. simpl in Hrun.
  unfold copy_step in Hrun at 1.
  destruct (for_loop (copy_step cfg isolate table) 0 n (Some buffer))
    as [buffer1|] eqn:Hprev; [|done].
  simpl in Hrun.
  destruct (table !! n) as [entry_n|] eqn:Hentry_n; [|done]. simpl in Hrun.
  rewrite (memcpy_lookup _ _ _ _ _ Hrun).
  destruct (decide (i = n)) as [->|Hne].
  - assert (entry_n = entry) as -> by congruence.
    fold (position n entry).
    rewrite decide_True by lia. f_equal. lia.
  - rewrite decide_False by (apply (Hlater n entry_n); [lia|done]).
    apply IH; [done|lia|done|done|].
    intros j entry_j Hj. apply Hlater. lia.
Qed.
End CopyLoop.

(** Storing the hash of the blob does not move the table. *)
Lemma InstructionStartOfBuiltin_after_hash cfg d field metadata' i :
  length field = EmbeddedBlobHashSize cfg →
  memcpy (metadata_bytes d) EmbeddedBlobHashOffset field = Some metadata' →
  InstructionStartOfBuiltin cfg (with_metadata_bytes metadata' d) i
  = InstructionStartOfBuiltin cfg d i.
Proof.
  intros Hfield Hcopy. unfold InstructionStartOfBuiltin, Metadata_at.
  cbn [with_metadata_bytes metadata_bytes code_].
  case_decide; [|done].
  rewrite (read_bytes_memcpy_disjoint _ _ _ _ _ _ Hcopy); [done|].
  left. rewrite Hfield.
  unfold MetadataTableOffset, IsolateHashOffset, EmbeddedBlobHashOffset,
    EmbeddedBlobHashSize. lia.
Qed.

Lemma in_code_target_slot_ext cfg isolate blob blob' p :
  code_ blob' = code_ blob →
  (∀ i, InstructionStartOfBuiltin cfg blob' i
        = InstructionStartOfBuiltin cfg blob i) →
  in_code_target_slot cfg isolate blob' p →
  in_code_target_slot cfg isolate blob p.
Proof.
  intros Hcode Hstart (i & e & patch & Hi & He & Hslot & Hp).
  exists i, e, patch. split; [done|]. split; [done|]. split; [|done].
  unfold code_target_slot, patch_of in *.
  by rewrite <- !Hstart, <- Hcode.
Qed.

Section BuiltCode.
Context (cfg : Config) (os : Platform) (isolate : Isolate).
Context (w w' : World) (d : EmbeddedData).
Hypothesis Hrun : FromIsolate cfg os isolate w = Ok d w'.

Let N := builtin_count (builtins isolate).

(** The code buffer is the zapped buffer with the copies of the second loop
    and then the patches of the fixer. *)
Lemma built_code_bytes :
  ∃ code1,
    write_raw_data cfg isolate (metadata (layout_loop cfg isolate (stderr w)))
      (ZapCode cfg (blob_code_size cfg isolate w)) = Some code1 ∧
    ∀ p, ¬ in_code_target_slot cfg isolate d p →
      code_bytes d !! p = code1 !! p.
Proof.
  destruct (FromIsolate_Ok_inv cfg os isolate w d w' Hrun)
    as (metadata1 & metadata2 & code1 & d1 & hash & metadata3 & _ & _ & _
        & _ & _ & Hcopy & Hfix & _ & Hm3 & -> & _).
  exists code1. split; [done|]. intros p Hout.
  cbn [with_metadata_bytes code_bytes].
  pose proof (FinalizeEmbeddedCodeTargets_frame _ _ _ _ _ _ Hfix)
    as [Hframe _].
  rewrite (FinalizeEmbeddedCodeTargets_lookup _ _ _ _ _ _ p Hfix); [done|].
  intros Hin. apply Hout.
  apply (in_code_target_slot_ext cfg isolate _ d1).
  { done. }
  { intros i. symmetry.
    apply (InstructionStartOfBuiltin_after_hash cfg d1
             (encode_size_t cfg hash) metadata3 i); [|exact Hm3].
    unfold encode_size_t, EmbeddedBlobHashSize. apply length_encode_le. }
  apply (in_code_target_slot_ext cfg isolate d1
           {| code_ := code_ (with_metadata_bytes metadata3 d1);
              code_bytes := code1;
              metadata_ := metadata_ (with_metadata_bytes metadata3 d1);
              metadata_bytes := metadata2 |}); [| |done].
  - by destruct Hframe as (? & _).
  - intros i. symmetry. by apply same_frame_InstructionStartOfBuiltin.
Qed.

Lemma built_table_lookup i entry :
  (i < N)%nat →
  metadata (layout_loop cfg isolate (stderr w)) !! i = Some entry →
  (RawCodeOffset cfg + Z.to_nat (instructions_offset entry))%nat
  = unit_position cfg isolate i.
Proof.
  intros Hi Hentry.
  rewrite layout_loop_upto, metadata_upto_lookup in Hentry by (fold N; lia).
  by injection Hentry as <-.
Qed.
End BuiltCode.

(** X10. Outside the instructions of the builtins, the code buffer of a built
    blob holds the trap byte of [ZapCode]: the header and the alignment gaps
    between the builtins are filled with it, but for the slots the fixer
    wrote. *)
Theorem built_code_is_zapped_outside_the_builtins
    (cfg : Config) (os : Platform) (isolate : Isolate)
    (w w' : World) (d : EmbeddedData) (p : nat) :
  FromIsolate cfg os isolate w = Ok d w' →
  (p < length (code_bytes d))%nat →
  (∀ i, (i < builtin_count (builtins isolate))%nat → ¬ in_unit cfg isolate i p) →
  ¬ in_code_target_slot cfg isolate d p →
  code_bytes d !! p = Some (kZapByte cfg).
Proof.
  intros Hrun Hp Hgap Hslot.
  destruct (built_code_bytes cfg os isolate w w' d Hrun) as (code1 & Hcopy & Hd).
  rewrite (Hd p Hslot).
  rewrite (write_raw_data_outside _ _ _ _ _ _ p Hcopy).
  - unfold ZapCode. apply lookup_replicate_2.
    rewrite <- (built_code_length cfg os isolate w d w' Hrun). done.
  - intros i entry Hi Hentry.
    rewrite (built_table_lookup cfg isolate w i entry Hi Hentry).
    apply (Hgap i Hi).
Qed.

Section UnitsApart.
Context (cfg : Config) (isolate : Isolate).
Hypothesis Hpad : pads_units cfg isolate.
Hypothesis Hfit : fits_uint32 cfg isolate.
Hypothesis Hint : sizes_are_ints isolate.

Let N := builtin_count (builtins isolate).

Lemma unit_length_int i :
  (i < N)%nat →
  unit_length isolate i
  = Z.of_nat (length (instructions (builtin (builtins isolate) i))).
Proof.
  intros Hi. unfold unit_length. apply wrap32_small.
  pose proof (Hint i Hi). unfold raw_instruction_size in *. lia.
Qed.

(** A later builtin starts at or after the end of an earlier one. *)
Lemma unit_position_apart i j :
  (i < j)%nat → (j ≤ N)%nat →
  (unit_position cfg isolate i
   + length (instructions (builtin (builtins isolate) i))
   ≤ unit_position cfg isolate j)%nat.
Proof.
  intros Hij Hj. unfold unit_position.
  rewrite !raw_size_after_no_overflow by (try done; fold N; lia).
  pose proof (padded_total_mono cfg isolate 0 i Hpad ltac:(lia) ltac:(fold N; lia)).
  pose proof (padded_total_mono cfg isolate (S i) j Hpad ltac:(lia) Hj) as Hm.
  simpl in Hm. destruct (Hpad i ltac:(fold N; lia)) as [Hcover _].
  rewrite unit_length_int in Hcover, Hm by lia. lia.
Qed.
End UnitsApart.

(** X11. The code buffer of a built blob holds, from the position the
    metadata gives for builtin [i], the instructions of the builtin, byte for
    byte, but for the slots the fixer wrote; no later copy overwrites
    them. *)
Theorem built_code_holds_the_instructions
    (cfg : Config) (os : Platform) (isolate : Isolate)
    (w w' : World) (d : EmbeddedData) (i k : nat) :
  FromIsolate cfg os isolate w = Ok d w' →
  pads_units cfg isolate → fits_uint32 cfg isolate → sizes_are_ints isolate →
  (i < builtin_count (builtins isolate))%nat →
  (k < length (instructions (builtin (builtins isolate) i)))%nat →
  ¬ in_code_target_slot cfg isolate d (unit_position cfg isolate i + k) →
  InstructionStartOfBuiltin cfg d (Z.of_nat i)
  = Some (code_ d + Z.of_nat (unit_position cfg isolate i)) ∧
  code_bytes d !! (unit_position cfg isolate i + k)%nat
  = instructions (builtin (builtins isolate) i) !! k.
Proof.
  intros Hrun Hpad Hfit Hint Hi Hk Hslot. split.
  { unfold InstructionStartOfBuiltin.
    rewrite (built_Metadata_at cfg os isolate w w' d Hrun i Hi).
    cbn [fmap option_fmap option_map instructions_offset]. f_equal.
    unfold unit_position. pose proof (raw_size_after_range cfg isolate i). lia. }
  destruct (built_code_bytes cfg os isolate w w' d Hrun) as (code1 & Hcopy & Hd).
  rewrite (Hd _ Hslot).
  assert (metadata (layout_loop cfg isolate (stderr w)) !! i
          = Some {| instructions_offset := raw_size_after cfg isolate i;
                    instructions_length := unit_length isolate i |}) as Hentry
    by (rewrite layout_loop_upto; apply metadata_upto_lookup; lia).
  pose proof (write_raw_data_inside cfg isolate _ _ _ _ i k _ Hcopy Hi Hentry Hk)
    as Hbyte.
  cbn [instructions_offset] in Hbyte. fold (unit_position cfg isolate i) in Hbyte.
  apply Hbyte. intros j entry_j Hj Hentry_j.
  rewrite (built_table_lookup cfg isolate w j entry_j ltac:(lia) Hentry_j).
  pose proof (unit_position_apart cfg isolate Hpad Hfit Hint i j
                ltac:(lia) ltac:(lia)).
  lia.
Qed.

(** The scenario. *)
Lemma scenario_blob_built :
  ∃ w', FromIsolate example_cfg example_os scenario_isolate empty_world
        = Ok scenario_blob w'.
Proof.
  unfold scenario_blob.
  destruct (FromIsolate example_cfg example_os scenario_isolate empty_world)
    as [d w'| |] eqn:Hrun; [by exists w'|by vm_compute in Hrun..].
Qed.

Lemma scenario_sizes_are_ints : sizes_are_ints scenario_isolate.
Proof.
  intros i Hi. simpl in Hi.
  destruct i as [|[|[|i]]]; [by vm_compute..|lia].
Qed.

(** The two code targets of the scenario occupy the positions 17 to 20 and
    64 to 67 of the code buffer. *)
Lemma scenario_slots blob (p : nat) :
  same_frame scenario_blob blob →
  in_code_target_slot example_cfg scenario_isolate blob p →
  (17 ≤ p < 21)%nat ∨ (64 ≤ p < 68)%nat.
Proof.
  intros Hframe (i & e & patch & Hi & He & Hslot & Hp).
  assert (code_target_slot example_cfg scenario_isolate blob i e
          = code_target_slot example_cfg scenario_isolate scenario_blob i e)
    as Hsame.
  { unfold code_target_slot.
    rewrite (same_frame_InstructionStartOfBuiltin _ _ _ _ Hframe).
    destruct (InstructionStartOfBuiltin _ _ _); [|done]. simpl.
    by apply patch_of_same_frame. }
  rewrite Hsame in Hslot. clear Hsame Hframe.
  simpl in Hi. destruct i as [|[|[|i]]]; [| | |lia].
  - assert (code_target_entries (builtin (builtins scenario_isolate) 0) = [])
      as Hnone by (vm_compute; reflexivity).
    rewrite Hnone in He. exfalso. exact (not_elem_of_nil _ He).
  - assert (code_target_entries (builtin (builtins scenario_isolate) 1)
            = [ {| entry_rmode := CODE_TARGET; entry_pc_offset := 1;
                   entry_target_address := 12288 |} ])
      as Hone by (vm_compute; reflexivity).
    rewrite Hone in He. apply list_elem_of_singleton in He as ->.
    vm_compute in Hslot. injection Hslot as <-. simpl in Hp. lia.
  - assert (code_target_entries (builtin (builtins scenario_isolate) 2)
            = [ {| entry_rmode := RELATIVE_CODE_TARGET; entry_pc_offset := 0;
                   entry_target_address := 4096 |} ])
      as Hone by (vm_compute; reflexivity).
    rewrite Hone in He. apply list_elem_of_singleton in He as ->.
    vm_compute in Hslot. injection Hslot as <-. simpl in Hp. lia.
Qed.

Lemma built_code_holds_the_instructions_witness :
  code_bytes scenario_blob !! 36%nat = Some 144.
Proof.
  destruct scenario_blob_built as [w' Hrun].
  destruct (built_code_holds_the_instructions example_cfg example_os
              scenario_isolate empty_world w' scenario_blob 1 20 Hrun
              example_pads_scenario example_fits_scenario
              scenario_sizes_are_ints) as [_ Hbyte].
  - simpl. lia.
  - simpl. lia.
  - intros Hin. apply (scenario_slots scenario_blob) in Hin;
      [|apply same_frame_refl].
    change (unit_position example_cfg scenario_isolate 1 + 20)%nat
      with 36%nat in Hin. lia.
  - exact Hbyte.
Defined.

Lemma built_code_is_zapped_outside_the_builtins_witness :
  code_bytes scenario_blob !! 12%nat = Some 204.
Proof.
  destruct scenario_blob_built as [w' Hrun].
  apply (built_code_is_zapped_outside_the_builtins example_cfg example_os
           scenario_isolate empty_world w' scenario_blob 12 Hrun).
  - vm_compute. lia.
  - intros i Hi. simpl in Hi. unfold in_unit.
    destruct i as [|[|[|i]]]; [| | |lia]; vm_compute; lia.
  - intros Hin. apply (scenario_slots scenario_blob) in Hin;
      [lia|apply same_frame_refl].
Defined.

Lemma FinalizeEmbeddedCodeTargets_writes_code_target_slots_only_witness :
  ∃ blob' w',
    FinalizeEmbeddedCodeTargets example_cfg scenario_isolate
      zapped_scenario_blob empty_world = Ok blob' w' ∧
    code_bytes blob' !! 36%nat = Some 204.
Proof.
  destruct (FinalizeEmbeddedCodeTargets example_cfg scenario_isolate
              zapped_scenario_blob empty_world) as [blob' w'| |] eqn:Hrun;
    [|by vm_compute in Hrun..].
  exists blob', w'. split; [reflexivity|].
  transitivity (code_bytes zapped_scenario_blob !! 36%nat);
    [|vm_compute; reflexivity].
  apply (FinalizeEmbeddedCodeTargets_writes_code_target_slots_only
           _ _ _ _ _ _ 36 Hrun).
  intros Hin. apply (scenario_slots zapped_scenario_blob) in Hin; [lia|].
  apply same_frame_with_code_bytes. vm_compute. reflexivity.
Defined.

(** ** When the build succeeds *)

Lemma FromIsolate_Ok_intro cfg os isolate w code md
    metadata1 metadata2 code1 d1 w1 hash metadata3 :
  let s := layout_loop cfg isolate (stderr w) in
  let csize := blob_code_size cfg isolate w in
  let msize := blob_metadata_size cfg isolate in
  saw_unsafe_builtin s = false →
  operator_new os (new_arrays w) csize = Some code →
  operator_new os (<[code := csize]> (new_arrays w)) msize = Some md →
  memcpy (replicate msize (indeterminate cfg)) (IsolateHashOffset cfg)
    (encode_size_t cfg (wrap_size_t cfg (HashIsolateForEmbeddedBlob isolate)))
  = Some metadata1 →
  memcpy metadata1 (MetadataTableOffset cfg) (encode_table (metadata s))
  = Some metadata2 →
  write_raw_data cfg isolate (metadata s) (ZapCode cfg csize) = Some code1 →
  FinalizeEmbeddedCodeTargets cfg isolate
    {| code_ := code; code_bytes := code1;
       metadata_ := md; metadata_bytes := metadata2 |}
    (with_new_arrays (insert md msize)
       (with_new_arrays (insert code csize) (with_stderr (printed s) w)))
  = Ok d1 w1 →
  CreateEmbeddedBlobHash cfg d1 = Some hash →
  memcpy (metadata_bytes d1) EmbeddedBlobHashOffset (encode_size_t cfg hash)
  = Some metadata3 →
  FromIsolate cfg os isolate w = Ok (with_metadata_bytes metadata3 d1) w1.
Proof.
  intros s csize msize Hsafe Hnew1 Hnew2 Hm1 Hm2 Hcopy Hfix Hhash Hm3.
  subst csize msize. unfold blob_code_size, blob_metadata_size in *.
  fold s in Hnew1, Hnew2, Hm1, Hcopy, Hfix.
  unfold FromIsolate, bind, CHECK, new_uint8_array, defined. fold s.
  rewrite Hsafe. cbn [negb new_arrays with_stderr]. rewrite Hnew1.
  cbn [new_arrays with_new_arrays with_stderr]. rewrite Hnew2.
  rewrite Hm1, Hm2, Hcopy.
  unfold with_new_arrays, with_stderr in Hfix |- *.
  cbn [new_arrays pages page_calls stderr write_barriers mmap_random_calls]
    in Hfix |- *.
  rewrite Hfix, Hhash, Hm3. reflexivity.
Qed.

Lemma memcpy_Some dst off src :
  (off + length src ≤ length dst)%nat → is_Some (memcpy dst off src).
Proof. intros Hin. unfold memcpy. rewrite decide_True by done. by eexists. Qed.

Lemma apply_patches_in_bounds ps buffer :
  (∀ patch, patch ∈ ps → (patch.1 + length patch.2 ≤ length buffer)%nat) →
  is_Some (apply_patches ps buffer).
Proof.
  revert buffer. induction ps as [|[off bytes] ps IH]; intros buffer Hin.
  - by eexists.
  - simpl.
    destruct (memcpy_Some buffer off bytes) as [b1 Hcopy].
    { apply (Hin (off, bytes)). apply list_elem_of_here. }
    rewrite Hcopy. apply IH. intros patch Hpatch.
    rewrite (memcpy_length _ _ _ _ Hcopy).
    apply Hin. by apply list_elem_of_further.
Qed.

Lemma entry_patches_defined cfg isolate blob start entries :
  (∀ e, e ∈ entries → is_Some (patch_of cfg isolate blob start e)) →
  is_Some (entry_patches cfg isolate blob start entries).
Proof.
  induction entries as [|e entries IH]; intros Hall; [by eexists|].
  simpl. destruct (Hall e) as [p ->]; [apply list_elem_of_here|].
  destruct IH as [ps ->]; [|by eexists].
  intros e' He'. apply Hall. by apply list_elem_of_further.
Qed.

Lemma patches_from_defined cfg isolate blob lo n :
  (∀ i e, (lo ≤ i < lo + n)%nat →
     e ∈ code_target_entries (builtin (builtins isolate) i) →
     is_Some (code_target_slot cfg isolate blob i e)) →
  (∀ i, (lo ≤ i < lo + n)%nat →
     is_Some (InstructionStartOfBuiltin cfg blob
                (builtin_index (builtin (builtins isolate) i)))) →
  is_Some (patches_from cfg isolate blob lo n).
Proof.
  revert lo. induction n as [|n IH]; intros lo Hslots Hstarts; [by eexists|].
  simpl.
  assert (is_Some (unit_patches cfg isolate blob lo)) as [ps1 ->].
  { unfold unit_patches.
    destruct (Hstarts lo ltac:(lia)) as [start Hstart]. rewrite Hstart.
    apply entry_patches_defined. intros e He.
    specialize (Hslots lo e ltac:(lia) He).
    unfold code_target_slot in Hslots. by rewrite Hstart in Hslots. }
  destruct (IH (S lo)) as [rest ->]; [| |by eexists].
  - intros i e Hi. apply Hslots. lia.
  - intros i Hi. apply Hstarts. lia.
Qed.

(** The copies of the second loop are defined when each of them ends inside
    the buffer. *)
Lemma write_raw_data_defined cfg isolate table n buffer :
  (∀ i, (i < n)%nat →
     ∃ entry, table !! i = Some entry ∧
       (RawCodeOffset cfg + Z.to_nat (instructions_offset entry)
        + length (instructions (builtin (builtins isolate) i))
        ≤ length buffer)%nat) →
  ∃ buffer',
    for_loop (copy_step cfg isolate table) 0 n (Some buffer) = Some buffer' ∧
    length buffer' = length buffer.
Proof.
  induction n as [|n IH]; intros Hin; [by exists buffer|].
  destruct IH as (buffer1 & Hprev & Hlen); [intros i Hi; apply Hin; lia|].
  rewrite for_loop_snoc. simpl. rewrite Hprev. unfold copy_step. simpl.
  destruct (Hin n ltac:(lia)) as (entry & -> & Hbound). simpl.
  destruct (memcpy_Some buffer1
              (RawCodeOffset cfg + Z.to_nat (instructions_offset entry))
              (instructions (builtin (builtins isolate) n)))
    as [buffer' Hcopy]; [lia|].
  exists buffer'. split; [done|].
  by rewrite (memcpy_length _ _ _ _ Hcopy).
Qed.

(** The entries of a table that follows two fields of the size of a
    [size_t]. *)
Lemma Metadata_at_table cfg d field1 field2 table (i : nat) entry :
  metadata_bytes d = field1 ++ field2 ++ encode_table table →
  length field1 = kSizetSize cfg → length field2 = kSizetSize cfg →
  table !! i = Some entry →
  0 ≤ instructions_offset entry < 2 ^ 32 →
  0 ≤ instructions_length entry < 2 ^ 32 →
  Metadata_at cfg d (Z.of_nat i) = Some entry.
Proof.
  intros Hbytes H1 H2 Hentry Ho Hl.
  unfold Metadata_at. rewrite decide_True by lia. rewrite Hbytes, Nat2Z.id.
  rewrite app_assoc.
  replace (MetadataTableOffset cfg) with (length (field1 ++ field2))
    by (unfold MetadataTableOffset, IsolateHashOffset, IsolateHashSize,
          EmbeddedBlobHashOffset, EmbeddedBlobHashSize;
        rewrite length_app; lia).
  rewrite read_bytes_app_r.
  rewrite (read_bytes_encode_table _ _ entry) by done.
  simpl. f_equal. by apply decode_encode_Metadata.
Qed.

Section BuildSucceeds.
Context (cfg : Config) (os : Platform) (isolate : Isolate) (w : World).
Hypothesis Hsafe : builtins_are_safe cfg isolate.
Hypothesis Hindexed : builtins_are_indexed isolate.
Hypothesis Hpad : pads_units cfg isolate.
Hypothesis Hfit : fits_uint32 cfg isolate.
Hypothesis Hint : sizes_are_ints isolate.
Hypothesis Htargets : code_targets_fit cfg isolate.

Let N := builtin_count (builtins isolate).
Let s := layout_loop cfg isolate (stderr w).

Hypothesis Hmetadata :
  Z.of_nat (MetadataTableOffset cfg) + Z.of_nat (MetadataTableSize N) < 2 ^ 32.

Lemma safe_layout : saw_unsafe_builtin s = false.
Proof.
  destruct (saw_unsafe_builtin s) eqn:Hsaw; [|done]. exfalso.
  unfold s in Hsaw. rewrite layout_loop_upto in Hsaw.
  apply saw_unsafe_builtin_upto in Hsaw as (i & Hi & Hunsafe).
  destruct (Hsafe i Hi) as [Hind Halias]. destruct Hunsafe; congruence.
Qed.

Lemma fitting_code_size :
  blob_code_size cfg isolate w = unit_position cfg isolate N.
Proof.
  unfold blob_code_size, unit_position.
  rewrite raw_code_size_layout_loop. fold N.
  pose proof (raw_size_after_range cfg isolate N).
  rewrite wrap32_small; [lia|].
  rewrite raw_size_after_no_overflow by (try done; fold N; lia).
  pose proof (padded_total_mono cfg isolate 0 N Hpad ltac:(lia) ltac:(fold N; lia)).
  unfold fits_uint32 in Hfit. fold N in Hfit. lia.
Qed.

Lemma fitting_metadata_size :
  blob_metadata_size cfg isolate
  = (kSizetSize cfg + (kSizetSize cfg + sizeof_Metadata * N))%nat.
Proof.
  unfold blob_metadata_size. fold N. rewrite wrap32_small by lia.
  unfold MetadataTableOffset, IsolateHashOffset, IsolateHashSize,
    EmbeddedBlobHashOffset, EmbeddedBlobHashSize, MetadataTableSize. lia.
Qed.

Lemma unit_ends_in_code i :
  (i < N)%nat →
  (unit_position cfg isolate i
   + length (instructions (builtin (builtins isolate) i))
   ≤ unit_position cfg isolate N)%nat.
Proof. intros Hi. by apply unit_position_apart. Qed.

Lemma layout_entry i :
  (i < N)%nat →
  metadata s !! i
  = Some {| instructions_offset := raw_size_after cfg isolate i;
            instructions_length := unit_length isolate i |}.
Proof.
  intros Hi. unfold s. rewrite layout_loop_upto.
  apply metadata_upto_lookup; fold N; lia.
Qed.

(** The blob before the fixer runs: its table can be read. *)
Lemma start_before_fixer code md code1 (i : nat) :
  (i < N)%nat →
  InstructionStartOfBuiltin cfg
    {| code_ := code; code_bytes := code1; metadata_ := md;
       metadata_bytes :=
         replicate (kSizetSize cfg) (indeterminate cfg)
         ++ encode_size_t cfg
              (wrap_size_t cfg (HashIsolateForEmbeddedBlob isolate))
         ++ encode_table (metadata s) |}
    (Z.of_nat i)
  = Some (code + Z.of_nat (unit_position cfg isolate i)).
Proof.
  intros Hi. unfold InstructionStartOfBuiltin.
  erewrite Metadata_at_table;
    [|cbn [metadata_bytes]; reflexivity
     |apply length_replicate
     |unfold encode_size_t; apply length_encode_le
     |by apply layout_entry
     |apply raw_size_after_range
     |apply unit_length_range].
  cbn [fmap option_fmap option_map instructions_offset code_]. f_equal.
  unfold unit_position. pose proof (raw_size_after_range cfg isolate i). lia.
Qed.

Lemma fixer_succeeds code md code1 w0 :
  length code1 = unit_position cfg isolate N →
  ∃ d1,
    FinalizeEmbeddedCodeTargets cfg isolate
      {| code_ := code; code_bytes := code1; metadata_ := md;
         metadata_bytes :=
           replicate (kSizetSize cfg) (indeterminate cfg)
           ++ encode_size_t cfg
                (wrap_size_t cfg (HashIsolateForEmbeddedBlob isolate))
           ++ encode_table (metadata s) |} w0
    = Ok d1 w0 ∧
    same_frame
      {| code_ := code; code_bytes := code1; metadata_ := md;
         metadata_bytes :=
           replicate (kSizetSize cfg) (indeterminate cfg)
           ++ encode_size_t cfg
                (wrap_size_t cfg (HashIsolateForEmbeddedBlob isolate))
           ++ encode_table (metadata s) |} d1.
Proof.
  intros Hlen.
  set (d0 := {| code_ := code; code_bytes := code1; metadata_ := md;
                metadata_bytes := _ |}).
  assert (∀ i, (i < N)%nat →
            InstructionStartOfBuiltin cfg d0
              (builtin_index (builtin (builtins isolate) i))
            = Some (code + Z.of_nat (unit_position cfg isolate i))) as Hstart.
  { intros i Hi. rewrite (Hindexed i Hi). by apply start_before_fixer. }
  assert (∀ i, (i < N)%nat →
            InstructionStartOfBuiltin cfg d0 (Z.of_nat i)
            = Some (code + Z.of_nat (unit_position cfg isolate i))) as Hstart'
    by (intros i Hi; by apply start_before_fixer).
  unfold FinalizeEmbeddedCodeTargets, code_targets_fit in *. fold N in Htargets |- *.
  destruct (direct_code_targets cfg) eqn:Hdirect.
  - assert (∀ i e, (i < N)%nat →
              e ∈ code_target_entries (builtin (builtins isolate) i) →
              ∃ patch, code_target_slot cfg isolate d0 i e = Some patch ∧
                (patch.1 + length patch.2 ≤ length code1)%nat) as Hslots.
    { intros i e Hi He.
      destruct (Htargets i e Hi He) as (_ & Hindex & Hinside).
      unfold code_target_slot. rewrite (Hstart i Hi). simpl.
      unfold patch_of.
      set (target := GetCodeFromTargetAddress isolate (entry_target_address e))
        in *.
      replace (builtin_index target)
        with (Z.of_nat (Z.to_nat (builtin_index target))) by lia.
      rewrite Hstart' by lia.
      rewrite decide_True by (cbn [code_ d0]; lia).
      eexists. split; [reflexivity|]. cbn [fst snd code_ d0].
      pose proof (unit_ends_in_code i Hi).
      specialize (Hinside
        (code + Z.of_nat (unit_position cfg isolate i)
         + Z.of_nat (entry_pc_offset e))
        (code + Z.of_nat (unit_position cfg isolate
                            (Z.to_nat (builtin_index target))))).
      lia. }
    destruct (patches_from_defined cfg isolate d0 0 N) as [ps Hps].
    { intros i e Hi He. destruct (Hslots i e ltac:(lia) He) as (p & -> & _).
      by eexists. }
    { intros i Hi. rewrite Hstart by lia. by eexists. }
    destruct (apply_patches_in_bounds ps code1) as [bytes Hbytes].
    { intros patch Hpatch.
      destruct (patches_from_elem _ _ _ _ _ _ _ Hps Hpatch)
        as (i & e & Hi & He & Hslot).
      destruct (Hslots i e ltac:(lia) He) as (p & Hp & Hbound). congruence. }
    exists (with_code_bytes bytes d0).
    assert (same_frame d0 (with_code_bytes bytes d0)) as Hframe
      by (apply same_frame_with_code_bytes; by eapply apply_patches_length).
    split; [|done].
    apply (finalize_loop_direct_Ok_iff _ _ _ _ _ _ _ _ Hdirect).
    split; [done|]. split; [done|]. split.
    + intros i e Hi He. by destruct (Htargets i e ltac:(lia) He) as (? & _).
    + by exists ps.
  - exists d0. split; [|apply same_frame_refl].
    assert (∀ n lo, (lo + n ≤ N)%nat →
              for_loop_M (finalize_step cfg isolate) lo n d0 w0 = Ok d0 w0)
      as Hloop.
    { induction n as [|n IH]; intros lo Hn; [done|].
      simpl. unfold bind.
      assert (finalize_step cfg isolate lo d0 w0 = Ok d0 w0) as ->.
      { apply (finalize_step_indirect_Ok_iff _ _ _ _ _ _ _ Hdirect).
        split; [done|]. split; [done|]. split.
        - rewrite Hstart by lia. by eexists.
        - apply Htargets. lia. }
      apply IH. lia. }
    apply Hloop. lia.
Qed.
End BuildSucceeds.

(** X12. [FromIsolate] returns a blob whenever every builtin passes the two
    checks, [PadAndAlign] covers the lengths, the two buffers fit 32-bit
    sizes, the code targets point to builtins and their slots lie in the
    instructions, and [new] answers: no copy of the build leaves its
    buffer and no check fails. The blob is at the two addresses [new]
    answered. *)
Theorem FromIsolate_succeeds
    (cfg : Config) (os : Platform) (isolate : Isolate) (w : World)
    (code md : Z) :
  builtins_are_safe cfg isolate → builtins_are_indexed isolate →
  pads_units cfg isolate → fits_uint32 cfg isolate → sizes_are_ints isolate →
  code_targets_fit cfg isolate →
  Z.of_nat (MetadataTableOffset cfg)
  + Z.of_nat (MetadataTableSize (builtin_count (builtins isolate))) < 2 ^ 32 →
  operator_new os (new_arrays w) (blob_code_size cfg isolate w) = Some code →
  operator_new os (<[code := blob_code_size cfg isolate w]> (new_arrays w))
    (blob_metadata_size cfg isolate) = Some md →
  ∃ d w',
    FromIsolate cfg os isolate w = Ok d w' ∧
    code_ d = code ∧ metadata_ d = md.
Proof.
  intros Hsafe Hindexed Hpad Hfit Hint Htargets Hmetadata Hnew1 Hnew2.
  set (N := builtin_count (builtins isolate)) in *.
  set (s := layout_loop cfg isolate (stderr w)).
  set (k := kSizetSize cfg).
  set (isolate_hash :=
         encode_size_t cfg (wrap_size_t cfg (HashIsolateForEmbeddedBlob isolate))).
  assert (length isolate_hash = k) as Hih
    by (unfold isolate_hash, encode_size_t; apply length_encode_le).
  assert (length (encode_table (metadata s)) = (sizeof_Metadata * N)%nat)
    as Htable.
  { rewrite length_encode_table. unfold s.
    by rewrite layout_loop_upto, length_metadata_upto. }
  pose proof (fitting_metadata_size cfg isolate Hmetadata) as Hmsize.
  pose proof (fitting_code_size cfg isolate w Hpad Hfit) as Hcsize.
  fold N k in Hmsize. fold N in Hcsize.
  (* the two copies into the metadata buffer *)
  assert (memcpy (replicate (blob_metadata_size cfg isolate) (indeterminate cfg))
            (IsolateHashOffset cfg) isolate_hash
          = Some (replicate k (indeterminate cfg) ++ isolate_hash
                  ++ replicate (sizeof_Metadata * N) (indeterminate cfg)))
    as Hm1.
  { rewrite Hmsize, !replicate_add. apply memcpy_app.
    - rewrite length_replicate. reflexivity.
    - by rewrite length_replicate. }
  assert (memcpy (replicate k (indeterminate cfg) ++ isolate_hash
                  ++ replicate (sizeof_Metadata * N) (indeterminate cfg))
            (MetadataTableOffset cfg) (encode_table (metadata s))
          = Some (replicate k (indeterminate cfg) ++ isolate_hash
                  ++ encode_table (metadata s))) as Hm2.
  { rewrite !app_assoc. apply memcpy_app_end.
    - rewrite length_app, length_replicate, Hih.
      unfold MetadataTableOffset, IsolateHashOffset, IsolateHashSize,
        EmbeddedBlobHashOffset, EmbeddedBlobHashSize. fold k. lia.
    - by rewrite length_replicate. }
  (* the copies into the code buffer *)
  destruct (write_raw_data_defined cfg isolate (metadata s) N
              (ZapCode cfg (blob_code_size cfg isolate w)))
    as (code1 & Hcopy & Hlen1).
  { intros i Hi. eexists. split; [by apply layout_entry|].
    cbn [instructions_offset]. unfold ZapCode. rewrite length_replicate, Hcsize.
    by apply unit_ends_in_code. }
  unfold ZapCode in Hlen1. rewrite length_replicate, Hcsize in Hlen1.
  (* the fixer *)
  destruct (fixer_succeeds cfg isolate w Hindexed Hpad Hfit Hint Htargets
              code md code1
              (with_new_arrays (insert md (blob_metadata_size cfg isolate))
                 (with_new_arrays (insert code (blob_code_size cfg isolate w))
                    (with_stderr (printed s) w))) Hlen1)
    as (d1 & Hfix & Hframe).
  destruct Hframe as (Hc & Hmd & Hbytes & _).
  cbn [code_ metadata_ metadata_bytes] in Hc, Hmd, Hbytes.
  (* the hash *)
  assert (k ≤ length (metadata_bytes d1))%nat as Hfield
    by (rewrite Hbytes, length_app, length_replicate; lia).
  destruct (memcpy_Some (metadata_bytes d1) EmbeddedBlobHashOffset
              (encode_size_t cfg
                 (wrap_size_t cfg
                    (Checksum cfg
                       (drop (EmbeddedBlobHashSize cfg) (metadata_bytes d1))
                       (code_bytes d1)))))
    as [metadata3 Hm3].
  { unfold encode_size_t, EmbeddedBlobHashOffset.
    rewrite length_encode_le. fold k. lia. }
  exists (with_metadata_bytes metadata3 d1). eexists. split.
  - eapply FromIsolate_Ok_intro; try eassumption.
    + by apply safe_layout.
    + unfold CreateEmbeddedBlobHash.
      rewrite decide_True by (unfold EmbeddedBlobHashSize; fold k; lia).
      reflexivity.
  - done.
Qed.

Lemma scenario_is_safe : builtins_are_safe example_cfg scenario_isolate.
Proof.
  intros i Hi. simpl in Hi.
  destruct i as [|[|[|i]]]; [by vm_compute..|lia].
Qed.

Lemma scenario_is_indexed : builtins_are_indexed scenario_isolate.
Proof.
  intros i Hi. simpl in Hi.
  destruct i as [|[|[|i]]]; [by vm_compute..|lia].
Qed.

Lemma scenario_code_targets_fit : code_targets_fit example_cfg scenario_isolate.
Proof.
  unfold code_targets_fit. cbn [direct_code_targets example_cfg].
  intros i e Hi He. simpl in Hi.
  destruct i as [|[|[|i]]]; [| | |lia].
  - assert (code_target_entries (builtin (builtins scenario_isolate) 0) = [])
      as Hnone by (vm_compute; reflexivity).
    rewrite Hnone in He. exfalso. exact (not_elem_of_nil _ He).
  - assert (code_target_entries (builtin (builtins scenario_isolate) 1)
            = [ {| entry_rmode := CODE_TARGET; entry_pc_offset := 1;
                   entry_target_address := 12288 |} ])
      as Hone by (vm_compute; reflexivity).
    rewrite Hone in He. apply list_elem_of_singleton in He as ->.
    split; [by vm_compute|]. split; [by vm_compute|].
    intros pc start. cbn [set_target_address_at example_cfg].
    rewrite length_encode_le. simpl. lia.
  - assert (code_target_entries (builtin (builtins scenario_isolate) 2)
            = [ {| entry_rmode := RELATIVE_CODE_TARGET; entry_pc_offset := 0;
                   entry_target_address := 4096 |} ])
      as Hone by (vm_compute; reflexivity).
    rewrite Hone in He. apply list_elem_of_singleton in He as ->.
    split; [by vm_compute|]. split; [by vm_compute|].
    intros pc start. cbn [set_target_address_at example_cfg].
    rewrite length_encode_le. simpl. lia.
Qed.

Lemma FromIsolate_succeeds_witness :
  ∃ d w',
    FromIsolate example_cfg example_os scenario_isolate empty_world = Ok d w' ∧
    code_ d = 65536 ∧ metadata_ d = 65617.
Proof.
  apply (FromIsolate_succeeds example_cfg example_os scenario_isolate
           empty_world 65536 65617 scenario_is_safe scenario_is_indexed
           example_pads_scenario example_fits_scenario scenario_sizes_are_ints
           scenario_code_targets_fit).
  - vm_compute. reflexivity.
  - vm_compute. reflexivity.
  - vm_compute. reflexivity.
Defined.

(** ** The statistics *)

Lemma static_cast_int_small z : 0 ≤ z < 2 ^ 31 → static_cast_int z = z.
Proof. intros Hz. unfold static_cast_int. rewrite Z.mod_small; lia. Qed.

Lemma int_sum_app l1 l2 : int_sum (l1 ++ l2) = int_sum l1 + int_sum l2.
Proof. unfold int_sum. induction l1 as [|x l1 IH]; simpl; lia. Qed.

Lemma all_upto_spec check n z :
  all_upto check n = true → 0 ≤ z ≤ Z.of_nat n → check z = true.
Proof.
  induction n as [|n IH]; simpl; intros Hall Hz.
  - by replace z with 0 by lia.
  - apply andb_true_iff in Hall as [Hn Hrest].
    destruct (decide (z = Z.of_nat (S n))) as [->|Hne]; [done|].
    apply IH; [done|lia].
Qed.

Lemma percentile_indexes_checked :
  all_upto percentile_indexes_round_down kMaxCheckedCount = true.
Proof. vm_compute. reflexivity. Qed.

Lemma percentile_index_round_down n :
  0 ≤ n ≤ Z.of_nat kMaxCheckedCount →
  percentile_index n (double_literal 5 10) = Some (n / 2) ∧
  percentile_index n (double_literal 75 100) = Some (3 * n / 4) ∧
  percentile_index n (double_literal 90 100) = Some (9 * n / 10) ∧
  percentile_index n (double_literal 99 100) = Some (99 * n / 100).
Proof.
  intros Hn.
  pose proof (all_upto_spec _ _ n percentile_indexes_checked Hn) as Hcheck.
  unfold percentile_indexes_round_down in Hcheck.
  repeat (apply andb_true_iff in Hcheck as [Hcheck ?%bool_decide_eq_true]).
  apply bool_decide_eq_true in Hcheck. done.
Qed.

Lemma int_sizes_S cfg d n :
  int_sizes cfg d (S n)
  = int_sizes cfg d n
    ++ [static_cast_int <$> InstructionSizeOfBuiltin cfg d (Z.of_nat n)].
Proof. unfold int_sizes. by rewrite seq_S, fmap_app. Qed.

Lemma statistics_loop_S cfg d kCount n :
  statistics_loop cfg d kCount (S n)
  = statistics_step cfg d n (statistics_loop cfg d kCount n).
Proof. unfold statistics_loop. by rewrite for_loop_snoc. Qed.

(** The loop, read backwards: when it is defined, it has read the sizes of
    the builtins one by one. *)
Lemma statistics_loop_inv cfg d kCount n st :
  statistics_loop cfg d kCount n = Some st → (n ≤ kCount)%nat →
  ∃ ls, int_sizes cfg d n = Some <$> ls ∧
    embedded_count st = Z.of_nat n ∧
    instruction_size st = int_sum ls ∧
    sizes st = ls ++ replicate (kCount - n) (indeterminate_int cfg).
Proof.
  revert st. induction n as [|n IH]; intros st Hrun Hn.
  - injection Hrun as <-. exists []. simpl. by rewrite Nat.sub_0_r.
  - rewrite statistics_loop_S in Hrun. unfold statistics_step in Hrun.
    destruct (statistics_loop cfg d kCount n) as [st0|]; [|done].
    destruct (IH st0 eq_refl ltac:(lia)) as (ls & Hls & Hcount & Hsum & Hsizes).
    simpl in Hrun.
    destruct (InstructionSizeOfBuiltin cfg d (Z.of_nat n)) as [size|] eqn:Hsize;
      [|done].
    simpl in Hrun.
    destruct (int_add (instruction_size st0) (static_cast_int size))
      as [total|] eqn:Htotal; [|done].
    simpl in Hrun.
    destruct (array_set (sizes st0) (embedded_count st0) (static_cast_int size))
      as [sizes'|] eqn:Hset; [|done].
    simpl in Hrun.
    destruct (int_add (embedded_count st0) 1) as [count|] eqn:Hcount'; [|done].
    injection Hrun as <-.
    unfold int_add in Htotal, Hcount'. unfold array_set in Hset.
    repeat case_decide; try done.
    injection Htotal as <-. injection Hcount' as <-. injection Hset as <-.
    assert (length ls = n) as Hlen.
    { apply (f_equal length) in Hls.
      unfold int_sizes in Hls. by rewrite !length_fmap, length_seq in Hls. }
    exists (ls ++ [static_cast_int size]).
    rewrite int_sizes_S, Hls, Hsize, fmap_app. split; [done|].
    cbn [embedded_count instruction_size sizes].
    split; [lia|]. split; [rewrite int_sum_app, Hsum; unfold int_sum; simpl; lia|].
    rewrite Hsizes, Hcount, Nat2Z.id.
    replace (kCount - n)%nat with (S (kCount - S n)) by lia.
    cbn [replicate].
    rewrite <- Hlen at 1.
    rewrite insert_app_r_alt by lia. rewrite Nat.sub_diag. simpl.
    by rewrite <- app_assoc.
Qed.

(** The loop, read forwards. *)
Lemma statistics_loop_run cfg d kCount n ls :
  (n ≤ kCount)%nat → Z.of_nat kCount < 2 ^ 31 →
  int_sizes cfg d n = Some <$> ls →
  (∀ m, (m ≤ n)%nat → - 2 ^ 31 ≤ int_sum (take m ls) < 2 ^ 31) →
  statistics_loop cfg d kCount n
  = Some {| embedded_count := Z.of_nat n; instruction_size := int_sum ls;
            sizes := ls ++ replicate (kCount - n) (indeterminate_int cfg) |}.
Proof.
  revert ls. induction n as [|n IH]; intros ls Hn Hk Hls Hsums.
  - destruct ls; [|done]. unfold statistics_loop. simpl.
    by rewrite Nat.sub_0_r.
  - rewrite int_sizes_S in Hls.
    assert (length ls = S n) as Hlen.
    { apply (f_equal length) in Hls.
      rewrite length_app, !length_fmap in Hls. unfold int_sizes in Hls.
      rewrite length_fmap, length_seq in Hls. simpl in Hls. lia. }
    destruct (decide (ls = [])) as [->|Hne]; [done|].
    destruct (exists_last Hne) as (ls' & v & ->).
    rewrite fmap_app in Hls. simpl in Hls.
    apply app_inj_tail in Hls as [Hls' Hv].
    rewrite length_app in Hlen. simpl in Hlen.
    rewrite statistics_loop_S.
    rewrite (IH ls') by
      (try done; try lia;
       intros m Hm; specialize (Hsums m ltac:(lia));
       by rewrite take_app_le in Hsums by lia).
    unfold statistics_step. simpl. rewrite Hv. simpl.
    pose proof (Hsums (S n) ltac:(lia)) as Hall.
    rewrite take_ge in Hall by (rewrite length_app; simpl; lia).
    rewrite int_sum_app in Hall. unfold int_sum at 2 in Hall. simpl in Hall.
    unfold int_add. rewrite decide_True by lia. simpl.
    unfold array_set. cbn [sizes embedded_count].
    rewrite decide_True
      by (rewrite length_app, length_replicate; lia).
    simpl. rewrite decide_True by lia. simpl.
    f_equal. f_equal; [lia|rewrite int_sum_app; unfold int_sum; simpl; lia|].
    rewrite Nat2Z.id.
    replace (kCount - n)%nat with (S (kCount - S n)) by lia.
    cbn [replicate].
    assert (length ls' = n) as Hlen' by lia.
    rewrite <- Hlen' at 1.
    rewrite insert_app_r_alt by lia. rewrite Nat.sub_diag. simpl.
    by rewrite <- app_assoc.
Qed.

Lemma Z2Nat_le a b : a ≤ b → (Z.to_nat a ≤ Z.to_nat b)%nat.
Proof. lia. Qed.

Lemma StronglySorted_lookup (l : list Z) (i j : nat) a b :
  StronglySorted Z.le l → (i ≤ j)%nat →
  l !! i = Some a → l !! j = Some b → a ≤ b.
Proof.
  intros Hsorted. revert i j.
  induction Hsorted as [|x l Hsorted IH Hall]; intros i j Hij Hi Hj; [done|].
  destruct i as [|i], j as [|j]; simpl in *.
  - assert (a = b) by congruence. lia.
  - injection Hi as <-. rewrite Forall_forall in Hall.
    apply Hall. by eapply list_elem_of_lookup_2.
  - lia.
  - apply (IH i j); [lia|done..].
Qed.

(** What [statistics] has computed when it is defined. *)
Lemma statistics_inv cfg bs d st :
  statistics cfg bs d = Some st →
  (builtin_count bs ≤ kMaxCheckedCount)%nat →
  let N := builtin_count bs in
  ∃ ls sorted,
    int_sizes cfg d N = Some <$> ls ∧
    sorted = merge_sort Z.le ls ∧
    embedded_builtin_count st = Z.of_nat N ∧
    printed_instruction_size st = int_sum ls ∧
    sorted !! Z.to_nat (Z.of_nat N / 2) = Some (percentile_50 st) ∧
    sorted !! Z.to_nat (3 * Z.of_nat N / 4) = Some (percentile_75 st) ∧
    sorted !! Z.to_nat (9 * Z.of_nat N / 10) = Some (percentile_90 st) ∧
    sorted !! Z.to_nat (99 * Z.of_nat N / 100) = Some (percentile_99 st).
Proof.
  intros Hrun Hmax N. unfold statistics in Hrun. fold N in Hrun.
  destruct (statistics_loop cfg d N N) as [st0|] eqn:Hloop; [|done].
  destruct (statistics_loop_inv cfg d N N st0 Hloop ltac:(lia))
    as (ls & Hls & Hcount & Hsum & Hsizes).
  assert (length ls = N) as Hlen.
  { apply (f_equal length) in Hls.
    unfold int_sizes in Hls. by rewrite !length_fmap, length_seq in Hls. }
  rewrite Nat.sub_diag in Hsizes. simpl in Hsizes. rewrite app_nil_r in Hsizes.
  simpl in Hrun. rewrite Hcount, Hsizes in Hrun.
  unfold sort_prefix in Hrun. rewrite decide_True in Hrun by lia.
  simpl in Hrun. rewrite Nat2Z.id in Hrun.
  rewrite take_ge, drop_ge, app_nil_r in Hrun by lia.
  destruct (percentile_index_round_down (Z.of_nat N) ltac:(lia))
    as (H50 & H75 & H90 & H99).
  rewrite H50, H75, H90, H99 in Hrun. simpl in Hrun.
  unfold array_get in Hrun.
  rewrite !decide_True in Hrun by (apply Z.div_pos; lia).
  destruct (merge_sort Z.le ls !! Z.to_nat (Z.of_nat N / 2))
    as [s50|] eqn:Hs50; [|done]. simpl in Hrun.
  destruct (merge_sort Z.le ls !! Z.to_nat (3 * Z.of_nat N / 4))
    as [s75|] eqn:Hs75; [|done]. simpl in Hrun.
  destruct (merge_sort Z.le ls !! Z.to_nat (9 * Z.of_nat N / 10))
    as [s90|] eqn:Hs90; [|done]. simpl in Hrun.
  destruct (merge_sort Z.le ls !! Z.to_nat (99 * Z.of_nat N / 100))
    as [s99|] eqn:Hs99; [|done]. simpl in Hrun.
  injection Hrun as <-. exists ls, (merge_sort Z.le ls).
  cbn [embedded_builtin_count printed_instruction_size percentile_50
       percentile_75 percentile_90 percentile_99].
  repeat split; done.
Qed.

(** X13. The four percentiles [PrintStatistics] prints are entries of the
    sorted instruction sizes, at the ranks of a half, three quarters, nine
    tenths and 99 hundredths of the builtin count, rounded down; they do not
    decrease from one line to the next, and each of them is the instruction
    size of a builtin. *)
Theorem PrintStatistics_percentiles
    (cfg : Config) (bs : Builtins) (d : EmbeddedData) (st : Statistics) :
  statistics cfg bs d = Some st →
  (builtin_count bs ≤ kMaxCheckedCount)%nat →
  let N := builtin_count bs in
  ∃ ls,
    int_sizes cfg d N = Some <$> ls ∧
    Sorted Z.le (merge_sort Z.le ls) ∧ merge_sort Z.le ls ≡ₚ ls ∧
    merge_sort Z.le ls !! Z.to_nat (Z.of_nat N / 2) = Some (percentile_50 st) ∧
    merge_sort Z.le ls !! Z.to_nat (3 * Z.of_nat N / 4)
    = Some (percentile_75 st) ∧
    merge_sort Z.le ls !! Z.to_nat (9 * Z.of_nat N / 10)
    = Some (percentile_90 st) ∧
    merge_sort Z.le ls !! Z.to_nat (99 * Z.of_nat N / 100)
    = Some (percentile_99 st) ∧
    percentile_50 st ≤ percentile_75 st ∧
    percentile_75 st ≤ percentile_90 st ∧
    percentile_90 st ≤ percentile_99 st ∧
    ∀ p, p ∈ [percentile_50 st; percentile_75 st; percentile_90 st;
              percentile_99 st] →
      ∃ i size, (i < N)%nat ∧
        InstructionSizeOfBuiltin cfg d (Z.of_nat i) = Some size ∧
        p = static_cast_int size.
Proof.
  intros Hrun Hmax N.
  destruct (statistics_inv cfg bs d st Hrun Hmax)
    as (ls & sorted & Hls & -> & _ & _ & H50 & H75 & H90 & H99).
  fold N in Hls, H50, H75, H90, H99.
  pose proof (StronglySorted_merge_sort Z.le ls) as Hsorted.
  exists ls. split; [done|]. split; [apply (Sorted_merge_sort Z.le)|].
  split; [apply merge_sort_Permutation|].
  split; [done|]. split; [done|]. split; [done|]. split; [done|].
  assert (Z.of_nat N / 2 ≤ 3 * Z.of_nat N / 4) as H1
    by (apply Z.div_le_lower_bound; [lia|];
        pose proof (Z.mul_div_le (Z.of_nat N) 2 ltac:(lia)); lia).
  assert (3 * Z.of_nat N / 4 ≤ 9 * Z.of_nat N / 10) as H2
    by (apply Z.div_le_lower_bound; [lia|];
        pose proof (Z.mul_div_le (3 * Z.of_nat N) 4 ltac:(lia)); lia).
  assert (9 * Z.of_nat N / 10 ≤ 99 * Z.of_nat N / 100) as H3
    by (apply Z.div_le_lower_bound; [lia|];
        pose proof (Z.mul_div_le (9 * Z.of_nat N) 10 ltac:(lia)); lia).
  assert (0 ≤ Z.of_nat N / 2) as H0 by (apply Z.div_pos; lia).
  split; [apply (StronglySorted_lookup _ _ _ _ _ Hsorted
                   (Z2Nat_le _ _ H1) H50 H75)|].
  split; [apply (StronglySorted_lookup _ _ _ _ _ Hsorted
                   (Z2Nat_le _ _ H2) H75 H90)|].
  split; [apply (StronglySorted_lookup _ _ _ _ _ Hsorted
                   (Z2Nat_le _ _ H3) H90 H99)|].
  assert (∀ k p, merge_sort Z.le ls !! k = Some p →
            ∃ i size, (i < N)%nat ∧
              InstructionSizeOfBuiltin cfg d (Z.of_nat i) = Some size ∧
              p = static_cast_int size) as Hfrom.
  { intros k p Hk. apply list_elem_of_lookup_2 in Hk.
    rewrite merge_sort_Permutation in Hk.
    apply list_elem_of_lookup in Hk as [i Hi].
    assert ((Some <$> ls) !! i = Some (Some p)) as Hi'
      by (by rewrite list_lookup_fmap, Hi).
    rewrite <- Hls in Hi'. unfold int_sizes in Hi'.
    rewrite list_lookup_fmap in Hi'.
    destruct (seq 0 N !! i) as [j|] eqn:Hj; [|done].
    apply lookup_seq in Hj as [-> Hlt]. simpl in Hi'.
    destruct (InstructionSizeOfBuiltin cfg d (Z.of_nat i)) as [size|] eqn:Hsize;
      [|done].
    simpl in Hi'. exists i, size. split; [lia|]. split; [done|]. congruence. }
  intros p Hp.
  repeat (apply elem_of_cons in Hp as [->|Hp]; [by eapply Hfrom|]).
  by apply not_elem_of_nil in Hp.
Qed.

Lemma scenario_statistics :
  statistics example_cfg (builtins scenario_isolate) scenario_blob
  = Some {| total_size := 120; printed_metadata_size := 40;
            printed_instruction_size := 51; padding := 29;
            embedded_builtin_count := 3;
            percentile_50 := 10; percentile_75 := 37;
            percentile_90 := 37; percentile_99 := 37 |}.
Proof. vm_compute. reflexivity. Qed.

Lemma PrintStatistics_percentiles_witness :
  ∃ i size,
    (i < 3)%nat ∧
    InstructionSizeOfBuiltin example_cfg scenario_blob (Z.of_nat i) = Some size ∧
    10 = static_cast_int size.
Proof.
  destruct (PrintStatistics_percentiles example_cfg (builtins scenario_isolate)
              scenario_blob _ scenario_statistics)
    as (ls & _ & _ & _ & _ & _ & _ & _ & _ & _ & _ & Hfrom).
  - vm_compute. lia.
  - apply (Hfrom 10). apply list_elem_of_here.
Defined.

Lemma fmap_seq_ext {A} (f g : nat → A) n :
  (∀ i, (i < n)%nat → f i = g i) → f <$> seq 0 n = g <$> seq 0 n.
Proof.
  intros Heq. apply list_fmap_ext. intros i x Hx.
  apply lookup_seq in Hx as [-> Hlt]. by apply Heq.
Qed.

Lemma take_fmap_seq {A} (f : nat → A) m n :
  (m ≤ n)%nat → take m (f <$> seq 0 n) = f <$> seq 0 m.
Proof.
  intros Hm. rewrite <- fmap_take. f_equal.
  rewrite take_seq. f_equal. lia.
Qed.

Lemma int_sum_unit_lengths isolate n :
  int_sum (unit_length isolate <$> seq 0 n) = instructions_total isolate n.
Proof.
  induction n as [|n IH]; [done|].
  rewrite seq_S, fmap_app, int_sum_app, IH. unfold int_sum. simpl. lia.
Qed.

Lemma instructions_total_le_padded cfg isolate n :
  pads_units cfg isolate → (n ≤ builtin_count (builtins isolate))%nat →
  0 ≤ instructions_total isolate n ≤ padded_total cfg isolate n.
Proof.
  intros Hpad. induction n as [|n IH]; intros Hn; [simpl; lia|].
  simpl. destruct (Hpad n ltac:(lia)) as [Hcover _].
  pose proof (unit_length_range isolate n). specialize (IH ltac:(lia)). lia.
Qed.

(** X14. For a blob built by [FromIsolate] whose sizes are [int]s,
    [PrintStatistics] reads inside its array and overflows nowhere. It
    prints the builtin count, the sum of the instruction sizes of the
    builtins, the sizes of the two buffers and their sum, and as padding
    the header of the code buffer plus the alignment gaps, which is the code
    size less the instructions and is not negative. *)
Theorem PrintStatistics_of_a_built_blob
    (cfg : Config) (os : Platform) (isolate : Isolate)
    (w w' : World) (d : EmbeddedData) :
  FromIsolate cfg os isolate w = Ok d w' →
  pads_units cfg isolate → fits_uint32 cfg isolate → sizes_are_ints isolate →
  code_size d + metadata_size d < 2 ^ 31 →
  (1 ≤ builtin_count (builtins isolate) ≤ kMaxCheckedCount)%nat →
  let N := builtin_count (builtins isolate) in
  ∃ st,
    statistics cfg (builtins isolate) d = Some st ∧
    is_Some (PrintStatistics cfg (builtins isolate) d) ∧
    embedded_builtin_count st = Z.of_nat N ∧
    printed_instruction_size st = instructions_total isolate N ∧
    printed_metadata_size st = metadata_size d ∧
    total_size st = code_size d + metadata_size d ∧
    padding st = code_size d - instructions_total isolate N ∧
    padding st
    = Z.of_nat (RawCodeOffset cfg)
      + (padded_total cfg isolate N - instructions_total isolate N) ∧
    Z.of_nat (RawCodeOffset cfg) ≤ padding st.
Proof.
  intros Hrun Hpad Hfit Hint Hsmall HN N.
  set (ls := unit_length isolate <$> seq 0 N).
  assert (length ls = N) as Hlen by (unfold ls; by rewrite length_fmap, length_seq).
  assert (int_sizes cfg d N = Some <$> ls) as Hls.
  { unfold int_sizes, ls. rewrite <- list_fmap_compose.
    apply fmap_seq_ext. intros i Hi. unfold InstructionSizeOfBuiltin.
    rewrite (built_Metadata_at cfg os isolate w w' d Hrun i Hi). simpl.
    f_equal. apply static_cast_int_small.
    rewrite (unit_length_int isolate Hint i Hi).
    pose proof (Hint i Hi). unfold raw_instruction_size in *. lia. }
  assert (code_size d
          = Z.of_nat (RawCodeOffset cfg) + padded_total cfg isolate N) as Hcode.
  { pose proof (built_code_region_end cfg os isolate w w' d Hrun Hpad Hfit) as H.
    unfold unit_start in H. fold N in H. lia. }
  assert (0 ≤ metadata_size d) as Hmd by (unfold metadata_size; lia).
  assert (∀ m, (m ≤ N)%nat →
            0 ≤ instructions_total isolate m ≤ padded_total cfg isolate N)
    as Htotal.
  { intros m Hm.
    pose proof (instructions_total_le_padded cfg isolate m Hpad Hm).
    pose proof (padded_total_mono cfg isolate m N Hpad Hm ltac:(fold N; lia)).
    lia. }
  pose proof (Htotal N ltac:(lia)) as HtotalN.
  assert (statistics_loop cfg d N N
          = Some {| embedded_count := Z.of_nat N;
                    instruction_size := instructions_total isolate N;
                    sizes := ls |}) as Hloop.
  { rewrite (statistics_loop_run cfg d N N ls); [| lia | | done |].
    - rewrite Nat.sub_diag. simpl. rewrite app_nil_r.
      unfold ls. by rewrite int_sum_unit_lengths.
    - unfold kMaxCheckedCount in HN. lia.
    - intros m Hm. unfold ls. rewrite take_fmap_seq by done.
      rewrite int_sum_unit_lengths. specialize (Htotal m Hm). lia. }
  destruct (percentile_index_round_down (Z.of_nat N) ltac:(lia))
    as (H50 & H75 & H90 & H99).
  assert (length (merge_sort Z.le ls) = N) as Hsorted
    by (by rewrite merge_sort_Permutation).
  assert (∀ k, 0 ≤ k < Z.of_nat N →
            ∃ v, array_get (merge_sort Z.le ls) k = Some v) as Hget.
  { intros k Hk. unfold array_get. rewrite decide_True by lia.
    apply lookup_lt_is_Some. lia. }
  destruct (Hget (Z.of_nat N / 2)) as [s50 Hs50].
  { split; [apply Z.div_pos; lia|apply Z.div_lt_upper_bound; lia]. }
  destruct (Hget (3 * Z.of_nat N / 4)) as [s75 Hs75].
  { split; [apply Z.div_pos; lia|apply Z.div_lt_upper_bound; lia]. }
  destruct (Hget (9 * Z.of_nat N / 10)) as [s90 Hs90].
  { split; [apply Z.div_pos; lia|apply Z.div_lt_upper_bound; lia]. }
  destruct (Hget (99 * Z.of_nat N / 100)) as [s99 Hs99].
  { split; [apply Z.div_pos; lia|apply Z.div_lt_upper_bound; lia]. }
  assert (statistics cfg (builtins isolate) d
          = Some {| total_size := code_size d + metadata_size d;
                    printed_metadata_size := metadata_size d;
                    printed_instruction_size := instructions_total isolate N;
                    padding := code_size d - instructions_total isolate N;
                    embedded_builtin_count := Z.of_nat N;
                    percentile_50 := s50; percentile_75 := s75;
                    percentile_90 := s90; percentile_99 := s99 |}) as Hst.
  { unfold statistics. fold N. rewrite Hloop. simpl.
    unfold sort_prefix. rewrite decide_True by lia. simpl.
    rewrite Nat2Z.id, take_ge, drop_ge, app_nil_r by lia.
    rewrite H50, H75, H90, H99. simpl.
    rewrite Hs50, Hs75, Hs90, Hs99. simpl.
    rewrite (wrap32_small (code_size d + metadata_size d)) by lia.
    rewrite (wrap32_small (code_size d - instructions_total isolate N)) by lia.
    rewrite !static_cast_int_small by lia. reflexivity. }
  eexists. split; [exact Hst|].
  split; [unfold PrintStatistics; rewrite Hst; by eexists|].
  cbn [embedded_builtin_count printed_instruction_size printed_metadata_size
       total_size padding].
  repeat split; lia.
Qed.

Lemma PrintStatistics_of_a_built_blob_witness :
  ∃ st,
    statistics example_cfg (builtins scenario_isolate) scenario_blob = Some st ∧
    printed_instruction_size st = 51 ∧ padding st = 29.
Proof.
  destruct scenario_blob_built as [w' Hrun].
  destruct (PrintStatistics_of_a_built_blob example_cfg example_os
              scenario_isolate empty_world w' scenario_blob Hrun
              example_pads_scenario example_fits_scenario
              scenario_sizes_are_ints)
    as (st & Hst & _ & _ & Hsize & _ & _ & Hpadding & _).
  - vm_compute. reflexivity.
  - vm_compute. lia.
  - exists st. split; [exact Hst|]. split; [exact Hsize|exact Hpadding].
Defined.

(** ** The range of the bytecode handlers *)

(** X15. On a built blob with the bytecode handlers as its last builtins,
    the addresses [InstructionStartOfBytecodeHandlers] and
    [InstructionEndOfBytecodeHandlers] bound a range of the code buffer that
    holds the instructions of every builtin from [kFirstBytecodeHandler]
    on. *)
Theorem bytecode_handlers_lie_between_start_and_end
    (cfg : Config) (os : Platform) (isolate : Isolate)
    (w w' : World) (d : EmbeddedData) (kFirstBytecodeHandler i : Z) :
  FromIsolate cfg os isolate w = Ok d w' →
  pads_units cfg isolate → fits_uint32 cfg isolate →
  0 ≤ kFirstBytecodeHandler ≤ i →
  i < Z.of_nat (builtin_count (builtins isolate)) →
  ∃ first last start size,
    InstructionStartOfBytecodeHandlers cfg kFirstBytecodeHandler d = Some first ∧
    InstructionEndOfBytecodeHandlers cfg (builtins isolate) d = Some last ∧
    InstructionStartOfBuiltin cfg d i = Some start ∧
    InstructionSizeOfBuiltin cfg d i = Some size ∧
    code_ d ≤ first ∧ first ≤ start ∧ 0 ≤ size ∧ start + size ≤ last ∧
    last ≤ code_ d + code_size d.
Proof.
  intros Hrun Hpad Hfit Hfirst Hi.
  set (N := builtin_count (builtins isolate)) in *.
  assert (∀ j : nat, (j < N)%nat →
            InstructionStartOfBuiltin cfg d (Z.of_nat j)
            = Some (unit_start cfg isolate d j) ∧
            InstructionSizeOfBuiltin cfg d (Z.of_nat j)
            = Some (unit_length isolate j) ∧
            0 ≤ unit_length isolate j ∧
            unit_start cfg isolate d j + unit_length isolate j
            ≤ unit_start cfg isolate d (S j)) as Hunit.
  { intros j Hj.
    split; [by apply (built_InstructionStartOfBuiltin cfg os isolate w w')|].
    split.
    { unfold InstructionSizeOfBuiltin.
      by rewrite (built_Metadata_at cfg os isolate w w' d Hrun j Hj). }
    pose proof (unit_length_range isolate j).
    destruct (Hpad j Hj) as [Hcover _]. rewrite unit_start_S. lia. }
  pose proof (unit_start_mono cfg isolate d Hpad) as Hmono. fold N in Hmono.
  destruct (Hunit (Z.to_nat kFirstBytecodeHandler) ltac:(lia))
    as (Hstart_first & _).
  destruct (Hunit (Z.to_nat i) ltac:(lia))
    as (Hstart_i & Hsize_i & Hpos_i & Hend_i).
  destruct (Hunit (N - 1)%nat ltac:(lia))
    as (Hstart_last & Hsize_last & Hpos_last & Hend_last).
  rewrite Z2Nat.id in Hstart_first, Hstart_i, Hsize_i by lia.
  replace (Z.of_nat (N - 1)) with (Z.of_nat N - 1) in Hstart_last, Hsize_last
    by lia.
  replace (S (N - 1)) with N in Hend_last by lia.
  eexists _, _, _, _.
  split; [exact Hstart_first|]. split.
  { unfold InstructionEndOfBytecodeHandlers. fold N.
    rewrite Hstart_last, Hsize_last. reflexivity. }
  split; [exact Hstart_i|]. split; [exact Hsize_i|].
  pose proof (built_code_region_end cfg os isolate w w' d Hrun Hpad Hfit) as Hend.
  fold N in Hend.
  pose proof (Hmono 0%nat (Z.to_nat kFirstBytecodeHandler) ltac:(lia) ltac:(lia))
    as H0.
  pose proof (Hmono (Z.to_nat kFirstBytecodeHandler) (Z.to_nat i)
                ltac:(lia) ltac:(lia)) as H1.
  assert (unit_start cfg isolate d (Z.to_nat i) + unit_length isolate (Z.to_nat i)
          ≤ unit_start cfg isolate d (N - 1) + unit_length isolate (N - 1))
    as H2.
  { destruct (decide (Z.to_nat i = N - 1)%nat) as [->|Hne]; [lia|].
    pose proof (Hmono (S (Z.to_nat i)) (N - 1)%nat ltac:(lia) ltac:(lia)). lia. }
  unfold unit_start in H0 at 1. simpl in H0.
  repeat split; lia.
Qed.

Lemma bytecode_handlers_lie_between_start_and_end_witness :
  ∃ first last,
    InstructionStartOfBytecodeHandlers example_cfg 2 scenario_blob = Some first ∧
    InstructionEndOfBytecodeHandlers example_cfg (builtins scenario_isolate)
      scenario_blob = Some last ∧
    first ≤ last ∧ last ≤ code_ scenario_blob + code_size scenario_blob.
Proof.
  destruct scenario_blob_built as [w' Hrun].
  destruct (bytecode_handlers_lie_between_start_and_end example_cfg example_os
              scenario_isolate empty_world w' scenario_blob 2 2 Hrun
              example_pads_scenario example_fits_scenario)
    as (first & last & start & size & Hfirst & Hlast & _ & _ & _ & H1 & H2
        & H3 & H4).
  - lia.
  - simpl. lia.
  - exists first, last. split; [exact Hfirst|]. split; [exact Hlast|]. lia.
Defined.

(** ** A failed build *)

Lemma FinalizeEmbeddedCodeTargets_Fatal_world cfg isolate blob w msg w1 :
  FinalizeEmbeddedCodeTargets cfg isolate blob w = Fatal msg w1 → w1 = w.
Proof.
  intros H. unfold FinalizeEmbeddedCodeTargets in H.
  apply (for_loop_M_Fatal (fun _ v => v = w)) in H
    as (i & blob0 & w0 & Hi & -> & Hstep); [| |done].
  - unfold finalize_step in Hstep.
    apply bind_Fatal in Hstep as [Hstep|(off_heap_it & w0 & Hit & Hstep)];
      [by apply defined_not_Fatal in Hstep|].
    apply defined_Ok in Hit as [Hit ->].
    destruct (direct_code_targets cfg).
    + unfold RelocIterator_embedded in Hit.
      destruct (InstructionStartOfBuiltin cfg blob0 _) as [start|]; [|done].
      injection Hit as <-.
      by apply fix_targets_Fatal in Hstep as (_ & -> & _).
    + apply bind_Fatal in Hstep as [Hstep|([] & w0 & Hcheck & Hstep)].
      { by apply CHECK_Fatal in Hstep as (_ & _ & ->). }
      apply CHECK_Ok in Hcheck as [_ ->].
      apply bind_Fatal in Hstep as [Hstep|([] & w0 & Hcheck & Hstep)];
        [|done].
      by apply CHECK_Fatal in Hstep as (_ & _ & ->).
  - intros i s v s' v' -> Hstep.
    by apply finalize_step_frame in Hstep as [_ ->].
Qed.

Lemma new_uint8_array_Fatal os n w msg w1 :
  new_uint8_array os n w = Fatal msg w1 → w1 = w.
Proof.
  unfold new_uint8_array. destruct (operator_new os _ _); [done|].
  by intros [= _ ->].
Qed.

(** A build that fails has printed and may have obtained arrays from [new],
    and has done nothing else. *)
Lemma FromIsolate_Fatal_world cfg os isolate w msg w1 :
  FromIsolate cfg os isolate w = Fatal msg w1 →
  pages w1 = pages w ∧ page_calls w1 = page_calls w ∧
  mmap_random_calls w1 = mmap_random_calls w ∧
  write_barriers w1 = write_barriers w.
Proof.
  intros H. unfold FromIsolate in H.
  apply bind_Fatal in H as [H|(s & w0 & Hs & H)]; [done|].
  injection Hs as <- <-.
  apply bind_Fatal in H as [H|([] & w0 & Hcheck & H)].
  { by apply CHECK_Fatal in H as (_ & _ & ->). }
  apply CHECK_Ok in Hcheck as [_ ->].
  apply bind_Fatal in H as [H|(blob_code & w0 & Hnew1 & H)].
  { by apply new_uint8_array_Fatal in H as ->. }
  apply new_uint8_array_Ok in Hnew1 as [_ ->].
  apply bind_Fatal in H as [H|(blob_metadata & w0 & Hnew2 & H)].
  { by apply new_uint8_array_Fatal in H as ->. }
  apply new_uint8_array_Ok in Hnew2 as [_ ->].
  apply bind_Fatal in H as [H|(metadata1 & w0 & Hm1 & H)];
    [by apply defined_not_Fatal in H|].
  apply defined_Ok in Hm1 as [_ ->].
  apply bind_Fatal in H as [H|(metadata2 & w0 & Hm2 & H)];
    [by apply defined_not_Fatal in H|].
  apply defined_Ok in Hm2 as [_ ->].
  apply bind_Fatal in H as [H|(code1 & w0 & Hcode & H)];
    [by apply defined_not_Fatal in H|].
  apply defined_Ok in Hcode as [_ ->].
  apply bind_Fatal in H as [H|(d1 & w0 & Hfix & H)].
  { by apply FinalizeEmbeddedCodeTargets_Fatal_world in H as ->. }
  apply bind_Fatal in H as [H|(hash & w2 & Hhash & H)];
    [by apply defined_not_Fatal in H|].
  apply bind_Fatal in H as [H|(metadata3 & w3 & Hm3 & H)];
    [by apply defined_not_Fatal in H|done].
Qed.

(** X16. When the build of the blob fails fatally,
    [CreateOffHeapInstructionStream] fails with the failure of the build,
    before its first call of the page allocator: no region was requested
    and no random address drawn. *)
Theorem CreateOffHeapInstructionStream_fails_with_the_build
    (cfg : Config) (os : Platform) (isolate : Isolate) (w w1 : World)
    (msg : string) :
  FromIsolate cfg os isolate w = Fatal msg w1 →
  CreateOffHeapInstructionStream cfg os isolate w = Fatal msg w1 ∧
  pages w1 = pages w ∧ page_calls w1 = page_calls w ∧
  mmap_random_calls w1 = mmap_random_calls w.
Proof.
  intros Hbuild. split.
  - unfold CreateOffHeapInstructionStream, bind. by rewrite Hbuild.
  - by destruct (FromIsolate_Fatal_world _ _ _ _ _ _ Hbuild) as (? & ? & ? & _).
Qed.

Lemma CreateOffHeapInstructionStream_fails_with_the_build_witness :
  ∃ w1,
    CreateOffHeapInstructionStream example_cfg example_os two_unsafe_isolate
      empty_world = Fatal unsafe_builtin_message w1 ∧
    page_calls w1 = [].
Proof.
  destruct (FromIsolate example_cfg example_os two_unsafe_isolate empty_world)
    as [d w1|msg w1|] eqn:Hbuild; [by vm_compute in Hbuild| |by vm_compute in Hbuild].
  assert (msg = unsafe_builtin_message) as ->.
  { pose proof Hbuild as Hvalue. vm_compute in Hvalue.
    injection Hvalue as <- _. vm_compute. reflexivity. }
  exists w1.
  destruct (CreateOffHeapInstructionStream_fails_with_the_build _ _ _ _ _ _
              Hbuild) as (Hcreate & _ & Hcalls & _).
  split; [exact Hcreate|exact Hcalls].
Defined.
